(** * Review aggregation dashboards: a shallow embedding

    The repository holds three React pages.  Each derives its display values
    from the fetched batch with [useMemo] closures, which are pure functions
    of the component state, and fills the state in a submit handler:

    - [src/app/page.tsx]: [summary], [ratingDistributionData], [handleSubmit];
    - [src/unnamed/part_001]: [filteredReviews], [chartData], [handleSubmit];
    - [src/unnamed/part_000]: [filteredData], [averageRating],
      [ratingDistribution] and [handleSubmit] of the business listing page.

    Numbers.  A finite JavaScript number is a double; it is represented by
    the rational it denotes ([Q]).  Products, sums and quotients of ratings
    are rounded to a double after every operation ([Js.round]: 53 bits of
    significand, to nearest, ties to even), and a decimal literal denotes
    the double nearest to it ([Js.literal]).  The exponent is not bounded:
    the pages' numbers (ratings up to 5, numbers of reviews) are far from
    the largest double, and what underflow could change is below the two
    decimals shown.  A division by zero gives [Infinity] or [NaN].  Counts
    are numbers of reviews: integers, on which double addition is exact
    below 2^53; sums of counts alone are written without rounding.  Equal
    numbers are compared with [==].

    Strings.  A string is the sequence of the bytes of its UTF-8 form, so
    that an ASCII character is one byte of its own value.  The pages look
    inside a string only for ASCII characters (the line feed, the digits
    '1'..'5', the word "Error") and for whole substrings, which gives the
    same answer on the bytes as on the characters.  [toLowerCase] and
    [trim] belong to the JavaScript engine and not to the repository: they
    are the methods of the class [Js.Engine], and what is proved holds for
    every engine.  [Js.ascii_engine] computes what every engine computes on
    ASCII text; it runs the examples, whose strings are ASCII.

    Objects.  A property may be absent ([undefined]); it is an [option].
    Calling a method on [undefined] throws a [TypeError]; code that can do
    so lives in the [completion] monad. *)

From Stdlib Require Import QArith Qround Qabs Qminmax Qpower ZArith List String Ascii Bool.
From Stdlib Require Import Permutation Lia Lqa.
Import ListNotations.

Open Scope Q_scope.

(** ** JavaScript primitives used by the pages *)

Module Js.

(** [x || 0] on an optional number: [undefined] and [0] are falsy. *)
Definition or0 (x : option Q) : Q :=
  match x with
  | Some q => if Qeq_bool q 0 then 0 else q
  | None => 0
  end.

(** [x > y] on numbers. *)
Definition gt (x y : Q) : bool := negb (Qle_bool x y).

(** [x >= k] where [x] may be [undefined]: [undefined >= k] is [false]. *)
Definition ge (x : option Q) (k : Q) : bool :=
  match x with
  | Some q => Qle_bool k q
  | None => false
  end.

(** *** Double arithmetic *)

(** The binary exponent of a positive number [a]: the [e] with
    [2^e <= a < 2^(e+1)]. *)
Definition exponent (a : Q) : Z :=
  let e := (Z.log2 (Qnum a) - Z.log2 (Zpos (Qden a)))%Z in
  if Qle_bool (2 ^ e) a then e else (e - 1)%Z.

(** The integer nearest to [m], the even one of the two on a tie. *)
Definition nearest_even (m : Q) : Z :=
  let f := Qfloor m in
  match Qcompare (m - inject_Z f) (1 # 2) with
  | Lt => f
  | Gt => (f + 1)%Z
  | Eq => if Z.even f then f else (f + 1)%Z
  end.

(** The double nearest to [x]: [x] is scaled so that its significand has
    53 bits, and the significand is rounded to the nearest integer, ties
    to even. *)
Definition round (x : Q) : Q :=
  if Qeq_bool x 0 then 0
  else
    let a := Qabs x in
    let s := (exponent a - 52)%Z in
    let y := inject_Z (nearest_even (a / 2 ^ s)) * 2 ^ s in
    if Qle_bool 0 x then y else - y.

(** [x + y] and [x * y] on doubles. *)
Definition add (x y : Q) : Q := round (x + y).
Definition mul (x y : Q) : Q := round (x * y).

(** A number that may fail to be finite. *)
Inductive number : Type :=
| Fin (q : Q)
| Infinity (negative : bool)
| NaN.

(** [x / y] on doubles: [0 / 0] is [NaN], any other division by zero an
    infinity. *)
Definition div (x y : Q) : number :=
  if Qeq_bool y 0
  then if Qeq_bool x 0 then NaN else Infinity (negb (Qle_bool 0 x))
  else Fin (round (x / y)).

(** The number denoted by [x.toFixed(2)] for a finite [x]: the integer [n]
    for which [n / 100] is nearest to [x], the larger one on a tie, after
    the sign has been split off.  [parseFloat] reads the double nearest to
    that decimal, which prints as the decimal itself.  (Beyond [1e21]
    [toFixed] prints the number itself; every double of that size is an
    integer, so that case is the same rounding.) *)
Definition toFixed2 (x : Q) : Q :=
  if Qle_bool 0 x
  then inject_Z (Qfloor (x * 100 + (1 # 2))) / 100
  else - (inject_Z (Qfloor (- x * 100 + (1 # 2))) / 100).

(** [parseFloat(x.toFixed(2))] on any number: ["NaN"] and ["Infinity"] are
    read back as they are. *)
Definition toFixed2_number (x : number) : number :=
  match x with
  | Fin q => Fin (toFixed2 q)
  | Infinity s => Infinity s
  | NaN => NaN
  end.

(** The double a decimal literal denotes, in a program or in JSON. *)
Definition literal (q : Q) : Q := round q.

(** Two numbers are the same value. *)
Definition same_value (x y : number) : Prop :=
  match x, y with
  | Fin a, Fin b => a == b
  | Infinity s, Infinity t => s = t
  | NaN, NaN => True
  | _, _ => False
  end.

(** *** Strings *)

(** [s.startsWith(q)], the test [includes] makes at each position. *)
Fixpoint startsWith (s q : string) : bool :=
  match q, s with
  | EmptyString, _ => true
  | String _ _, EmptyString => false
  | String a q', String b s' => Ascii.eqb a b && startsWith s' q'
  end.

(** [s.includes(q)]: [q] occurs in [s] at some position. *)
Fixpoint includes (s q : string) : bool :=
  startsWith s q ||
  match s with
  | EmptyString => false
  | String _ s' => includes s' q
  end.

(** [s.charAt(0)]: the first character as a string, [""] on [""].  The
    combiner compares it with the keys "1".."5" only: it is one of them
    exactly when the first byte is. *)
Definition charAt0 (s : string) : string :=
  match s with
  | EmptyString => EmptyString
  | String c _ => String c EmptyString
  end.

(** [!s] on a string: only the empty string is falsy. *)
Definition not_ (s : string) : bool :=
  match s with
  | EmptyString => true
  | String _ _ => false
  end.

(** [s.split(sep)] for a separator of one character: the pieces between
    the separators, [[""]] on the empty string. *)
Fixpoint split (sep : ascii) (s : string) : list string :=
  match s with
  | EmptyString => [EmptyString]
  | String c s' =>
      if Ascii.eqb c sep then EmptyString :: split sep s'
      else
        match split sep s' with
        | [] => [String c EmptyString]
        | piece :: pieces => String c piece :: pieces
        end
  end.

(** [pieces.join(sep)] for a separator of one character. *)
Fixpoint join (sep : ascii) (pieces : list string) : string :=
  match pieces with
  | [] => EmptyString
  | [piece] => piece
  | piece :: pieces' => (piece ++ String sep (join sep pieces'))%string
  end.

(** A string used as a condition: only [undefined] and [""] are falsy. *)
Definition truthy (x : option string) : bool :=
  match x with
  | Some (String _ _) => true
  | _ => false
  end.

(** *** The engine *)

(** The methods of the JavaScript engine the pages call: they are part of
    the language, not of the repository.
    - [toLowerCase]: [String.prototype.toLowerCase];
    - [trim]: [String.prototype.trim], which removes the white space and
      the line terminators at both ends;
    - [readNull p]: the message of the [TypeError] thrown when the
      property [p] of [null] is read.
    Lower-casing replaces every character by one character or more, so it
    gives the empty string on the empty string and on no other; trimming
    the empty string leaves it empty. *)
Class Engine : Type := {
  toLowerCase : string -> string;
  trim : string -> string;
  readNull : string -> string;
  toLowerCase_empty : forall s, toLowerCase s = EmptyString <-> s = EmptyString;
  trim_empty : trim EmptyString = EmptyString
}.

(** The engine on ASCII text: the capital letters 'A'..'Z' are 32 below
    their small letters; the white space is tab, line feed, vertical tab,
    form feed, carriage return and space.  The message for [null] is the
    one of V8.  It stands for the engine in the examples only, which hold
    ASCII text; on other text an engine knows more letters and more white
    space. *)
Definition ascii_lower (c : ascii) : ascii :=
  let n := nat_of_ascii c in
  if ((65 <=? n) && (n <=? 90))%nat then ascii_of_nat (n + 32) else c.

Fixpoint ascii_toLowerCase (s : string) : string :=
  match s with
  | EmptyString => EmptyString
  | String c s' => String (ascii_lower c) (ascii_toLowerCase s')
  end.

Definition ascii_isWhiteSpace (c : ascii) : bool :=
  let n := nat_of_ascii c in
  (((9 <=? n) && (n <=? 13)) || (n =? 32))%nat.

Fixpoint ascii_trimStart (s : string) : string :=
  match s with
  | EmptyString => EmptyString
  | String c s' => if ascii_isWhiteSpace c then ascii_trimStart s' else s
  end.

Fixpoint ascii_trimEnd (s : string) : string :=
  match s with
  | EmptyString => EmptyString
  | String c s' =>
      match ascii_trimEnd s' with
      | EmptyString =>
          if ascii_isWhiteSpace c then EmptyString else String c EmptyString
      | String d t => String c (String d t)
      end
  end.

Definition ascii_trim (s : string) : string :=
  ascii_trimEnd (ascii_trimStart s).

Definition ascii_toLowerCase_empty (s : string) :
  ascii_toLowerCase s = EmptyString <-> s = EmptyString.
Proof. destruct s; simpl; split; congruence. Qed.

Definition ascii_engine : Engine :=
  {| toLowerCase := ascii_toLowerCase;
     trim := ascii_trim;
     readNull := fun p =>
       ("Cannot read properties of null (reading '" ++ p ++ "')")%string;
     toLowerCase_empty := ascii_toLowerCase_empty;
     trim_empty := eq_refl |}.

(** *** Completions: a value, or a thrown exception *)

Inductive error : Type := TypeError.

Inductive completion (A : Type) : Type :=
| Normal (a : A)
| Throw (e : error).

Arguments Normal {A} a.
Arguments Throw {A} e.

Definition bind {A B : Type} (c : completion A) (k : A -> completion B)
  : completion B :=
  match c with
  | Normal a => k a
  | Throw e => Throw e
  end.

(** Reading a property in order to call a method on it. *)
Definition receiver {A : Type} (x : option A) : completion A :=
  match x with
  | Some a => Normal a
  | None => Throw TypeError
  end.

(** [xs.filter(p)]: the callback runs on each element in order; the first
    exception ends the call. *)
Fixpoint filter {A : Type} (p : A -> completion bool) (xs : list A)
  : completion (list A) :=
  match xs with
  | [] => Normal []
  | x :: xs' =>
      bind (p x) (fun keep =>
      bind (filter p xs') (fun rest =>
      Normal (if keep then x :: rest else rest)))
  end.

(** [xs.reduce((sum, item) => sum + f(item), 0)] where [f] gives a count. *)
Definition reduce_sum {A : Type} (f : A -> Q) (xs : list A) : Q :=
  fold_left (fun sum item => sum + f item) xs 0.

(** [xs.reduce((sum, item) => sum + f(item), 0)] where [f] gives a
    fraction: every addition rounds. *)
Definition reduce_add {A : Type} (f : A -> Q) (xs : list A) : Q :=
  fold_left (fun sum item => add sum (f item)) xs 0.

(** A value caught by [catch]: an [Error] with its message, or a value
    that is no [Error], with the text [String(value)] gives. *)
Inductive thrown : Type :=
| ErrorObject (message : string)
| OtherValue (shown : string).

End Js.

Notation "x <- c ;; k" := (Js.bind c (fun x => k))
  (at level 61, c at next level, right associativity).

(** ** The hotel review pages: [page.tsx] and [part_001] *)

Module Reviews.

Module Snippet.
Record t : Type := mk { rating : option Q; snippet : option string }.
End Snippet.

(** A record of the batch as it arrives: [interface ReviewData] /
    [interface Review], every property possibly absent. *)
Record ReviewData : Type := mkReviewData {
  source : option string;
  rating : option Q;
  count : option Q;
  distribution : option (list (string * Q));
  reviews : option (list Snippet.t)
}.

Record Summary : Type := mkSummary {
  avgRating : Js.number;
  totalReviews : Q;
  sourceCount : nat
}.

(** [weightedTotalRating], line 107: each product and each sum is a
    double. *)
Definition weightedTotalRating (data : list ReviewData) : Q :=
  Js.reduce_add (fun item => Js.mul (Js.or0 (rating item)) (Js.or0 (count item)))
                data.

(** [summary], page.tsx lines 104-114. *)
Definition summary (data : list ReviewData) : Summary :=
  if (List.length data =? 0)%nat
  then {| avgRating := Js.Fin 0; totalReviews := 0; sourceCount := 0 |}
  else
    let totalReviews := Js.reduce_sum (fun item => Js.or0 (count item)) data in
    let weightedTotalRating := weightedTotalRating data in
    let avgRating :=
      if Js.gt totalReviews 0
      then Js.div weightedTotalRating totalReviews
      else Js.Fin 0 in
    {| avgRating := Js.toFixed2_number avgRating;
       totalReviews := totalReviews;
       sourceCount := List.length data |}.

(** The object literal [combined]: its own keys in the order written. *)
Definition object : Type := list (string * Q).

Definition combined0 : object :=
  [("5", 0); ("4", 0); ("3", 0); ("2", 0); ("1", 0)]%string.

Fixpoint hasOwnProperty (o : object) (key : string) : bool :=
  match o with
  | [] => false
  | (k, _) :: o' => String.eqb k key || hasOwnProperty o' key
  end.

(** [o[key] += v] for an own key. *)
Fixpoint add_to (o : object) (key : string) (v : Q) : object :=
  match o with
  | [] => []
  | (k, x) :: o' =>
      if String.eqb k key then (k, x + v) :: o' else (k, x) :: add_to o' key v
  end.

(** [o[key]]; the keys read below are own keys of [combined] throughout
    (see [get_add_to] and [hasOwnProperty_add_to]), the default is never
    reached. *)
Fixpoint get (o : object) (key : string) : Q :=
  match o with
  | [] => 0
  | (k, x) :: o' => if String.eqb k key then x else get o' key
  end.

(** The body of the [for ... of Object.entries(source.distribution)] loop. *)
Definition add_entry (combined : object) (entry : string * Q) : object :=
  let '(rating, count) := entry in
  let key := Js.charAt0 rating in
  if hasOwnProperty combined key then add_to combined key count else combined.

(** The body of [data.forEach]. *)
Definition add_source (combined : object) (source : ReviewData) : object :=
  match distribution source with
  | Some entries => fold_left add_entry entries combined
  | None => combined
  end.

(** [ratingDistributionData], page.tsx lines 116-135: the entries
    [{rating, count}] as pairs. *)
Definition ratingDistributionData (data : list ReviewData) : list (Z * Q) :=
  let combined := fold_left add_source data combined0 in
  [ (5%Z, get combined "5");
    (4%Z, get combined "4");
    (3%Z, get combined "3");
    (2%Z, get combined "2");
    (1%Z, get combined "1") ]%string.

(** [filteredReviews], part_001 lines 56-61. *)
Definition filteredReviews {E : Js.Engine} (searchTerm : string)
           (data : list ReviewData) : Js.completion (list ReviewData) :=
  if Js.not_ searchTerm then Js.Normal data
  else
    Js.filter (fun review =>
      s <- Js.receiver (source review) ;;
      Js.Normal (Js.includes (Js.toLowerCase s) (Js.toLowerCase searchTerm)))
      data.

End Reviews.

(** ** The business listing page: [part_000] *)

Module Listing.

(** [interface Business]. *)
Record Business : Type := mkBusiness {
  name : option string;
  category : option string;
  address : option string;
  rating : option Q;
  reviews : option Q;
  website : option string;
  phone : option string;
  priceLevel : option string;
  hours : option string;
  serviceOptions : option string;
  latitude : option Q;
  longitude : option Q
}.

(** [filteredData], part_000 lines 73-79; [||] evaluates its right operand
    only when the left one is [false]. *)
Definition filteredData {E : Js.Engine} (searchTerm : string)
           (data : list Business) : Js.completion (list Business) :=
  if Js.not_ searchTerm then Js.Normal data
  else
    Js.filter (fun item =>
      n <- Js.receiver (name item) ;;
      if Js.includes (Js.toLowerCase n) (Js.toLowerCase searchTerm)
      then Js.Normal true
      else
        c <- Js.receiver (category item) ;;
        Js.Normal (Js.includes (Js.toLowerCase c) (Js.toLowerCase searchTerm)))
      data.

(** [total], line 83: a sum of ratings, rounded at every step. *)
Definition total (data : list Business) : Q :=
  Js.reduce_add (fun item => Js.or0 (rating item)) data.

(** [averageRating], part_000 lines 81-85: the number the returned value
    denotes ([0], or the string made by [toFixed(2)]). *)
Definition averageRating (data : list Business) : Js.number :=
  if (List.length data =? 0)%nat then Js.Fin 0
  else
    Js.toFixed2_number
      (Js.div (total data) (inject_Z (Z.of_nat (List.length data)))).

Definition distribution0 : list (string * nat) :=
  [ ("5 Stars", 0); ("4-4.9 Stars", 0); ("3-3.9 Stars", 0);
    ("2-2.9 Stars", 0); ("1-1.9 Stars", 0) ]%string%nat.

(** [distribution[i].count++]. *)
Fixpoint incr (i : nat) (d : list (string * nat)) : list (string * nat) :=
  match d, i with
  | [], _ => []
  | (n, c) :: d', O => (n, S c) :: d'
  | e :: d', S i' => e :: incr i' d'
  end.

(** The body of [data.forEach] in [ratingDistribution]. *)
Definition tally (distribution : list (string * nat)) (item : Business)
  : list (string * nat) :=
  if Js.ge (rating item) 5 then incr 0 distribution
  else if Js.ge (rating item) 4 then incr 1 distribution
  else if Js.ge (rating item) 3 then incr 2 distribution
  else if Js.ge (rating item) 2 then incr 3 distribution
  else if Js.ge (rating item) 1 then incr 4 distribution
  else distribution.

(** [ratingDistribution], part_000 lines 87-103. *)
Definition ratingDistribution (data : list Business) : list (string * nat) :=
  fold_left tally data distribution0.

End Listing.

(** ** The data provider, as the submit handlers see it *)

Module Backend.

(** The JSON body of a response that is an object: the properties the
    pages read.  A body that is a number, a string, a boolean or an array
    has none of them and behaves as the object without properties. *)
Record Result (A : Type) : Type := mkResult {
  message : option string;
  error : option string;
  data : option (list A)
}.

Arguments mkResult {A} _ _ _.
Arguments message {A} _.
Arguments error {A} _.
Arguments data {A} _.

(** [await response.json()]: a rejection, the body [null], or a body
    whose properties can be read. *)
Inductive Body (A : Type) : Type :=
| Unparsable (e : Js.thrown)
| Null
| Parsed (result : Result A).

Arguments Unparsable {A} e.
Arguments Null {A}.
Arguments Parsed {A} result.

(** [await fetch(...)]: a rejection, or a response with its [ok] flag. *)
Inductive Fetched (A : Type) : Type :=
| Rejected (e : Js.thrown)
| Responded (ok : bool) (body : Body A).

Arguments Rejected {A} e.
Arguments Responded {A} ok body.

End Backend.

(** ** The form and the rendering of [page.tsx] *)

Module Dashboard.

Import Reviews.

(** The component's state: the five [useState] cells. *)
Record State : Type := mkState {
  urls : string;
  data : list ReviewData;
  loading : bool;
  error : option string;
  activeIndex : nat
}.

(** [urls.split('\n').filter(url => url.trim() !== '')], line 72. *)
Definition urlList {E : Js.Engine} (urls : string) : list string :=
  List.filter (fun url => negb (String.eqb (Js.trim url) ""))
              (Js.split "010" urls).

(** The state the handler sets before it looks at the input, lines 68-70. *)
Definition started (st : State) : State :=
  {| urls := urls st; data := []; loading := true; error := None;
     activeIndex := activeIndex st |}.

(** The body of the request, when one is sent: [{ urls: urlList }]. *)
Definition request {E : Js.Engine} (st : State) : option (list string) :=
  match urlList (urls st) with
  | [] => None
  | url :: rest => Some (url :: rest)
  end.

(** The [try] block, lines 79-92: the value given to [setData], or the
    value thrown.  Reading [result.error] of the body [null] throws. *)
Definition attempt {E : Js.Engine} (f : Backend.Fetched ReviewData)
  : Js.thrown + list ReviewData :=
  match f with
  | Backend.Rejected e => inl e
  | Backend.Responded ok body =>
      if negb ok
      then inl (Js.ErrorObject "Failed to fetch data from the backend.")
      else
        match body with
        | Backend.Unparsable e => inl e
        | Backend.Null => inl (Js.ErrorObject (Js.readNull "error"))
        | Backend.Parsed result =>
            if Js.truthy (Backend.error result)
            then inl (Js.ErrorObject
                        (match Backend.error result with Some m => m | None => "" end))
            else inr (match Backend.data result with Some d => d | None => [] end)
        end
  end.

(** [err instanceof Error ? err.message : 'An unknown error occurred.']. *)
Definition shown_error (e : Js.thrown) : string :=
  match e with
  | Js.ErrorObject m => m
  | Js.OtherValue _ => "An unknown error occurred."
  end.

(** [handleSubmit], lines 66-98: the state once the handler has finished,
    given what the provider answered. *)
Definition handleSubmit {E : Js.Engine} (st : State)
           (f : Backend.Fetched ReviewData) : State :=
  let st := started st in
  match urlList (urls st) with
  | [] =>
      {| urls := urls st; data := data st; loading := false;
         error := Some "Please enter at least one URL."%string;
         activeIndex := activeIndex st |}
  | _ :: _ =>
      match attempt f with
      | inr d =>
          {| urls := urls st; data := d; loading := false;
             error := error st; activeIndex := activeIndex st |}
      | inl e =>
          {| urls := urls st; data := data st; loading := false;
             error := Some (shown_error e); activeIndex := activeIndex st |}
      end
  end.

(** [COLORS], line 27. *)
Definition COLORS : list string :=
  ["#06B6D4"; "#2DD4BF"; "#67E8F9"; "#A5F3FC"; "#CFFAFE"]%string.

(** [COLORS[index % COLORS.length]], line 237; [None] is [undefined]. *)
Definition fill (index : nat) : option string :=
  nth_error COLORS (index mod List.length COLORS).

(** The [fill] of the cells of the pie, one per entry of
    [ratingDistributionData], line 237. *)
Definition cellFills (data : list ReviewData) : list (option string) :=
  map fill (seq 0 (List.length (ratingDistributionData data))).

(** The snippets shown for a source, lines 275-279:
    [item.reviews && item.reviews.map(review => review.snippet || '...')]. *)
Definition snippetTexts (item : ReviewData) : list string :=
  match reviews item with
  | Some rs =>
      map (fun review =>
             if Js.truthy (Snippet.snippet review)
             then match Snippet.snippet review with Some s => s | None => ""%string end
             else "No snippet available."%string) rs
  | None => []
  end.

End Dashboard.

(** ** The form and the chart of [part_001] *)

Module SourcePage.

Import Reviews.

Record State : Type := mkState {
  urls : string;
  data : list ReviewData;
  loading : bool;
  error : option string;
  searchTerm : string
}.

(** Line 29, the same expression as in [page.tsx]. *)
Definition urlList {E : Js.Engine} (urls : string) : list string :=
  List.filter (fun url => negb (String.eqb (Js.trim url) ""))
              (Js.split "010" urls).

Definition started (st : State) : State :=
  {| urls := urls st; data := []; loading := true; error := None;
     searchTerm := searchTerm st |}.

(** The [try] block, lines 36-48: no look at [result.error] here; reading
    [result.data] of the body [null] throws. *)
Definition attempt {E : Js.Engine} (f : Backend.Fetched ReviewData)
  : Js.thrown + list ReviewData :=
  match f with
  | Backend.Rejected e => inl e
  | Backend.Responded ok body =>
      if negb ok
      then inl (Js.ErrorObject "Failed to fetch data from the backend.")
      else
        match body with
        | Backend.Unparsable e => inl e
        | Backend.Null => inl (Js.ErrorObject (Js.readNull "data"))
        | Backend.Parsed result =>
            inr (match Backend.data result with Some d => d | None => [] end)
        end
  end.

Definition shown_error (e : Js.thrown) : string :=
  match e with
  | Js.ErrorObject m => m
  | Js.OtherValue _ => "An unknown error occurred."
  end.

(** [handleSubmit], lines 23-54. *)
Definition handleSubmit {E : Js.Engine} (st : State)
           (f : Backend.Fetched ReviewData) : State :=
  let st := started st in
  match urlList (urls st) with
  | [] =>
      {| urls := urls st; data := data st; loading := false;
         error := Some "Please enter at least one URL."%string;
         searchTerm := searchTerm st |}
  | _ :: _ =>
      match attempt f with
      | inr d =>
          {| urls := urls st; data := d; loading := false;
             error := error st; searchTerm := searchTerm st |}
      | inl e =>
          {| urls := urls st; data := data st; loading := false;
             error := Some (shown_error e); searchTerm := searchTerm st |}
      end
  end.

(** [chartData], lines 63-68: the bars [{name, 'Overall Rating'}] as
    pairs, computed from [filteredReviews]. *)
Definition chartData {E : Js.Engine} (searchTerm : string)
           (data : list ReviewData)
  : Js.completion (list (option string * option Q)) :=
  out <- filteredReviews searchTerm data ;;
  Js.Normal (map (fun review => (source review, rating review)) out).

End SourcePage.

(** ** The form of [part_000] *)

Module Scraper.

Record State : Type := mkState {
  query : string;
  loading : bool;
  message : option string;
  data : list Listing.Business;
  searchTerm : string
}.

Definition started (st : State) : State :=
  {| query := query st; loading := true; message := Some ""%string; data := [];
     searchTerm := searchTerm st |}.

(** The [try] block, lines 50-64: the value given to [setMessage], or the
    value thrown.  The body is read before the [ok] flag is tested; for
    the body [null], reading [result.message] throws on either branch. *)
Definition attempt {E : Js.Engine} (f : Backend.Fetched Listing.Business)
  : Js.thrown + option string :=
  match f with
  | Backend.Rejected e => inl e
  | Backend.Responded ok body =>
      match body with
      | Backend.Unparsable e => inl e
      | Backend.Null => inl (Js.ErrorObject (Js.readNull "message"))
      | Backend.Parsed result =>
          if negb ok
          then inl (Js.ErrorObject
                      (if Js.truthy (Backend.message result)
                       then match Backend.message result with Some m => m | None => "" end
                       else "An unknown error occurred."))
          else inr (Backend.message result)
      end
  end.

(** The message of the [catch] block, line 67. *)
Definition shown_error (e : Js.thrown) : string :=
  match e with
  | Js.ErrorObject m => ("Error: " ++ m)%string
  | Js.OtherValue shown => ("An unexpected error occurred: " ++ shown)%string
  end.

(** [handleSubmit], lines 37-71; [apiUrl] is
    [process.env.NEXT_PUBLIC_API_URL]. *)
Definition handleSubmit {E : Js.Engine} (apiUrl : option string) (st : State)
           (f : Backend.Fetched Listing.Business) : State :=
  let st := started st in
  if negb (Js.truthy apiUrl)
  then {| query := query st; loading := false;
          message := Some "Error: API URL is not configured."%string;
          data := data st; searchTerm := searchTerm st |}
  else
    match attempt f with
    | inr m =>
        {| query := query st; loading := false; message := m;
           data := data st; searchTerm := searchTerm st |}
    | inl e =>
        {| query := query st; loading := false; message := Some (shown_error e);
           data := data st; searchTerm := searchTerm st |}
    end.

(** [message.startsWith('Error')], line 143: the red style of the box. *)
Definition styled_as_error (message : string) : bool :=
  Js.startsWith message "Error".

(** The total of the third card, line 176:
    [data.reduce((sum, item) => sum + (item.reviews || 0), 0)]. *)
Definition totalReviewsScraped (data : list Listing.Business) : Q :=
  Js.reduce_sum (fun item => Js.or0 (Listing.reviews item)) data.

End Scraper.

(** ** What the specification speaks of *)

Module Spec.

Import Reviews.

(** [Sum ] over a list of numbers. *)
Fixpoint Qsum (xs : list Q) : Q :=
  match xs with
  | [] => 0
  | x :: xs' => x + Qsum xs'
  end.

(** A record's count and rating, an absent one treated as 0. *)
Definition count_of (r : ReviewData) : Q :=
  match count r with Some c => c | None => 0 end.

Definition rating_of (r : ReviewData) : Q :=
  match rating r with Some x => x | None => 0 end.

Definition total_count (data : list ReviewData) : Q :=
  Qsum (map count_of data).

Definition total_weighted (data : list ReviewData) : Q :=
  Qsum (map (fun r => rating_of r * count_of r) data).

(** [Sum (rating_i * count_i) / Sum (count_i)] in exact arithmetic, defined
    as 0 when [Sum (count_i) == 0]. *)
Definition weighted_mean (data : list ReviewData) : Q :=
  if Qeq_bool (total_count data) 0 then 0
  else total_weighted data / total_count data.

(** The schema's [count >= 0]. *)
Definition counts_nonneg (data : list ReviewData) : Prop :=
  Forall (fun r => 0 <= count_of r) data.

(** The schema's [rating >= 0], asked of the records that have reviews. *)
Definition ratings_nonneg (data : list ReviewData) : Prop :=
  Forall (fun r => 0 < count_of r -> 0 <= rating_of r) data.

(** The records that carry weight: those with [count > 0]. *)
Definition weighted (data : list ReviewData) : list ReviewData :=
  List.filter (fun r => Js.gt (count_of r) 0) data.

(** [min(rating_i)] and [max(rating_i)] over the records with
    [count_i > 0]; there is none when no record has a positive count. *)
Definition min_rating (data : list ReviewData) : option Q :=
  match map rating_of (weighted data) with
  | [] => None
  | x :: xs => Some (fold_right Qmin x xs)
  end.

Definition max_rating (data : list ReviewData) : option Q :=
  match map rating_of (weighted data) with
  | [] => None
  | x :: xs => Some (fold_right Qmax x xs)
  end.

(** The unit roundoff of doubles, [2^-53]: rounding a number to the
    nearest double changes it by at most this fraction of itself. *)
Definition u : Q := 1 # 9007199254740992.

(** [x^k]. *)
Fixpoint power (x : Q) (k : nat) : Q :=
  match k with
  | O => 1
  | S k' => x * power x k'
  end.

(** The largest number of elements of a JavaScript array, [2^32 - 1]. *)
Definition array_length (n : nat) : Prop := (Z.of_nat n < 4294967296)%Z.

(** The [(star, count)] pairs present in a record's distribution map. *)
Definition entries_of (r : ReviewData) : list (string * Q) :=
  match distribution r with Some es => es | None => [] end.

(** [Sum ] over the records of [Sum ] over the pairs that satisfy [p] of their
    counts. *)
Definition sum_where (p : string * Q -> bool) (data : list ReviewData) : Q :=
  Qsum (map (fun r => Qsum (map snd (List.filter p (entries_of r)))) data).

(** The pair's key is the bucket [star] itself. *)
Definition key_is (star : string) (e : string * Q) : bool :=
  String.eqb (fst e) star.

(** The pair's key starts with the character of the bucket [star]. *)
Definition key_starts_with (star : string) (e : string * Q) : bool :=
  String.eqb (Js.charAt0 (fst e)) star.

(** The key is one of the buckets "1".."5". *)
Definition key_is_bucket (e : string * Q) : bool :=
  existsb (fun star => key_is star e) ["5"; "4"; "3"; "2"; "1"]%string.

(** The key starts with one of the characters '1'..'5'. *)
Definition key_starts_with_bucket (e : string * Q) : bool :=
  existsb (fun star => key_starts_with star e) ["5"; "4"; "3"; "2"; "1"]%string.

(** The fixed five-entry output, star 5 first, with [total star] as the
    count of each star. *)
Definition five_entries (total : string -> Q) : list (Z * Q) :=
  [ (5%Z, total "5"); (4%Z, total "4"); (3%Z, total "3");
    (2%Z, total "2"); (1%Z, total "1") ]%string.

(** Two histograms with the same stars and equal counts. *)
Definition same_histogram (xs ys : list (Z * Q)) : Prop :=
  Forall2 (fun x y => fst x = fst y /\ snd x == snd y) xs ys.

(** A value with at most two decimal places. *)
Definition two_decimals (x : Q) : Prop := exists n : Z, x == n # 100.

(** [query] occurs in [text], letter case ignored: the lower-cased query
    is a substring of the lower-cased text. *)
Definition contains_ignoring_case {E : Js.Engine} (text query : string) : Prop :=
  exists pre post : string,
    Js.toLowerCase text = (pre ++ Js.toLowerCase query ++ post)%string.

(** [xs] is [ys] with some elements left out, the rest in their order. *)
Inductive subsequence {A : Type} : list A -> list A -> Prop :=
| subsequence_nil : subsequence [] []
| subsequence_keep x xs ys : subsequence xs ys -> subsequence (x :: xs) (x :: ys)
| subsequence_drop y xs ys : subsequence xs ys -> subsequence xs (y :: ys).

(** The schema's required [source: string]. *)
Definition sources_present (data : list ReviewData) : Prop :=
  Forall (fun r => source r <> None) data.

(** The schema's required [name: string] and [category: string]. *)
Definition names_present (data : list Listing.Business) : Prop :=
  Forall (fun b => Listing.name b <> None /\ Listing.category b <> None) data.

(** The records a query selects: those whose source contains it. *)
Definition selects_review {E : Js.Engine} (query : string) (r : ReviewData)
  : Prop :=
  exists s, source r = Some s /\ contains_ignoring_case s query.

(** The businesses a query selects: the name or the category contains it. *)
Definition selects_business {E : Js.Engine} (query : string)
           (b : Listing.Business) : Prop :=
  (exists n, Listing.name b = Some n /\ contains_ignoring_case n query) \/
  (exists c, Listing.category b = Some c /\ contains_ignoring_case c query).

(** The query's selection as a test, for the two kinds of record. *)
Definition field_matches {E : Js.Engine} (query : string)
           (field : option string) : bool :=
  match field with
  | Some s => Js.includes (Js.toLowerCase s) (Js.toLowerCase query)
  | None => false
  end.

Definition keeps_review {E : Js.Engine} (query : string) (r : ReviewData)
  : bool :=
  field_matches query (source r).

Definition keeps_business {E : Js.Engine} (query : string)
           (b : Listing.Business) : bool :=
  field_matches query (Listing.name b) || field_matches query (Listing.category b).

(** The line is blank: trimming leaves nothing of it. *)
Definition blank {E : Js.Engine} (line : string) : Prop :=
  Js.trim line = EmptyString.

(** The business has a rating [x] with [lo <= x], and with [lo <= x < hi]. *)
Definition rated_at_least (lo : Q) (b : Listing.Business) : bool :=
  match Listing.rating b with
  | Some x => Qle_bool lo x
  | None => false
  end.

Definition rated_in (lo hi : Q) (b : Listing.Business) : bool :=
  match Listing.rating b with
  | Some x => Qle_bool lo x && negb (Qle_bool hi x)
  | None => false
  end.

Definition count_where {A : Type} (p : A -> bool) (xs : list A) : nat :=
  List.length (List.filter p xs).

(** The simple mean of the ratings and the mean weighted by the review
    counts, of a batch of businesses (an absent number is 0), in exact
    arithmetic. *)
Definition number_of (x : option Q) : Q :=
  match x with Some q => q | None => 0 end.

Definition simple_mean (data : list Listing.Business) : Q :=
  Qsum (map (fun b => number_of (Listing.rating b)) data)
  / inject_Z (Z.of_nat (List.length data)).

Definition review_weighted_mean (data : list Listing.Business) : Q :=
  Qsum (map (fun b => number_of (Listing.rating b) * number_of (Listing.reviews b)) data)
  / Qsum (map (fun b => number_of (Listing.reviews b)) data).

End Spec.

(** ** Auxiliary definitions of the proofs *)

(** The rounding to hundredths behind [toFixed2], on a non-negative
    number. *)
Definition hundredths (x : Q) : Q :=
  inject_Z (Qfloor (x * 100 + (1 # 2))) / 100.

(** The double of a positive number, from its exponent and significand. *)
Definition round_pos (a : Q) : Q :=
  inject_Z (Js.nearest_even (a / 2 ^ (Js.exponent a - 52)))
  * 2 ^ (Js.exponent a - 52).

(** The quotient the summary rounds to two decimals, over the exact sum of
    the counts. *)
Definition quotient (data : list Reviews.ReviewData) : Q :=
  if Js.gt (Spec.total_count data) 0
  then Js.round (Reviews.weightedTotalRating data / Spec.total_count data)
  else 0.

(** 1 when the test holds, else 0. *)
Definition one_if (t : bool) : nat := if t then 1%nat else 0%nat.

(** The record with its count multiplied by the whole number [k]. *)
Definition scale_count (k : positive) (r : Reviews.ReviewData)
  : Reviews.ReviewData :=
  {| Reviews.source := Reviews.source r;
     Reviews.rating := Reviews.rating r;
     Reviews.count := option_map (Qmult (inject_Z (Z.pos k))) (Reviews.count r);
     Reviews.distribution := Reviews.distribution r;
     Reviews.reviews := Reviews.reviews r |}.

(** The histogram with, for each star, the sum of the counts of two
    histograms. *)
Definition add_histograms (xs ys : list (Z * Q)) : list (Z * Q) :=
  map (fun xy => (fst (fst xy), snd (fst xy) + snd (snd xy))) (combine xs ys).

(** The character occurs in the text. *)
Fixpoint has_char (c : ascii) (s : string) : bool :=
  match s with
  | EmptyString => false
  | String d s' => Ascii.eqb d c || has_char c s'
  end.

(** The line feed, the separator of the URL box. *)
Definition newline : ascii := "010"%char.

(** ** Concrete batches *)

Module Examples.

Import Reviews.
Open Scope string_scope.

(** The three sources of the specification's scenario. *)
Definition hotelA : ReviewData :=
  {| source := Some "A"; rating := Some 4; count := Some 100;
     distribution := Some [("5", 60); ("4", 40)]; reviews := None |}.

Definition hotelB : ReviewData :=
  {| source := Some "B"; rating := Some 5; count := Some 50;
     distribution := Some [("5", 50)]; reviews := None |}.

Definition hotelC : ReviewData :=
  {| source := Some "C"; rating := None; count := None;
     distribution := None; reviews := None |}.

Definition scenario : list ReviewData := [hotelA; hotelB; hotelC].

Definition named (s : string) : ReviewData :=
  {| source := Some s; rating := None; count := None;
     distribution := None; reviews := None |}.

Definition sites : list ReviewData :=
  [named "Agoda"; named "Booking"; named "TripAdvisor"].

(** A source with a rating and a count only. *)
Definition rated (s : string) (r c : Q) : ReviewData :=
  {| source := Some s; rating := Some r; count := Some c;
     distribution := None; reviews := None |}.

(** One source whose rating has three decimal places. *)
Definition lone : list ReviewData := [ rated "Solo" (Js.literal (4333 # 1000)) 1 ].

(** Three sources rated 1, 1.1 and 1.2 with 2, 1 and 1 reviews, and the
    same sources with the last two in the other order. *)
Definition uneven : list ReviewData :=
  [ rated "P" 1 2; rated "Q" (Js.literal (11 # 10)) 1;
    rated "R" (Js.literal (12 # 10)) 1 ].

Definition uneven' : list ReviewData :=
  [ rated "P" 1 2; rated "R" (Js.literal (12 # 10)) 1;
    rated "Q" (Js.literal (11 # 10)) 1 ].

(** Two sources with the same rating, 1.025, and 1 and 5 reviews. *)
Definition twins : list ReviewData :=
  [ rated "P" (Js.literal (1025 # 1000)) 1;
    rated "Q" (Js.literal (1025 # 1000)) 5 ].

(** Two sources rated 1 and 1.1 with 1 and 3 reviews. *)
Definition pair : list ReviewData :=
  [ rated "P" 1 1; rated "Q" (Js.literal (11 # 10)) 3 ].

(** Two sources rated 1 and 2 with 7 and 33 reviews: the exact mean,
    1.825, is no double. *)
Definition halfway : list ReviewData := [ rated "P" 1 7; rated "Q" 2 33 ].

(** A distribution map with keys that are not "1".."5". *)
Definition odd_keys : list ReviewData :=
  [ {| source := Some "Odd"; rating := Some 4; count := Some 10;
       distribution := Some [("10", 7); ("x", 3)]; reviews := None |} ].

(** No reviews at all: counts absent or zero. *)
Definition unreviewed : list ReviewData :=
  [ hotelC;
    {| source := Some "D"; rating := Some 3; count := Some 0;
       distribution := None; reviews := None |} ].

Definition business (n c : string) (r v : Q) : Listing.Business :=
  {| Listing.name := Some n; Listing.category := Some c;
     Listing.address := Some ""; Listing.rating := Some r;
     Listing.reviews := Some v; Listing.website := Some "";
     Listing.phone := Some ""; Listing.priceLevel := Some "";
     Listing.hours := Some ""; Listing.serviceOptions := Some "";
     Listing.latitude := Some 0; Listing.longitude := Some 0 |}.

Definition shops : list Listing.Business :=
  [ business "Saravana" "Restaurant" 4 100; business "Murugan" "Cafe" 5 50 ].

Definition mixed : list Listing.Business :=
  [ business "Top" "Restaurant" (11 # 2) 10;
    business "Mid" "Cafe" (Js.literal (39 # 10)) 20;
    business "Low" "Bar" (1 # 2) 3 ].

(** Four businesses rated 1, 1, 1.1 and 1.2, and the same with the last
    two in the other order. *)
Definition stalls : list Listing.Business :=
  [ business "K" "Stall" 1 1; business "L" "Stall" 1 1;
    business "M" "Stall" (Js.literal (11 # 10)) 1;
    business "N" "Stall" (Js.literal (12 # 10)) 1 ].

Definition stalls' : list Listing.Business :=
  [ business "K" "Stall" 1 1; business "L" "Stall" 1 1;
    business "N" "Stall" (Js.literal (12 # 10)) 1;
    business "M" "Stall" (Js.literal (11 # 10)) 1 ].

(** A filled URL box on each review page, an answer of the provider that
    carries an error beside its data, and an answer whose body is
    [null]. *)
Definition typed : Dashboard.State :=
  {| Dashboard.urls := "https://a.example/hotel"; Dashboard.data := [];
     Dashboard.loading := false; Dashboard.error := None;
     Dashboard.activeIndex := 0 |}.

Definition typed' : SourcePage.State :=
  {| SourcePage.urls := "https://a.example/hotel"; SourcePage.data := [];
     SourcePage.loading := false; SourcePage.error := None;
     SourcePage.searchTerm := "" |}.

Definition blocked : Backend.Fetched ReviewData :=
  Backend.Responded true
    (Backend.Parsed {| Backend.message := None;
                       Backend.error := Some "blocked";
                       Backend.data := Some [hotelA] |}).

Definition void : Backend.Fetched ReviewData :=
  Backend.Responded true Backend.Null.

End Examples.

(** ** Rounding to a double *)

Section Rounding.

Lemma two_pos (z : Z) : 0 < 2 ^ z.
Proof. apply Qpower_0_lt. reflexivity. Qed.

Lemma two_succ (z : Z) : 2 ^ (z + 1) == 2 * 2 ^ z.
Proof.
  rewrite Qpower_plus by (intro H; discriminate H).
  rewrite Qpower_1_r. ring.
Qed.

Lemma two_pred (z : Z) : 2 * 2 ^ (z - 1) == 2 ^ z.
Proof.
  rewrite <- two_succ. replace (z - 1 + 1)%Z with z by lia. reflexivity.
Qed.

Lemma two_log2 (n : Z) :
  (0 < n)%Z ->
  2 ^ Z.log2 n <= inject_Z n /\ inject_Z n < 2 * 2 ^ Z.log2 n.
Proof.
  intros Hn. destruct (Z.log2_spec n Hn) as [Hlo Hhi].
  pose proof (Z.log2_nonneg n) as Hl.
  rewrite <- two_succ.
  change (2 : Q) with (inject_Z 2).
  rewrite <- !Zpower_Qpower by lia.
  rewrite <- Zle_Qle, <- Zlt_Qlt.
  replace (Z.log2 n + 1)%Z with (Z.succ (Z.log2 n)) by lia. split; assumption.
Qed.

Lemma exponent_spec (a : Q) :
  0 < a -> 2 ^ Js.exponent a <= a /\ a < 2 ^ (Js.exponent a + 1).
Proof.
  intros Ha. unfold Js.exponent.
  set (e := (Z.log2 (Qnum a) - Z.log2 (Z.pos (Qden a)))%Z).
  assert (Hn : (0 < Qnum a)%Z).
  { destruct a as [n d]. unfold Qlt in Ha. simpl in *. lia. }
  destruct (two_log2 (Qnum a) Hn) as [Hn1 Hn2].
  destruct (two_log2 (Z.pos (Qden a)) eq_refl) as [Hd1 Hd2].
  assert (Ea : a * inject_Z (Z.pos (Qden a)) == inject_Z (Qnum a)).
  { destruct a as [n d]. unfold Qeq, Qmult, inject_Z. simpl. lia. }
  pose proof (two_pos (Z.log2 (Qnum a))) as HA.
  pose proof (two_pos (Z.log2 (Z.pos (Qden a)))) as HB.
  assert (Ee : 2 ^ e * 2 ^ Z.log2 (Z.pos (Qden a)) == 2 ^ Z.log2 (Qnum a)).
  { unfold e. rewrite Qpower_minus by (intro H; discriminate H). field. lra. }
  set (A := 2 ^ Z.log2 (Qnum a)) in *.
  set (B := 2 ^ Z.log2 (Z.pos (Qden a))) in *.
  set (N := inject_Z (Qnum a)) in *.
  set (D := inject_Z (Z.pos (Qden a))) in *.
  pose proof (two_pos e) as HP.
  assert (Hup : a < 2 * 2 ^ e).
  { apply Qnot_le_lt. intros Hc.
    assert (2 * 2 ^ e * B <= a * B) by (apply Qmult_le_compat_r; lra).
    assert (a * B <= a * D) by (apply Qmult_le_l; lra).
    lra. }
  assert (Hdn : 2 ^ e < 2 * a).
  { apply Qnot_le_lt. intros Hc.
    assert (2 * a * B <= 2 ^ e * B) by (apply Qmult_le_compat_r; lra).
    assert (a * D < a * (2 * B)) by (apply Qmult_lt_l; lra).
    lra. }
  destruct (Qle_bool (2 ^ e) a) eqn:T.
  - apply Qle_bool_iff in T. rewrite two_succ. split; lra.
  - assert (Hlt : a < 2 ^ e).
    { apply Qnot_le_lt. intros Hc. apply Qle_bool_iff in Hc. congruence. }
    replace (e - 1 + 1)%Z with e by lia.
    pose proof (two_pred e). split; lra.
Qed.

Lemma exponent_unique (a : Q) (e : Z) :
  2 ^ e <= a -> a < 2 ^ (e + 1) -> Js.exponent a = e.
Proof.
  intros Hlo Hhi.
  assert (Ha : 0 < a) by (pose proof (two_pos e); lra).
  destruct (exponent_spec a Ha) as [Sl Sh].
  assert (H1 : (e < Js.exponent a + 1)%Z).
  { apply (Qpower_lt_compat_l_inv 2); [lra|reflexivity]. }
  assert (H2 : (Js.exponent a < e + 1)%Z).
  { apply (Qpower_lt_compat_l_inv 2); [lra|reflexivity]. }
  lia.
Qed.

Lemma exponent_comp (a b : Q) : 0 < a -> a == b -> Js.exponent a = Js.exponent b.
Proof.
  intros Ha E. symmetry. destruct (exponent_spec a Ha) as [Sl Sh].
  apply exponent_unique; rewrite <- E; assumption.
Qed.

Lemma nearest_even_cases (m : Q) :
  Js.nearest_even m = Qfloor m /\ m - inject_Z (Qfloor m) <= 1 # 2 \/
  Js.nearest_even m = (Qfloor m + 1)%Z /\ 1 # 2 <= m - inject_Z (Qfloor m).
Proof.
  unfold Js.nearest_even.
  destruct (Qcompare (m - inject_Z (Qfloor m)) (1 # 2)) eqn:C.
  - rewrite <- Qeq_alt in C. destruct (Z.even (Qfloor m)); [left|right]; split;
      try reflexivity; lra.
  - rewrite <- Qlt_alt in C. left. split; [reflexivity|lra].
  - rewrite <- Qgt_alt in C. right. split; [reflexivity|lra].
Qed.

Lemma nearest_even_near (m : Q) :
  Qabs (inject_Z (Js.nearest_even m) - m) <= 1 # 2.
Proof.
  pose proof (Qfloor_le m) as Hlo. pose proof (Qlt_floor m) as Hhi.
  rewrite inject_Z_plus in Hhi. change (inject_Z 1) with 1 in Hhi.
  apply Qabs_Qle_condition.
  destruct (nearest_even_cases m) as [[-> H]|[-> H]].
  - split; lra.
  - rewrite inject_Z_plus. change (inject_Z 1) with 1. split; lra.
Qed.

Lemma nearest_even_comp (m m' : Q) :
  m == m' -> Js.nearest_even m = Js.nearest_even m'.
Proof.
  intros E. unfold Js.nearest_even.
  rewrite (Qfloor_comp m m' E).
  assert (C : Qcompare (m - inject_Z (Qfloor m')) (1 # 2) =
              Qcompare (m' - inject_Z (Qfloor m')) (1 # 2))
    by (rewrite E; reflexivity).
  rewrite C. reflexivity.
Qed.

Lemma nearest_even_int (z : Z) : Js.nearest_even (inject_Z z) = z.
Proof.
  unfold Js.nearest_even. rewrite Qfloor_Z.
  assert (C : Qcompare (inject_Z z - inject_Z z) (1 # 2) = Lt)
    by (rewrite <- Qlt_alt; lra).
  rewrite C. reflexivity.
Qed.

Lemma nearest_even_lower (m : Q) (z : Z) :
  inject_Z z <= m -> (z <= Js.nearest_even m)%Z.
Proof.
  intros H.
  assert (Hf : (z <= Qfloor m)%Z).
  { rewrite <- (Qfloor_Z z). apply Qfloor_resp_le, H. }
  destruct (nearest_even_cases m) as [[-> _]|[-> _]]; lia.
Qed.

Lemma nearest_even_upper (m : Q) (z : Z) :
  m <= inject_Z z -> (Js.nearest_even m <= z)%Z.
Proof.
  intros H.
  assert (Hf : (Qfloor m <= z)%Z).
  { rewrite <- (Qfloor_Z z). apply Qfloor_resp_le, H. }
  destruct (nearest_even_cases m) as [[-> _]|[-> Hh]]; [lia|].
  destruct (Z.eq_dec (Qfloor m) z) as [Ez|Nz]; [|lia].
  exfalso. rewrite Ez in Hh. lra.
Qed.

Lemma round_unfold (x : Q) :
  Js.round x =
  if Qeq_bool x 0 then 0
  else if Qle_bool 0 x then round_pos (Qabs x) else - round_pos (Qabs x).
Proof. reflexivity. Qed.

Lemma round_pos_comp (a b : Q) : 0 < a -> a == b -> round_pos a == round_pos b.
Proof.
  intros Ha E. unfold round_pos. rewrite <- (exponent_comp a b Ha E).
  rewrite (nearest_even_comp (a / 2 ^ (Js.exponent a - 52))
                             (b / 2 ^ (Js.exponent a - 52)))
    by (apply Qdiv_comp; [exact E|reflexivity]).
  reflexivity.
Qed.

Lemma two_52 (s : Z) : 2 ^ (s + 52) == 4503599627370496 * 2 ^ s.
Proof.
  rewrite Qpower_plus by (intro H; discriminate H).
  assert (E : (2 : Q) ^ 52 == 4503599627370496) by reflexivity.
  rewrite E. ring.
Qed.

(** The significand of a positive number lies in [[2^52, 2^53)]. *)
Lemma significand_range (a : Q) :
  0 < a ->
  4503599627370496 <= a / 2 ^ (Js.exponent a - 52) /\
  a / 2 ^ (Js.exponent a - 52) < 9007199254740992.
Proof.
  intros Ha. destruct (exponent_spec a Ha) as [Sl Sh].
  rewrite two_succ in Sh.
  pose proof (two_52 (Js.exponent a - 52)) as E.
  replace (Js.exponent a - 52 + 52)%Z with (Js.exponent a) in E by lia.
  pose proof (two_pos (Js.exponent a - 52)) as HP.
  set (P := 2 ^ (Js.exponent a - 52)) in *.
  split.
  - apply Qle_shift_div_l; [exact HP|]. lra.
  - apply Qlt_shift_div_r; [exact HP|]. lra.
Qed.

Lemma significand_scale (a : Q) :
  a / 2 ^ (Js.exponent a - 52) * 2 ^ (Js.exponent a - 52) == a.
Proof.
  pose proof (two_pos (Js.exponent a - 52)) as HP. field. lra.
Qed.

(** The rounded significand is an integer of [[2^52, 2^53]]. *)
Lemma rounded_significand_range (a : Q) :
  0 < a ->
  (4503599627370496 <=
     Js.nearest_even (a / 2 ^ (Js.exponent a - 52)) <= 9007199254740992)%Z.
Proof.
  intros Ha. destruct (significand_range a Ha) as [Hlo Hhi]. split.
  - apply nearest_even_lower. exact Hlo.
  - apply nearest_even_upper. apply Qlt_le_weak. exact Hhi.
Qed.

Lemma round_pos_pos (a : Q) : 0 < a -> 0 < round_pos a.
Proof.
  intros Ha. unfold round_pos.
  pose proof (rounded_significand_range a Ha) as [Hlo _].
  apply Qmult_lt_0_compat; [|apply two_pos].
  change 0 with (inject_Z 0). rewrite <- Zlt_Qlt. lia.
Qed.

(** Rounding a positive number changes it by at most the fraction [2^-53]
    of itself. *)
Lemma round_pos_error (a : Q) :
  0 < a -> Qabs (round_pos a - a) <= Spec.u * a.
Proof.
  intros Ha. unfold round_pos.
  destruct (significand_range a Ha) as [Hlo _].
  pose proof (significand_scale a) as Es.
  pose proof (two_pos (Js.exponent a - 52)) as HP.
  pose proof (nearest_even_near (a / 2 ^ (Js.exponent a - 52))) as Hn.
  set (P := 2 ^ (Js.exponent a - 52)) in *.
  set (m := a / P) in *.
  set (N := inject_Z (Js.nearest_even m)) in *.
  apply Qabs_Qle_condition in Hn. destruct Hn as [Hn1 Hn2].
  assert (H1 : (N - m) * P <= (1 # 2) * P) by (apply Qmult_le_compat_r; lra).
  assert (H2 : - (1 # 2) * P <= (N - m) * P) by (apply Qmult_le_compat_r; lra).
  assert (H3 : 4503599627370496 * P <= m * P) by (apply Qmult_le_compat_r; lra).
  assert (E1 : (N - m) * P == N * P - m * P) by ring.
  unfold Spec.u. apply Qabs_Qle_condition. split; lra.
Qed.

Lemma round_zero (x : Q) : x == 0 -> Js.round x = 0.
Proof.
  intros E. unfold Js.round.
  apply Qeq_bool_iff in E. rewrite E. reflexivity.
Qed.

Lemma round_of_pos (x : Q) : 0 < x -> Js.round x == round_pos x.
Proof.
  intros Hx. rewrite round_unfold.
  destruct (Qeq_bool x 0) eqn:E0; [apply Qeq_bool_iff in E0; lra|].
  assert (L : Qle_bool 0 x = true) by (apply Qle_bool_iff; lra).
  rewrite L. apply round_pos_comp.
  - rewrite Qabs_pos; lra.
  - apply Qabs_pos. lra.
Qed.

Lemma round_of_neg (x : Q) : x < 0 -> Js.round x == - round_pos (- x).
Proof.
  intros Hx. rewrite round_unfold.
  destruct (Qeq_bool x 0) eqn:E0; [apply Qeq_bool_iff in E0; lra|].
  destruct (Qle_bool 0 x) eqn:L; [apply Qle_bool_iff in L; lra|].
  apply Qopp_comp, round_pos_comp.
  - rewrite Qabs_neg; lra.
  - apply Qabs_neg. lra.
Qed.

Lemma round_comp (x y : Q) : x == y -> Js.round x == Js.round y.
Proof.
  intros E.
  destruct (Q_dec x 0) as [[Hn|Hp]|Hz].
  - rewrite (round_of_neg x Hn), (round_of_neg y) by lra.
    apply Qopp_comp, round_pos_comp; [lra|]. rewrite E. reflexivity.
  - rewrite (round_of_pos x Hp), (round_of_pos y) by lra.
    apply round_pos_comp; assumption.
  - rewrite (round_zero x Hz), (round_zero y) by lra. reflexivity.
Qed.

(** A double rounds to itself. *)
Lemma round_pos_round_pos (a : Q) :
  0 < a -> round_pos (round_pos a) == round_pos a.
Proof.
  intros Ha.
  pose proof (rounded_significand_range a Ha) as [Nlo Nhi].
  pose proof (two_pos (Js.exponent a - 52)) as HP.
  pose proof (two_52 (Js.exponent a - 52)) as E52.
  replace (Js.exponent a - 52 + 52)%Z with (Js.exponent a) in E52 by lia.
  pose proof (two_succ (Js.exponent a)) as E53.
  pose proof (round_pos_pos a Ha) as Hy.
  set (y := round_pos a) in *.
  assert (Ey : y == inject_Z (Js.nearest_even (a / 2 ^ (Js.exponent a - 52)))
                    * 2 ^ (Js.exponent a - 52)) by reflexivity.
  set (N := Js.nearest_even (a / 2 ^ (Js.exponent a - 52))) in *.
  set (P := 2 ^ (Js.exponent a - 52)) in *.
  rewrite Zle_Qle in Nlo. change (inject_Z 4503599627370496) with 4503599627370496 in Nlo.
  destruct (Z.eq_dec N 9007199254740992) as [Etop|Ntop].
  - assert (Ey' : y == 2 ^ (Js.exponent a + 1)).
    { rewrite Ey, Etop, E53, E52.
      change (inject_Z 9007199254740992) with 9007199254740992. ring. }
    assert (Ex : Js.exponent y = (Js.exponent a + 1)%Z).
    { apply exponent_unique.
      - rewrite Ey'. apply Qle_refl.
      - rewrite Ey'. rewrite (two_succ (Js.exponent a + 1)).
        pose proof (two_pos (Js.exponent a + 1)). lra. }
    unfold round_pos at 1. rewrite Ex.
    replace (Js.exponent a + 1 - 52)%Z with (Js.exponent a - 52 + 1)%Z by lia.
    pose proof (two_succ (Js.exponent a - 52)) as EP. fold P in EP.
    assert (Em : y / 2 ^ (Js.exponent a - 52 + 1) == inject_Z 4503599627370496).
    { rewrite EP, Ey, Etop.
      change (inject_Z 9007199254740992) with 9007199254740992.
      change (inject_Z 4503599627370496) with 4503599627370496.
      field. lra. }
    rewrite (nearest_even_comp _ _ Em), nearest_even_int.
    rewrite EP, Ey, Etop.
    change (inject_Z 9007199254740992) with 9007199254740992.
    change (inject_Z 4503599627370496) with 4503599627370496. ring.
  - assert (Nlt : inject_Z N < 9007199254740992).
    { change 9007199254740992 with (inject_Z 9007199254740992).
      rewrite <- Zlt_Qlt. lia. }
    assert (Ex : Js.exponent y = Js.exponent a).
    { apply exponent_unique.
      - rewrite Ey, E52. apply Qmult_le_compat_r; lra.
      - rewrite Ey, E53, E52.
        assert (inject_Z N * P < 9007199254740992 * P)
          by (apply Qmult_lt_compat_r; lra).
        lra. }
    unfold round_pos at 1. rewrite Ex. fold P.
    assert (Em : y / P == inject_Z N) by (rewrite Ey; field; lra).
    rewrite (nearest_even_comp _ _ Em), nearest_even_int.
    rewrite Ey. reflexivity.
Qed.

Lemma round_round (x : Q) : Js.round (Js.round x) == Js.round x.
Proof.
  destruct (Q_dec x 0) as [[Hn|Hp]|Hz].
  - assert (Hm : 0 < - x) by lra.
    pose proof (round_pos_pos (- x) Hm) as Hy.
    rewrite (round_comp _ _ (round_of_neg x Hn)).
    rewrite (round_of_neg x Hn).
    rewrite (round_of_neg (- round_pos (- x))) by lra.
    apply Qopp_comp.
    rewrite (round_pos_comp (- - round_pos (- x)) (round_pos (- x))) by (try lra; ring).
    apply round_pos_round_pos, Hm.
  - pose proof (round_pos_pos x Hp) as Hy.
    rewrite (round_comp _ _ (round_of_pos x Hp)).
    rewrite (round_of_pos x Hp).
    rewrite (round_of_pos (round_pos x) Hy).
    apply round_pos_round_pos, Hp.
  - rewrite (round_zero x Hz). reflexivity.
Qed.

(** Rounding changes a number by at most the fraction [2^-53] of it. *)
Lemma round_error (x : Q) : Qabs (Js.round x - x) <= Spec.u * Qabs x.
Proof.
  destruct (Q_dec x 0) as [[Hn|Hp]|Hz].
  - assert (Hm : 0 < - x) by lra.
    pose proof (round_pos_error (- x) Hm) as He.
    apply Qabs_Qle_condition in He. destruct He as [He1 He2].
    rewrite (round_of_neg x Hn), (Qabs_neg x) by lra.
    apply Qabs_Qle_condition. split; lra.
  - pose proof (round_pos_error x Hp) as He.
    apply Qabs_Qle_condition in He. destruct He as [He1 He2].
    rewrite (round_of_pos x Hp), (Qabs_pos x) by lra.
    apply Qabs_Qle_condition. split; lra.
  - rewrite (round_zero x Hz), Hz. unfold Spec.u. vm_compute. discriminate.
Qed.

Lemma round_bounds (x : Q) :
  0 <= x -> (1 - Spec.u) * x <= Js.round x /\ Js.round x <= (1 + Spec.u) * x.
Proof.
  intros Hx. pose proof (round_error x) as He.
  rewrite (Qabs_pos x Hx) in He.
  apply Qabs_Qle_condition in He. split; lra.
Qed.

Lemma round_nonneg (x : Q) : 0 <= x -> 0 <= Js.round x.
Proof.
  intros Hx. destruct (round_bounds x Hx) as [Hlo _].
  assert (0 <= (1 - Spec.u) * x).
  { apply Qmult_le_0_compat; [|exact Hx]. unfold Spec.u. lra. }
  lra.
Qed.

End Rounding.
(** ** Sums and rounding *)

Section Numbers.

Lemma or0_eq (x : option Q) :
  Js.or0 x == match x with Some q => q | None => 0 end.
Proof.
  destruct x as [q|]; simpl; [|reflexivity].
  destruct (Qeq_bool q 0) eqn:E; [|reflexivity].
  apply Qeq_bool_iff in E. symmetry. exact E.
Qed.

Lemma gt_iff (x y : Q) : Js.gt x y = true <-> y < x.
Proof.
  unfold Js.gt. rewrite negb_true_iff.
  split; intros H.
  - apply Qnot_le_lt. intros L. apply Qle_bool_iff in L. congruence.
  - destruct (Qle_bool x y) eqn:E; [|reflexivity].
    apply Qle_bool_iff in E. exfalso. apply (Qlt_not_le _ _ H E).
Qed.

Lemma gt_false_iff (x y : Q) : Js.gt x y = false <-> x <= y.
Proof.
  unfold Js.gt. rewrite negb_false_iff. apply Qle_bool_iff.
Qed.

Lemma fold_left_sum {A : Type} (f g : A -> Q) (xs : list A) (a : Q) :
  (forall x, f x == g x) ->
  fold_left (fun sum item => sum + f item) xs a == a + Spec.Qsum (map g xs).
Proof.
  intros Hfg. revert a.
  induction xs as [|x xs IH]; intros a; cbn [fold_left map Spec.Qsum].
  - lra.
  - rewrite IH, (Hfg x). lra.
Qed.

Lemma reduce_sum_Qsum {A : Type} (f g : A -> Q) (xs : list A) :
  (forall x, f x == g x) ->
  Js.reduce_sum f xs == Spec.Qsum (map g xs).
Proof.
  intros Hfg. unfold Js.reduce_sum.
  rewrite (fold_left_sum f g xs 0 Hfg). lra.
Qed.

Lemma Qsum_nonneg (xs : list Q) :
  Forall (fun x => 0 <= x) xs -> 0 <= Spec.Qsum xs.
Proof.
  induction 1 as [|x xs Hx _ IH]; simpl; lra.
Qed.

Lemma toFixed2_unfold (x : Q) :
  Js.toFixed2 x = if Qle_bool 0 x then hundredths x else - hundredths (- x).
Proof. reflexivity. Qed.

Lemma hundredths_unfold (x : Q) :
  hundredths x = inject_Z (Qfloor (x * 100 + (1 # 2))) * (1 # 100).
Proof. reflexivity. Qed.

Lemma hundredths_bounds (x : Q) :
  x - (1 # 200) < hundredths x /\ hundredths x <= x + (1 # 200).
Proof.
  rewrite hundredths_unfold.
  pose proof (Qfloor_le (x * 100 + (1 # 2))) as Hlo.
  pose proof (Qlt_floor (x * 100 + (1 # 2))) as Hhi.
  rewrite inject_Z_plus in Hhi.
  set (n := inject_Z (Qfloor (x * 100 + (1 # 2)))) in *.
  change (inject_Z 1) with 1 in Hhi.
  split; lra.
Qed.

Lemma hundredths_mono (x y : Q) : x <= y -> hundredths x <= hundredths y.
Proof.
  intros H. rewrite !hundredths_unfold.
  assert (Hz : (Qfloor (x * 100 + (1 # 2)) <= Qfloor (y * 100 + (1 # 2)))%Z)
    by (apply Qfloor_resp_le; lra).
  rewrite Zle_Qle in Hz. lra.
Qed.

Lemma hundredths_nonneg (x : Q) : 0 <= x -> 0 <= hundredths x.
Proof.
  intros H. rewrite hundredths_unfold.
  assert (Hz : (Qfloor 0 <= Qfloor (x * 100 + (1 # 2)))%Z)
    by (apply Qfloor_resp_le; lra).
  rewrite Zle_Qle in Hz. change (inject_Z (Qfloor 0)) with 0 in Hz. lra.
Qed.

Lemma hundredths_comp (x y : Q) : x == y -> hundredths x == hundredths y.
Proof.
  intros H. unfold hundredths.
  assert (E : Qfloor (x * 100 + (1 # 2)) = Qfloor (y * 100 + (1 # 2)))
    by (apply Qfloor_comp; rewrite H; reflexivity).
  rewrite E. reflexivity.
Qed.

Lemma hundredths_grid (x : Q) : Spec.two_decimals (hundredths x).
Proof.
  exists (Qfloor (x * 100 + (1 # 2))). unfold hundredths.
  generalize (Qfloor (x * 100 + (1 # 2))). intros n.
  unfold Qeq, Qdiv, Qmult, Qinv, inject_Z. simpl. lia.
Qed.

Lemma toFixed2_comp (x y : Q) : x == y -> Js.toFixed2 x == Js.toFixed2 y.
Proof.
  intros H. rewrite !toFixed2_unfold.
  assert (E : Qle_bool 0 x = Qle_bool 0 y) by (rewrite H; reflexivity).
  rewrite E. destruct (Qle_bool 0 y).
  - apply hundredths_comp, H.
  - apply Qopp_comp, hundredths_comp. rewrite H. reflexivity.
Qed.

Lemma toFixed2_zero (x : Q) : x == 0 -> Js.toFixed2 x == 0.
Proof.
  intros H. rewrite (toFixed2_comp x 0 H). reflexivity.
Qed.

Lemma toFixed2_grid (x : Q) : Spec.two_decimals (Js.toFixed2 x).
Proof.
  rewrite toFixed2_unfold. destruct (Qle_bool 0 x).
  - apply hundredths_grid.
  - destruct (hundredths_grid (- x)) as [n Hn].
    exists (- n)%Z. rewrite Hn. reflexivity.
Qed.

Lemma toFixed2_near (x : Q) : Qabs (Js.toFixed2 x - x) <= 1 # 200.
Proof.
  rewrite toFixed2_unfold. apply Qabs_Qle_condition.
  destruct (Qle_bool 0 x).
  - pose proof (hundredths_bounds x). lra.
  - pose proof (hundredths_bounds (- x)). lra.
Qed.

Lemma toFixed2_mono (x y : Q) : x <= y -> Js.toFixed2 x <= Js.toFixed2 y.
Proof.
  intros H. rewrite !toFixed2_unfold.
  destruct (Qle_bool 0 x) eqn:Ex; destruct (Qle_bool 0 y) eqn:Ey.
  - apply hundredths_mono, H.
  - apply Qle_bool_iff in Ex.
    assert (Hy : 0 <= y) by lra. apply Qle_bool_iff in Hy. congruence.
  - apply Qle_bool_iff in Ey.
    assert (Hx : ~ 0 <= x) by (intros L; apply Qle_bool_iff in L; congruence).
    pose proof (hundredths_nonneg (- x)) as H1.
    pose proof (hundredths_nonneg y Ey) as H2.
    assert (0 <= - x) by lra. specialize (H1 H0). lra.
  - assert (Hm : hundredths (- y) <= hundredths (- x))
      by (apply hundredths_mono; lra).
    lra.
Qed.

Lemma gt_comp (x x' y y' : Q) :
  x == x' -> y == y' -> Js.gt x y = Js.gt x' y'.
Proof.
  intros Hx Hy. unfold Js.gt. rewrite Hx, Hy. reflexivity.
Qed.

Lemma toFixed2_integer (z : Z) : Js.toFixed2 (inject_Z z) == inject_Z z.
Proof.
  rewrite toFixed2_unfold.
  assert (Hr : forall y : Z, hundredths (inject_Z y) == inject_Z y).
  { intros y. rewrite hundredths_unfold.
    assert (E : Qfloor (inject_Z y * 100 + (1 # 2)) = (y * 100)%Z).
    { assert (Hlo : (y * 100 <= Qfloor (inject_Z y * 100 + (1 # 2)))%Z).
      { rewrite <- (Qfloor_Z (y * 100)). apply Qfloor_resp_le.
        rewrite inject_Z_mult. change (inject_Z 100) with 100. lra. }
      assert (Hhi : (Qfloor (inject_Z y * 100 + (1 # 2)) < y * 100 + 1)%Z).
      { rewrite Zlt_Qlt. eapply Qle_lt_trans; [apply Qfloor_le|].
        rewrite inject_Z_plus, inject_Z_mult.
        change (inject_Z 100) with 100. change (inject_Z 1) with 1. lra. }
      lia. }
    rewrite E, inject_Z_mult. change (inject_Z 100) with 100. lra. }
  destruct (Qle_bool 0 (inject_Z z)).
  - apply Hr.
  - rewrite <- inject_Z_opp, Hr, inject_Z_opp. lra.
Qed.

Lemma toFixed2_bounds (x : Q) :
  x - (1 # 200) <= Js.toFixed2 x /\ Js.toFixed2 x <= x + (1 # 200).
Proof.
  pose proof (toFixed2_near x) as H. apply Qabs_Qle_condition in H.
  split; lra.
Qed.

Lemma toFixed2_nonneg (x : Q) : 0 <= x -> 0 <= Js.toFixed2 x.
Proof.
  intros H. pose proof (toFixed2_mono 0 x H) as Hm.
  pose proof (toFixed2_integer 0) as H0. change (inject_Z 0) with 0 in H0. lra.
Qed.

(** A number below 5.005 is shown as 5.00 at most. *)
Lemma toFixed2_five (x : Q) : x <= 5004 # 1000 -> Js.toFixed2 x <= 5.
Proof.
  intros H. pose proof (toFixed2_mono x (5004 # 1000) H) as Hm.
  assert (E : Js.toFixed2 (5004 # 1000) == 5) by reflexivity. lra.
Qed.

Lemma same_value_refl (x : Js.number) : Js.same_value x x.
Proof. destruct x; simpl; reflexivity. Qed.

Lemma toFixed2_number_comp (x y : Js.number) :
  Js.same_value x y ->
  Js.same_value (Js.toFixed2_number x) (Js.toFixed2_number y).
Proof.
  destruct x, y; simpl; try tauto. apply toFixed2_comp.
Qed.

Lemma div_comp (x x' y y' : Q) :
  x == x' -> y == y' -> Js.same_value (Js.div x y) (Js.div x' y').
Proof.
  intros Hx Hy. unfold Js.div.
  assert (Ey : Qeq_bool y 0 = Qeq_bool y' 0) by (rewrite Hy; reflexivity).
  assert (Ex : Qeq_bool x 0 = Qeq_bool x' 0) by (rewrite Hx; reflexivity).
  assert (El : Qle_bool 0 x = Qle_bool 0 x') by (rewrite Hx; reflexivity).
  rewrite Ey, Ex, El.
  destruct (Qeq_bool y' 0) eqn:Y.
  - destruct (Qeq_bool x' 0); simpl; reflexivity.
  - simpl. apply round_comp. rewrite Hx, Hy. reflexivity.
Qed.

(** A division by a number that is not zero gives a double. *)
Lemma div_finite (x y : Q) : ~ y == 0 -> Js.div x y = Js.Fin (Js.round (x / y)).
Proof.
  intros Hy. unfold Js.div.
  destruct (Qeq_bool y 0) eqn:E; [|reflexivity].
  apply Qeq_bool_iff in E. contradiction.
Qed.

(** A division by zero gives no double. *)
Lemma div_zero (x y : Q) (q : Q) : y == 0 -> Js.div x y <> Js.Fin q.
Proof.
  intros Hy. unfold Js.div.
  apply Qeq_bool_iff in Hy. rewrite Hy.
  destruct (Qeq_bool x 0); discriminate.
Qed.

Lemma add_comp (x x' y y' : Q) :
  x == x' -> y == y' -> Js.add x y == Js.add x' y'.
Proof.
  intros Hx Hy. unfold Js.add. apply round_comp. rewrite Hx, Hy. reflexivity.
Qed.

Lemma mul_comp (x x' y y' : Q) :
  x == x' -> y == y' -> Js.mul x y == Js.mul x' y'.
Proof.
  intros Hx Hy. unfold Js.mul. apply round_comp. rewrite Hx, Hy. reflexivity.
Qed.

(** The running sum of a [reduce] is 0 or the result of an addition: it
    is a double. *)
Lemma fold_add_double {A : Type} (f : A -> Q) (xs : list A) (acc : Q) :
  Js.round acc == acc ->
  Js.round (fold_left (fun sum item => Js.add sum (f item)) xs acc) ==
  fold_left (fun sum item => Js.add sum (f item)) xs acc.
Proof.
  revert acc. induction xs as [|x xs IH]; intros acc Ha; cbn [fold_left].
  - exact Ha.
  - apply IH. unfold Js.add. apply round_round.
Qed.

Lemma fold_add_comp {A : Type} (f g : A -> Q) (xs : list A) (acc acc' : Q) :
  (forall x, f x == g x) -> acc == acc' ->
  fold_left (fun sum item => Js.add sum (f item)) xs acc ==
  fold_left (fun sum item => Js.add sum (g item)) xs acc'.
Proof.
  intros Hfg. revert acc acc'.
  induction xs as [|x xs IH]; intros acc acc' Ha; cbn [fold_left].
  - exact Ha.
  - apply IH. apply add_comp; [exact Ha|apply Hfg].
Qed.

Lemma fold_add_app {A : Type} (f : A -> Q) (xs ys : list A) (acc : Q) :
  fold_left (fun sum item => Js.add sum (f item)) (xs ++ ys) acc =
  fold_left (fun sum item => Js.add sum (f item)) ys
            (fold_left (fun sum item => Js.add sum (f item)) xs acc).
Proof. apply fold_left_app. Qed.

(** An element that adds 0 leaves the sum as it is, wherever it stands. *)
Lemma reduce_add_skip {A : Type} (f : A -> Q) (xs ys : list A) (x : A) :
  f x == 0 ->
  Js.reduce_add f (xs ++ x :: ys) == Js.reduce_add f (xs ++ ys).
Proof.
  intros Hx. unfold Js.reduce_add. rewrite !fold_add_app. cbn [fold_left].
  apply fold_add_comp; [intros; reflexivity|].
  unfold Js.add.
  rewrite (round_comp _ (fold_left (fun sum item => Js.round (sum + f item)) xs 0))
    by (rewrite Hx; ring).
  apply (fold_add_double f xs 0). reflexivity.
Qed.

End Numbers.

(** ** The drift of a sum of doubles *)

Section Drift.

Lemma power_pos (x : Q) (k : nat) : 0 < x -> 0 < Spec.power x k.
Proof.
  intros Hx. induction k as [|k IH]; cbn [Spec.power]; [reflexivity|].
  apply Qmult_lt_0_compat; assumption.
Qed.

Lemma power_up (k : nat) : 1 <= Spec.power (1 + Spec.u) k.
Proof.
  induction k as [|k IH]; cbn [Spec.power]; [lra|].
  assert (H : 0 <= Spec.u * Spec.power (1 + Spec.u) k).
  { apply Qmult_le_0_compat; [unfold Spec.u|]; lra. }
  lra.
Qed.

Lemma power_down (k : nat) :
  0 < Spec.power (1 - Spec.u) k /\ Spec.power (1 - Spec.u) k <= 1.
Proof.
  split; [apply power_pos; unfold Spec.u; lra|].
  induction k as [|k IH]; cbn [Spec.power]; [lra|].
  assert (Hp : 0 < Spec.power (1 - Spec.u) k) by (apply power_pos; unfold Spec.u; lra).
  assert (H : 0 <= Spec.u * Spec.power (1 - Spec.u) k).
  { apply Qmult_le_0_compat; [unfold Spec.u|]; lra. }
  lra.
Qed.

(** [(1 + u)^k * (1 - k u) <= 1]. *)
Lemma power_up_bernoulli (k : nat) :
  Spec.power (1 + Spec.u) k * (1 - inject_Z (Z.of_nat k) * Spec.u) <= 1.
Proof.
  induction k as [|k IH].
  - cbn [Spec.power]. change (inject_Z (Z.of_nat 0)) with 0. lra.
  - cbn [Spec.power]. rewrite Nat2Z.inj_succ, <- Z.add_1_r, inject_Z_plus.
    change (inject_Z 1) with 1.
    pose proof (power_up k) as Hp.
    set (P := Spec.power (1 + Spec.u) k) in *.
    assert (Hk : 0 <= inject_Z (Z.of_nat k)).
    { change 0 with (inject_Z 0). rewrite <- Zle_Qle. lia. }
    set (K := inject_Z (Z.of_nat k)) in *.
    assert (H1 : 0 <= P * (K * Spec.u * Spec.u)).
    { apply Qmult_le_0_compat; [lra|].
      apply Qmult_le_0_compat; [|unfold Spec.u; lra].
      apply Qmult_le_0_compat; [exact Hk|unfold Spec.u; lra]. }
    assert (H2 : 0 <= P * (Spec.u * Spec.u)).
    { apply Qmult_le_0_compat; [lra|]. unfold Spec.u. lra. }
    assert (E : (1 + Spec.u) * P * (1 - (K + 1) * Spec.u) ==
                P * (1 - K * Spec.u) - P * (K * Spec.u * Spec.u)
                - P * (Spec.u * Spec.u)) by ring.
    rewrite E. lra.
Qed.

(** For an array, whose length is below [2^32], the drift of [length + 2]
    roundings keeps a number that is at most 5 below 5.004 . *)
Lemma power_up_five (n : nat) (x : Q) :
  Spec.array_length n -> 0 <= x <= 5 ->
  Spec.power (1 + Spec.u) (n + 2) * x <= 5004 # 1000.
Proof.
  unfold Spec.array_length. intros Hn Hx.
  pose proof (power_up_bernoulli (n + 2)) as Hb.
  pose proof (power_up (n + 2)) as Hp.
  set (P := Spec.power (1 + Spec.u) (n + 2)) in *.
  assert (Hk : inject_Z (Z.of_nat (n + 2)) <= 4294967298).
  { change 4294967298 with (inject_Z 4294967298). rewrite <- Zle_Qle. lia. }
  set (K := inject_Z (Z.of_nat (n + 2))) in *.
  assert (H1 : P * (1 - 4294967298 * Spec.u) <= P * (1 - K * Spec.u)).
  { apply Qmult_le_l; [lra|]. unfold Spec.u. lra. }
  assert (H2 : P * x <= P * 5) by (apply Qmult_le_l; lra).
  unfold Spec.u in *. lra.
Qed.

(** One more term and one more rounding. *)
Lemma drift_step (p P a g acc f r : Q) :
  0 < p -> p <= 1 -> 1 <= P -> 0 <= a -> 0 <= g ->
  (1 - Spec.u) * g <= f -> f <= (1 + Spec.u) * g ->
  (1 - Spec.u) * p * a <= acc -> acc <= (1 + Spec.u) * P * a ->
  (1 - Spec.u) * (acc + f) <= r -> r <= (1 + Spec.u) * (acc + f) ->
  (1 - Spec.u) * ((1 - Spec.u) * p) * (a + g) <= r /\
  r <= (1 + Spec.u) * ((1 + Spec.u) * P) * (a + g).
Proof.
  unfold Spec.u. intros Hp0 Hp1 HP Ha Hg Hlo Hhi Hl Hh Rl Rh.
  assert (M1 : 0 <= (1 - p) * g) by (apply Qmult_le_0_compat; lra).
  assert (M2 : 0 <= (P - 1) * g) by (apply Qmult_le_0_compat; lra).
  assert (M3 : 0 <= p * a) by (apply Qmult_le_0_compat; lra).
  assert (M4 : 0 <= P * a) by (apply Qmult_le_0_compat; lra).
  split; lra.
Qed.

(** A sum of doubles, each within one rounding of its exact term, after
    [j + 1] roundings for the sum so far: every further term adds one
    rounding. *)
Lemma fold_add_drift {A : Type} (f g : A -> Q) (xs : list A) :
  Forall (fun x => 0 <= g x /\
                   (1 - Spec.u) * g x <= f x /\ f x <= (1 + Spec.u) * g x) xs ->
  forall (acc a : Q) (j : nat),
    0 <= a ->
    Spec.power (1 - Spec.u) (S j) * a <= acc ->
    acc <= Spec.power (1 + Spec.u) (S j) * a ->
    Spec.power (1 - Spec.u) (S j + List.length xs) * (a + Spec.Qsum (map g xs))
      <= fold_left (fun sum item => Js.add sum (f item)) xs acc /\
    fold_left (fun sum item => Js.add sum (f item)) xs acc
      <= Spec.power (1 + Spec.u) (S j + List.length xs) * (a + Spec.Qsum (map g xs)).
Proof.
  induction 1 as [|x xs [Hg [Hlo Hhi]] _ IH]; intros acc a j Ha Hl Hh.
  - cbn [fold_left map Spec.Qsum List.length]. rewrite Nat.add_0_r. split; lra.
  - cbn [fold_left map Spec.Qsum List.length].
    replace (S j + S (List.length xs))%nat with (S (S j) + List.length xs)%nat by lia.
    pose proof (power_up j) as Pj. pose proof (power_down j) as [pj0 pj1].
    assert (N0 : 0 <= acc + f x).
    { pose proof (power_down (S j)) as [q0 _].
      assert (0 <= Spec.power (1 - Spec.u) (S j) * a)
        by (apply Qmult_le_0_compat; lra).
      assert (0 <= (1 - Spec.u) * g x)
        by (apply Qmult_le_0_compat; [unfold Spec.u|]; lra).
      lra. }
    destruct (round_bounds (acc + f x) N0) as [Rl Rh].
    cbn [Spec.power] in Hl, Hh.
    destruct (drift_step _ _ a (g x) acc (f x) (Js.add acc (f x))
                pj0 pj1 Pj Ha Hg Hlo Hhi Hl Hh Rl Rh) as [Il Ih].
    assert (Ha' : 0 <= a + g x) by lra.
    destruct (IH (Js.add acc (f x)) (a + g x) (S j) Ha' Il Ih) as [Fl Fh].
    assert (Es : a + g x + Spec.Qsum (map g xs) == a + (g x + Spec.Qsum (map g xs)))
      by ring.
    rewrite Es in Fl, Fh. split; assumption.
Qed.

(** The double sum of [n] non-negative terms lies within [n + 1]
    roundings of the exact sum. *)
Lemma reduce_add_drift {A : Type} (f g : A -> Q) (xs : list A) :
  Forall (fun x => 0 <= g x /\
                   (1 - Spec.u) * g x <= f x /\ f x <= (1 + Spec.u) * g x) xs ->
  Spec.power (1 - Spec.u) (S (List.length xs)) * Spec.Qsum (map g xs)
    <= Js.reduce_add f xs /\
  Js.reduce_add f xs
    <= Spec.power (1 + Spec.u) (S (List.length xs)) * Spec.Qsum (map g xs).
Proof.
  intros H. unfold Js.reduce_add.
  destruct (fold_add_drift f g xs H 0 0 0%nat) as [Fl Fh]; try lra.
  cbn [Nat.add] in Fl, Fh.
  assert (E : 0 + Spec.Qsum (map g xs) == Spec.Qsum (map g xs)) by ring.
  rewrite E in Fl, Fh. split; assumption.
Qed.

(** The double quotient of such a sum by an exact positive number lies
    within [n + 2] roundings of the exact quotient. *)
Lemma quotient_drift (w e t : Q) (k : nat) :
  0 < t -> 0 <= e ->
  Spec.power (1 - Spec.u) k * e <= w ->
  w <= Spec.power (1 + Spec.u) k * e ->
  Spec.power (1 - Spec.u) (S k) * (e / t) <= Js.round (w / t) /\
  Js.round (w / t) <= Spec.power (1 + Spec.u) (S k) * (e / t).
Proof.
  intros Ht He Hl Hh.
  pose proof (power_up k) as Pk. pose proof (power_down k) as [pk0 pk1].
  cbn [Spec.power].
  set (P := Spec.power (1 + Spec.u) k) in *.
  set (p := Spec.power (1 - Spec.u) k) in *.
  assert (Hi : 0 < / t) by (apply Qinv_lt_0_compat; exact Ht).
  assert (Hw : 0 <= w).
  { assert (0 <= p * e) by (apply Qmult_le_0_compat; lra). lra. }
  assert (Q0 : 0 <= w / t) by (apply Qmult_le_0_compat; lra).
  destruct (round_bounds (w / t) Q0) as [Rl Rh].
  assert (Ql : p * e * / t <= w * / t) by (apply Qmult_le_compat_r; lra).
  assert (Qh : w * / t <= P * e * / t) by (apply Qmult_le_compat_r; lra).
  assert (U : 0 < Spec.u /\ Spec.u < 1) by (unfold Spec.u; split; reflexivity).
  unfold Qdiv in *.
  assert (Tl : (1 - Spec.u) * (p * e * / t) <= (1 - Spec.u) * (w * / t))
    by (apply Qmult_le_l; lra).
  assert (Th : (1 + Spec.u) * (w * / t) <= (1 + Spec.u) * (P * e * / t))
    by (apply Qmult_le_l; lra).
  assert (E1 : (1 - Spec.u) * p * (e * / t) == (1 - Spec.u) * (p * e * / t)) by ring.
  assert (E2 : (1 + Spec.u) * P * (e * / t) == (1 + Spec.u) * (P * e * / t)) by ring.
  rewrite E1, E2. split; lra.
Qed.

End Drift.

(** ** The summary aggregator *)

Section SummaryFacts.

Import Reviews.

Lemma count_or0 (r : ReviewData) : Js.or0 (count r) == Spec.count_of r.
Proof. apply or0_eq. Qed.

Lemma weight_or0 (r : ReviewData) :
  Js.or0 (rating r) * Js.or0 (count r) == Spec.rating_of r * Spec.count_of r.
Proof.
  unfold Spec.rating_of, Spec.count_of. rewrite !or0_eq. reflexivity.
Qed.

Lemma total_count_nonneg (data : list ReviewData) :
  Spec.counts_nonneg data -> 0 <= Spec.total_count data.
Proof.
  intros H. apply Qsum_nonneg. apply Forall_map. exact H.
Qed.

Lemma summary_totalReviews (data : list ReviewData) :
  totalReviews (summary data) == Spec.total_count data.
Proof.
  destruct data as [|r data]; [reflexivity|].
  unfold summary. cbn [List.length Nat.eqb totalReviews].
  apply reduce_sum_Qsum, count_or0.
Qed.

Lemma summary_sourceCount (data : list ReviewData) :
  sourceCount (summary data) = List.length data.
Proof. destruct data; reflexivity. Qed.

(** The average of the summary is a number: the guarded quotient, rounded
    to two decimals. *)
Lemma summary_avgRating (data : list ReviewData) :
  exists q, avgRating (summary data) = Js.Fin q /\
            q == Js.toFixed2 (quotient data).
Proof.
  destruct data as [|r data]; [exists 0; split; reflexivity|].
  unfold summary, quotient. cbn [List.length Nat.eqb avgRating].
  set (d := r :: data).
  pose proof (reduce_sum_Qsum _ _ d count_or0) as Hc.
  fold (Spec.total_count d) in Hc.
  rewrite (gt_comp _ (Spec.total_count d) 0 0 Hc (Qeq_refl 0)).
  destruct (Js.gt (Spec.total_count d) 0) eqn:G.
  - apply gt_iff in G. rewrite div_finite by lra.
    cbn [Js.toFixed2_number]. eexists. split; [reflexivity|].
    apply toFixed2_comp, round_comp. rewrite Hc. reflexivity.
  - cbn [Js.toFixed2_number]. eexists. split; reflexivity.
Qed.

Lemma weight_nonneg (r : ReviewData) :
  0 <= Spec.count_of r -> (0 < Spec.count_of r -> 0 <= Spec.rating_of r) ->
  0 <= Spec.rating_of r * Spec.count_of r.
Proof.
  intros Hc Hr. destruct (Qlt_le_dec 0 (Spec.count_of r)) as [Hpos|Hz].
  - apply Qmult_le_0_compat; [apply Hr, Hpos|exact Hc].
  - assert (E : Spec.count_of r == 0) by lra. rewrite E. lra.
Qed.

(** The weighted total of the code lies within [n + 1] roundings of the
    exact weighted total. *)
Lemma weighted_drift (data : list ReviewData) :
  Spec.counts_nonneg data -> Spec.ratings_nonneg data ->
  Spec.power (1 - Spec.u) (S (List.length data)) * Spec.total_weighted data
    <= weightedTotalRating data /\
  weightedTotalRating data
    <= Spec.power (1 + Spec.u) (S (List.length data)) * Spec.total_weighted data.
Proof.
  intros Hc Hr. unfold weightedTotalRating, Spec.total_weighted.
  apply reduce_add_drift.
  unfold Spec.counts_nonneg, Spec.ratings_nonneg in *.
  rewrite Forall_forall in *. intros r Hin.
  pose proof (weight_nonneg r (Hc r Hin) (Hr r Hin)) as Hg.
  split; [exact Hg|].
  unfold Js.mul. rewrite (round_comp _ _ (weight_or0 r)).
  apply round_bounds, Hg.
Qed.

Lemma total_weighted_nonneg (data : list ReviewData) :
  Spec.counts_nonneg data -> Spec.ratings_nonneg data ->
  0 <= Spec.total_weighted data.
Proof.
  intros Hc Hr. apply Qsum_nonneg. apply Forall_map.
  unfold Spec.counts_nonneg, Spec.ratings_nonneg in *.
  rewrite Forall_forall in *. intros r Hin.
  apply weight_nonneg; [apply Hc, Hin|apply Hr, Hin].
Qed.

Lemma weighted_mean_zero (data : list ReviewData) :
  Spec.total_count data == 0 -> Spec.weighted_mean data = 0.
Proof.
  intros H. unfold Spec.weighted_mean. apply Qeq_bool_iff in H. rewrite H.
  reflexivity.
Qed.

Lemma weighted_mean_pos (data : list ReviewData) :
  0 < Spec.total_count data ->
  Spec.weighted_mean data == Spec.total_weighted data / Spec.total_count data.
Proof.
  intros Hpos. unfold Spec.weighted_mean.
  destruct (Qeq_bool (Spec.total_count data) 0) eqn:E; [|reflexivity].
  apply Qeq_bool_iff in E. lra.
Qed.

(** The quotient lies within [n + 2] roundings of the exact weighted
    mean. *)
Lemma quotient_bounds (data : list ReviewData) :
  Spec.counts_nonneg data -> Spec.ratings_nonneg data ->
  Spec.power (1 - Spec.u) (List.length data + 2) * Spec.weighted_mean data
    <= quotient data /\
  quotient data
    <= Spec.power (1 + Spec.u) (List.length data + 2) * Spec.weighted_mean data.
Proof.
  intros Hc Hr. unfold quotient.
  destruct (Js.gt (Spec.total_count data) 0) eqn:G.
  - apply gt_iff in G. rewrite (weighted_mean_pos data G).
    replace (List.length data + 2)%nat with (S (S (List.length data))) by lia.
    destruct (weighted_drift data Hc Hr) as [Wl Wh].
    apply quotient_drift; try assumption.
    apply total_weighted_nonneg; assumption.
  - apply gt_false_iff in G. pose proof (total_count_nonneg data Hc) as Hn.
    assert (E : Spec.total_count data == 0) by lra.
    rewrite (weighted_mean_zero data E). split; lra.
Qed.

Lemma quotient_nonneg (data : list ReviewData) :
  Spec.counts_nonneg data -> Spec.ratings_nonneg data -> 0 <= quotient data.
Proof.
  intros Hc Hr. unfold quotient.
  destruct (Js.gt (Spec.total_count data) 0) eqn:G; [|lra].
  apply gt_iff in G. apply round_nonneg.
  destruct (weighted_drift data Hc Hr) as [Wl _].
  pose proof (total_weighted_nonneg data Hc Hr) as He.
  pose proof (power_down (S (List.length data))) as [p0 _].
  assert (0 <= Spec.power (1 - Spec.u) (S (List.length data)) * Spec.total_weighted data)
    by (apply Qmult_le_0_compat; lra).
  apply Qle_shift_div_l; [exact G|]. lra.
Qed.

(** The average shown has two decimals and lies within 0.005 and
    [n + 2] roundings of the exact weighted mean. *)
Lemma avgRating_drift (data : list ReviewData) :
  Spec.counts_nonneg data -> Spec.ratings_nonneg data ->
  exists q,
    avgRating (summary data) = Js.Fin q /\
    Spec.two_decimals q /\
    Spec.power (1 - Spec.u) (List.length data + 2) * Spec.weighted_mean data
      - (1 # 200) <= q /\
    q <= Spec.power (1 + Spec.u) (List.length data + 2) * Spec.weighted_mean data
         + (1 # 200).
Proof.
  intros Hc Hr. destruct (summary_avgRating data) as [q [Eq Hq]].
  exists q. split; [exact Eq|]. split.
  - destruct (toFixed2_grid (quotient data)) as [n Hn].
    exists n. rewrite Hq. exact Hn.
  - destruct (quotient_bounds data Hc Hr) as [Ql Qh].
    destruct (toFixed2_bounds (quotient data)) as [Tl Th].
    rewrite Hq. split; lra.
Qed.

End SummaryFacts.
(** ** Boundedness of the weighted mean *)

Section Boundedness.

Import Reviews.

Lemma fold_min_le (x : Q) (xs : list Q) (y : Q) :
  In y (x :: xs) -> fold_right Qmin x xs <= y.
Proof.
  induction xs as [|z xs IH]; cbn [fold_right]; intros Hin.
  - destruct Hin as [->|[]]. apply Qle_refl.
  - destruct Hin as [->|[->|Hin]].
    + eapply Qle_trans; [apply Q.le_min_r|]. apply IH. now left.
    + apply Q.le_min_l.
    + eapply Qle_trans; [apply Q.le_min_r|]. apply IH. now right.
Qed.

Lemma fold_max_ge (x : Q) (xs : list Q) (y : Q) :
  In y (x :: xs) -> y <= fold_right Qmax x xs.
Proof.
  induction xs as [|z xs IH]; cbn [fold_right]; intros Hin.
  - destruct Hin as [->|[]]. apply Qle_refl.
  - destruct Hin as [->|[->|Hin]].
    + eapply Qle_trans; [|apply Q.le_max_r]. apply IH. now left.
    + apply Q.le_max_l.
    + eapply Qle_trans; [|apply Q.le_max_r]. apply IH. now right.
Qed.

Lemma In_weighted (data : list ReviewData) (r : ReviewData) :
  In r data -> 0 < Spec.count_of r -> In r (Spec.weighted data).
Proof.
  intros Hin Hpos. apply filter_In. split; [exact Hin|].
  apply gt_iff, Hpos.
Qed.

Lemma min_rating_le (data : list ReviewData) (lo : Q) (r : ReviewData) :
  Spec.min_rating data = Some lo ->
  In r data -> 0 < Spec.count_of r -> lo <= Spec.rating_of r.
Proof.
  unfold Spec.min_rating. intros Hmin Hin Hpos.
  pose proof (in_map Spec.rating_of _ _ (In_weighted data r Hin Hpos)) as Hm.
  destruct (map Spec.rating_of (Spec.weighted data)) as [|x xs]; [discriminate|].
  injection Hmin as <-. apply fold_min_le, Hm.
Qed.

Lemma max_rating_ge (data : list ReviewData) (hi : Q) (r : ReviewData) :
  Spec.max_rating data = Some hi ->
  In r data -> 0 < Spec.count_of r -> Spec.rating_of r <= hi.
Proof.
  unfold Spec.max_rating. intros Hmax Hin Hpos.
  pose proof (in_map Spec.rating_of _ _ (In_weighted data r Hin Hpos)) as Hm.
  destruct (map Spec.rating_of (Spec.weighted data)) as [|x xs]; [discriminate|].
  injection Hmax as <-. apply fold_max_ge, Hm.
Qed.

Lemma weighted_nonempty (data : list ReviewData) :
  Exists (fun r => 0 < Spec.count_of r) data ->
  exists lo hi, Spec.min_rating data = Some lo /\ Spec.max_rating data = Some hi.
Proof.
  intros H. apply Exists_exists in H. destruct H as [r [Hin Hpos]].
  pose proof (in_map Spec.rating_of _ _ (In_weighted data r Hin Hpos)) as Hm.
  unfold Spec.min_rating, Spec.max_rating.
  destruct (map Spec.rating_of (Spec.weighted data)) as [|x xs]; [destruct Hm|].
  eauto.
Qed.

Lemma total_count_pos (data : list ReviewData) :
  Spec.counts_nonneg data ->
  Exists (fun r => 0 < Spec.count_of r) data ->
  0 < Spec.total_count data.
Proof.
  unfold Spec.total_count.
  induction 1 as [|r data Hr Hall IH]; intros Hex.
  - inversion Hex.
  - cbn [map Spec.Qsum].
    pose proof (Qsum_nonneg (map Spec.count_of data)
                  (proj2 (Forall_map _ _ _) Hall)) as Hrest.
    inversion Hex as [? ? Hpos|? ? Hex']; subst.
    + lra.
    + specialize (IH Hex'). lra.
Qed.

(** Every weighted term is at least [lo] times its weight, so the
    weighted total is at least [lo] times the total weight. *)
Lemma total_weighted_lower (data : list ReviewData) (lo : Q) :
  Spec.counts_nonneg data ->
  (forall r, In r data -> 0 < Spec.count_of r -> lo <= Spec.rating_of r) ->
  lo * Spec.total_count data <= Spec.total_weighted data.
Proof.
  unfold Spec.total_count, Spec.total_weighted.
  induction 1 as [|r data Hr Hall IH]; intros Hlo; cbn [map Spec.Qsum].
  - lra.
  - assert (Hterm : lo * Spec.count_of r <= Spec.rating_of r * Spec.count_of r).
    { destruct (Qlt_le_dec 0 (Spec.count_of r)) as [Hpos|Hz].
      - apply Qmult_le_compat_r; [|exact Hr]. apply Hlo; [now left|exact Hpos].
      - assert (E : Spec.count_of r == 0) by lra. rewrite E. lra. }
    assert (Hrest := IH (fun r' Hin => Hlo r' (or_intror Hin))).
    lra.
Qed.

Lemma total_weighted_upper (data : list ReviewData) (hi : Q) :
  Spec.counts_nonneg data ->
  (forall r, In r data -> 0 < Spec.count_of r -> Spec.rating_of r <= hi) ->
  Spec.total_weighted data <= hi * Spec.total_count data.
Proof.
  unfold Spec.total_count, Spec.total_weighted.
  induction 1 as [|r data Hr Hall IH]; intros Hhi; cbn [map Spec.Qsum].
  - lra.
  - assert (Hterm : Spec.rating_of r * Spec.count_of r <= hi * Spec.count_of r).
    { destruct (Qlt_le_dec 0 (Spec.count_of r)) as [Hpos|Hz].
      - apply Qmult_le_compat_r; [|exact Hr]. apply Hhi; [now left|exact Hpos].
      - assert (E : Spec.count_of r == 0) by lra. rewrite E. lra. }
    assert (Hrest := IH (fun r' Hin => Hhi r' (or_intror Hin))).
    lra.
Qed.

Lemma weighted_mean_bounds (data : list ReviewData) (lo hi : Q) :
  Spec.counts_nonneg data ->
  Exists (fun r => 0 < Spec.count_of r) data ->
  (forall r, In r data -> 0 < Spec.count_of r ->
             lo <= Spec.rating_of r <= hi) ->
  lo <= Spec.weighted_mean data <= hi.
Proof.
  intros Hnn Hex Hb.
  pose proof (total_count_pos data Hnn Hex) as Hpos.
  rewrite (weighted_mean_pos data Hpos). split.
  - apply Qle_shift_div_l; [exact Hpos|].
    apply total_weighted_lower; [exact Hnn|]. intros r Hin Hr. apply Hb; assumption.
  - apply Qle_shift_div_r; [exact Hpos|].
    apply total_weighted_upper; [exact Hnn|]. intros r Hin Hr. apply Hb; assumption.
Qed.

End Boundedness.

(** ** The distribution combiner *)

Section Combiner.

Import Reviews.

Lemma hasOwnProperty_add_to (o : object) (key : string) (v : Q) (k : string) :
  hasOwnProperty (add_to o key v) k = hasOwnProperty o k.
Proof.
  induction o as [|[k0 x] o IH]; cbn [add_to hasOwnProperty]; [reflexivity|].
  destruct (String.eqb k0 key); cbn [hasOwnProperty]; [reflexivity|].
  rewrite IH. reflexivity.
Qed.

Lemma get_add_to (o : object) (key : string) (v : Q) (k : string) :
  get (add_to o key v) k ==
  get o k + (if hasOwnProperty o k && String.eqb key k then v else 0).
Proof.
  induction o as [|[k0 x] o IH]; cbn [add_to get hasOwnProperty].
  - cbn [andb]. lra.
  - destruct (String.eqb_spec k0 key) as [->|Hkey]; cbn [get].
    + destruct (String.eqb_spec key k) as [->|Hk]; cbn [orb andb].
      * lra.
      * rewrite andb_false_r. lra.
    + destruct (String.eqb_spec k0 k) as [->|Hk]; cbn [orb andb].
      * destruct (String.eqb_spec key k) as [->|_]; [congruence|lra].
      * exact IH.
Qed.

Lemma hasOwnProperty_add_entry (o : object) (e : string * Q) (k : string) :
  hasOwnProperty (add_entry o e) k = hasOwnProperty o k.
Proof.
  destruct e as [rating count]. unfold add_entry.
  destruct (hasOwnProperty o (Js.charAt0 rating)); [|reflexivity].
  apply hasOwnProperty_add_to.
Qed.

Lemma get_add_entry (o : object) (e : string * Q) (k : string) :
  hasOwnProperty o k = true ->
  get (add_entry o e) k ==
  get o k + (if Spec.key_starts_with k e then snd e else 0).
Proof.
  intros Hk. destruct e as [rating count].
  unfold add_entry, Spec.key_starts_with. cbn [fst snd].
  destruct (hasOwnProperty o (Js.charAt0 rating)) eqn:Hown.
  - rewrite get_add_to, Hk. cbn [andb]. reflexivity.
  - destruct (String.eqb_spec (Js.charAt0 rating) k) as [E|_]; [|lra].
    rewrite E in Hown. congruence.
Qed.

Lemma hasOwnProperty_entries (es : list (string * Q)) (o : object) (k : string) :
  hasOwnProperty (fold_left add_entry es o) k = hasOwnProperty o k.
Proof.
  revert o. induction es as [|e es IH]; intros o; cbn [fold_left]; [reflexivity|].
  rewrite IH. apply hasOwnProperty_add_entry.
Qed.

Lemma get_entries (es : list (string * Q)) (o : object) (k : string) :
  hasOwnProperty o k = true ->
  get (fold_left add_entry es o) k ==
  get o k + Spec.Qsum (map snd (List.filter (Spec.key_starts_with k) es)).
Proof.
  revert o. induction es as [|e es IH]; intros o Hk;
    cbn [fold_left List.filter map Spec.Qsum].
  - lra.
  - rewrite IH by (rewrite hasOwnProperty_add_entry; exact Hk).
    rewrite (get_add_entry o e k Hk).
    destruct (Spec.key_starts_with k e); cbn [map Spec.Qsum]; lra.
Qed.

Lemma hasOwnProperty_add_source (o : object) (r : ReviewData) (k : string) :
  hasOwnProperty (add_source o r) k = hasOwnProperty o k.
Proof.
  unfold add_source. destruct (distribution r); [|reflexivity].
  apply hasOwnProperty_entries.
Qed.

Lemma get_add_source (o : object) (r : ReviewData) (k : string) :
  hasOwnProperty o k = true ->
  get (add_source o r) k ==
  get o k +
  Spec.Qsum (map snd (List.filter (Spec.key_starts_with k) (Spec.entries_of r))).
Proof.
  intros Hk. unfold add_source, Spec.entries_of.
  destruct (distribution r) as [es|].
  - apply get_entries, Hk.
  - cbn [List.filter map Spec.Qsum]. lra.
Qed.

Lemma get_sources (data : list ReviewData) (o : object) (k : string) :
  hasOwnProperty o k = true ->
  get (fold_left add_source data o) k ==
  get o k + Spec.sum_where (Spec.key_starts_with k) data.
Proof.
  unfold Spec.sum_where.
  revert o. induction data as [|r data IH]; intros o Hk;
    cbn [fold_left map Spec.Qsum].
  - lra.
  - rewrite IH by (rewrite hasOwnProperty_add_source; exact Hk).
    rewrite (get_add_source o r k Hk). lra.
Qed.

(** Each count of the output is the total of the pairs whose key starts
    with that star's character. *)
Lemma ratingDistributionData_counts (data : list ReviewData) :
  Spec.same_histogram
    (ratingDistributionData data)
    (Spec.five_entries (fun star => Spec.sum_where (Spec.key_starts_with star) data)).
Proof.
  unfold ratingDistributionData, Spec.five_entries, Spec.same_histogram.
  repeat (constructor; [split; [reflexivity|]; cbn [snd];
                        rewrite get_sources by reflexivity;
                        cbn [combined0 get String.eqb Ascii.eqb Bool.eqb]; lra|]).
  constructor.
Qed.

Lemma Qsum_perm (xs ys : list Q) :
  Permutation xs ys -> Spec.Qsum xs == Spec.Qsum ys.
Proof.
  induction 1 as [|x xs ys _ IH|x y xs|xs ys zs _ IH1 _ IH2]; cbn [Spec.Qsum].
  - reflexivity.
  - rewrite IH. reflexivity.
  - lra.
  - rewrite IH1. exact IH2.
Qed.

Lemma sum_where_perm (p : string * Q -> bool) (data data' : list ReviewData) :
  Permutation data data' -> Spec.sum_where p data == Spec.sum_where p data'.
Proof.
  intros H. unfold Spec.sum_where. apply Qsum_perm, Permutation_map, H.
Qed.

Lemma same_histogram_sym (xs ys : list (Z * Q)) :
  Spec.same_histogram xs ys -> Spec.same_histogram ys xs.
Proof.
  induction 1 as [|x y xs ys [H1 H2] _ IH]; constructor; [|exact IH].
  split; [congruence|symmetry; exact H2].
Qed.

Lemma same_histogram_trans (xs ys zs : list (Z * Q)) :
  Spec.same_histogram xs ys -> Spec.same_histogram ys zs ->
  Spec.same_histogram xs zs.
Proof.
  intros H. revert zs.
  induction H as [|x y xs ys [H1 H2] _ IH]; intros zs Hz; inversion Hz; subst.
  - constructor.
  - constructor; [|apply IH; assumption].
    match goal with Hxy : _ /\ _ |- _ => destruct Hxy as [H3 H4] end.
    split; [congruence|]. rewrite H2. exact H4.
Qed.

Lemma same_histogram_Qsum (xs ys : list (Z * Q)) :
  Spec.same_histogram xs ys ->
  Spec.Qsum (map snd xs) == Spec.Qsum (map snd ys).
Proof.
  induction 1 as [|x y xs ys [_ H2] _ IH]; cbn [map Spec.Qsum].
  - reflexivity.
  - rewrite H2, IH. reflexivity.
Qed.

(** A key starts with at most one of the five characters. *)
Lemma star_split (e : string * Q) :
  (if Spec.key_starts_with "5" e then snd e else 0) +
  ((if Spec.key_starts_with "4" e then snd e else 0) +
   ((if Spec.key_starts_with "3" e then snd e else 0) +
    ((if Spec.key_starts_with "2" e then snd e else 0) +
     ((if Spec.key_starts_with "1" e then snd e else 0) + 0)))) ==
  (if Spec.key_starts_with_bucket e then snd e else 0).
Proof.
  unfold Spec.key_starts_with_bucket, Spec.key_starts_with. cbn [existsb].
  destruct (String.eqb_spec (Js.charAt0 (fst e)) "5") as [E5|_];
  destruct (String.eqb_spec (Js.charAt0 (fst e)) "4") as [E4|_];
  destruct (String.eqb_spec (Js.charAt0 (fst e)) "3") as [E3|_];
  destruct (String.eqb_spec (Js.charAt0 (fst e)) "2") as [E2|_];
  destruct (String.eqb_spec (Js.charAt0 (fst e)) "1") as [E1|_];
  cbn [orb]; try lra; congruence.
Qed.

Lemma entries_split (es : list (string * Q)) :
  Spec.Qsum (map snd (List.filter (Spec.key_starts_with "5") es)) +
  (Spec.Qsum (map snd (List.filter (Spec.key_starts_with "4") es)) +
   (Spec.Qsum (map snd (List.filter (Spec.key_starts_with "3") es)) +
    (Spec.Qsum (map snd (List.filter (Spec.key_starts_with "2") es)) +
     (Spec.Qsum (map snd (List.filter (Spec.key_starts_with "1") es)) + 0)))) ==
  Spec.Qsum (map snd (List.filter Spec.key_starts_with_bucket es)).
Proof.
  induction es as [|e es IH]; cbn [List.filter map Spec.Qsum]; [lra|].
  pose proof (star_split e) as He.
  destruct (Spec.key_starts_with "5" e), (Spec.key_starts_with "4" e),
           (Spec.key_starts_with "3" e), (Spec.key_starts_with "2" e),
           (Spec.key_starts_with "1" e), (Spec.key_starts_with_bucket e);
    cbn [map Spec.Qsum]; lra.
Qed.

Lemma sum_where_split (data : list ReviewData) :
  Spec.Qsum (map snd (Spec.five_entries
                        (fun star => Spec.sum_where (Spec.key_starts_with star) data))) ==
  Spec.sum_where Spec.key_starts_with_bucket data.
Proof.
  unfold Spec.five_entries, Spec.sum_where. cbn [map snd Spec.Qsum].
  induction data as [|r data IH]; cbn [map Spec.Qsum]; [lra|].
  pose proof (entries_split (Spec.entries_of r)) as Hr. lra.
Qed.

End Combiner.

(** ** Strings: [includes] and [toLowerCase] *)

Section Strings.

Open Scope string_scope.

Lemma string_app_nil_r (s : string) : s ++ "" = s.
Proof. induction s as [|c s IH]; cbn; [reflexivity|]. now rewrite IH. Qed.

Lemma string_app_assoc (a b c : string) : (a ++ b) ++ c = a ++ b ++ c.
Proof. induction a as [|x a IH]; cbn; [reflexivity|]. now rewrite IH. Qed.

Lemma startsWith_iff (q s : string) :
  Js.startsWith s q = true <-> exists post, s = q ++ post.
Proof.
  revert s. induction q as [|a q IH]; intros s.
  - destruct s; cbn; split; intros _; eauto.
  - destruct s as [|b s]; cbn.
    + split; [discriminate|]. intros [post H]. discriminate.
    + rewrite andb_true_iff, IH. split.
      * intros [Hab [post ->]]. apply Ascii.eqb_eq in Hab. subst. eauto.
      * intros [post H]. injection H as -> ->. split; [apply Ascii.eqb_refl|eauto].
Qed.

Lemma includes_unfold (s q : string) :
  Js.includes s q =
  Js.startsWith s q ||
  match s with EmptyString => false | String _ s' => Js.includes s' q end.
Proof. destruct s; reflexivity. Qed.

Lemma includes_iff (s q : string) :
  Js.includes s q = true <-> exists pre post, s = pre ++ q ++ post.
Proof.
  induction s as [|c s IH]; rewrite includes_unfold, orb_true_iff.
  - split.
    + intros [H|H]; [|discriminate].
      apply startsWith_iff in H. destruct H as [post ->]. now exists "", post.
    + intros [pre [post H]]. left. apply startsWith_iff.
      destruct pre; [|discriminate]. now exists post.
  - split.
    + intros [H|H].
      * apply startsWith_iff in H. destruct H as [post ->]. now exists "", post.
      * apply IH in H. destruct H as [pre [post ->]]. now exists (String c pre), post.
    + intros [pre [post H]]. destruct pre as [|x pre].
      * left. apply startsWith_iff. now exists post.
      * right. apply IH. injection H as -> ->. now exists pre, post.
Qed.

Lemma includes_empty (s : string) : Js.includes s "" = true.
Proof. apply includes_iff. now exists "", s. Qed.

Lemma toLowerCase_nil {E : Js.Engine} : Js.toLowerCase "" = "".
Proof. apply Js.toLowerCase_empty. reflexivity. Qed.

(** The test both filters make is containment with letter case ignored. *)
Lemma includes_lower_iff {E : Js.Engine} (text query : string) :
  Js.includes (Js.toLowerCase text) (Js.toLowerCase query) = true <->
  Spec.contains_ignoring_case text query.
Proof. apply includes_iff. Qed.

Lemma includes_lower_empty {E : Js.Engine} (text : string) :
  Js.includes (Js.toLowerCase text) (Js.toLowerCase "") = true.
Proof. rewrite toLowerCase_nil. apply includes_empty. Qed.

End Strings.

(** ** The filter projectors *)

Section Filters.

Context {A : Type}.

Lemma filter_pure (p : A -> Js.completion bool) (f : A -> bool) (xs : list A) :
  Forall (fun x => p x = Js.Normal (f x)) xs ->
  Js.filter p xs = Js.Normal (List.filter f xs).
Proof.
  induction 1 as [|x xs Hx _ IH]; cbn [Js.filter List.filter]; [reflexivity|].
  rewrite Hx, IH. reflexivity.
Qed.

Lemma filter_idempotent (p : A -> Js.completion bool) (xs out : list A) :
  Js.filter p xs = Js.Normal out -> Js.filter p out = Js.Normal out.
Proof.
  revert out. induction xs as [|x xs IH]; intros out; cbn [Js.filter].
  - intros H. injection H as <-. reflexivity.
  - destruct (p x) as [keep|e] eqn:Hp; cbn [Js.bind]; [|discriminate].
    destruct (Js.filter p xs) as [rest|e] eqn:Hf; cbn [Js.bind]; [|discriminate].
    intros H. injection H as <-. specialize (IH rest eq_refl).
    destruct keep; [|exact IH].
    cbn [Js.filter]. rewrite Hp, IH. reflexivity.
Qed.

Lemma filter_all (f : A -> bool) (xs : list A) :
  Forall (fun x => f x = true) xs -> List.filter f xs = xs.
Proof.
  induction 1 as [|x xs Hx _ IH]; cbn [List.filter]; [reflexivity|].
  rewrite Hx, IH. reflexivity.
Qed.

Lemma filter_subsequence (f : A -> bool) (xs : list A) :
  Spec.subsequence (List.filter f xs) xs.
Proof.
  induction xs as [|x xs IH]; cbn [List.filter]; [constructor|].
  destruct (f x); constructor; exact IH.
Qed.

End Filters.

Section FilterFacts.

Import Reviews.

Lemma field_matches_iff {E : Js.Engine} (query : string) (field : option string) :
  Spec.field_matches query field = true <->
  exists s, field = Some s /\ Spec.contains_ignoring_case s query.
Proof.
  unfold Spec.field_matches. destruct field as [s|].
  - rewrite includes_lower_iff. split.
    + intros H. now exists s.
    + intros [s' [E' H]]. now injection E' as <-.
  - split; [discriminate|]. intros [s' [E' _]]. discriminate.
Qed.

Lemma keeps_review_iff {E : Js.Engine} (query : string) (r : ReviewData) :
  Spec.keeps_review query r = true <-> Spec.selects_review query r.
Proof. apply field_matches_iff. Qed.

Lemma keeps_business_iff {E : Js.Engine} (query : string) (b : Listing.Business) :
  Spec.keeps_business query b = true <-> Spec.selects_business query b.
Proof.
  unfold Spec.keeps_business, Spec.selects_business.
  rewrite orb_true_iff, !field_matches_iff. reflexivity.
Qed.

Lemma filteredReviews_empty {E : Js.Engine} (data : list ReviewData) :
  filteredReviews "" data = Js.Normal data.
Proof. reflexivity. Qed.

Lemma filteredData_empty {E : Js.Engine} (data : list Listing.Business) :
  Listing.filteredData "" data = Js.Normal data.
Proof. reflexivity. Qed.

Lemma filteredReviews_filter {E : Js.Engine} (query : string)
      (data : list ReviewData) :
  Spec.sources_present data ->
  filteredReviews query data = Js.Normal (List.filter (Spec.keeps_review query) data).
Proof.
  intros Hs. unfold filteredReviews. destruct query as [|c q]; cbn [Js.not_].
  - rewrite filter_all; [reflexivity|].
    eapply Forall_impl; [|exact Hs]. intros r Hr. cbv beta in Hr.
    unfold Spec.keeps_review, Spec.field_matches. destruct (source r); [|congruence].
    apply includes_lower_empty.
  - apply filter_pure.
    eapply Forall_impl; [|exact Hs]. intros r Hr. cbv beta in Hr.
    unfold Spec.keeps_review, Spec.field_matches.
    destruct (source r); [reflexivity|congruence].
Qed.

Lemma filteredData_filter {E : Js.Engine} (query : string)
      (data : list Listing.Business) :
  Spec.names_present data ->
  Listing.filteredData query data =
  Js.Normal (List.filter (Spec.keeps_business query) data).
Proof.
  intros Hs. unfold Listing.filteredData. destruct query as [|c q]; cbn [Js.not_].
  - rewrite filter_all; [reflexivity|].
    eapply Forall_impl; [|exact Hs]. intros b [Hn _].
    unfold Spec.keeps_business, Spec.field_matches.
    destruct (Listing.name b); [|congruence].
    rewrite includes_lower_empty. reflexivity.
  - apply filter_pure.
    eapply Forall_impl; [|exact Hs]. intros b [Hn Hc].
    unfold Spec.keeps_business, Spec.field_matches.
    destruct (Listing.name b) as [n|]; [|congruence].
    destruct (Listing.category b) as [k|]; [|congruence].
    cbn [Js.receiver Js.bind].
    destruct (Js.includes (Js.toLowerCase n) _); reflexivity.
Qed.

Lemma filteredReviews_idempotent {E : Js.Engine} (query : string)
      (data out : list ReviewData) :
  filteredReviews query data = Js.Normal out ->
  filteredReviews query out = Js.Normal out.
Proof.
  unfold filteredReviews. destruct (Js.not_ query); [reflexivity|].
  apply filter_idempotent.
Qed.

Lemma filteredData_idempotent {E : Js.Engine} (query : string)
      (data out : list Listing.Business) :
  Listing.filteredData query data = Js.Normal out ->
  Listing.filteredData query out = Js.Normal out.
Proof.
  unfold Listing.filteredData. destruct (Js.not_ query); [reflexivity|].
  apply filter_idempotent.
Qed.

End FilterFacts.

(** ** The business listing: average and histogram *)

Section ListingFacts.

Import Listing.

Lemma length_pos (data : list Business) :
  data <> [] -> 0 < inject_Z (Z.of_nat (List.length data)).
Proof.
  intros H. destruct data as [|b data]; [congruence|].
  change 0 with (inject_Z 0). rewrite <- Zlt_Qlt. cbn [List.length]. lia.
Qed.

(** On a batch that is not empty the average is a number: the double
    quotient of the double sum by the length, rounded to two decimals. *)
Lemma averageRating_value (data : list Business) :
  data <> [] ->
  averageRating data =
  Js.Fin (Js.toFixed2
            (Js.round (total data / inject_Z (Z.of_nat (List.length data))))).
Proof.
  intros Hne. pose proof (length_pos data Hne) as Hn.
  unfold averageRating. destruct data as [|b data]; [congruence|].
  cbn [Nat.eqb List.length] in *. rewrite div_finite by lra. reflexivity.
Qed.

(** The sum of ratings of the code lies within [n + 1] roundings of the
    exact sum. *)
Lemma total_drift (data : list Business) :
  (forall b, In b data -> 0 <= Spec.number_of (rating b)) ->
  Spec.power (1 - Spec.u) (S (List.length data))
    * Spec.Qsum (map (fun b => Spec.number_of (rating b)) data) <= total data /\
  total data <= Spec.power (1 + Spec.u) (S (List.length data))
    * Spec.Qsum (map (fun b => Spec.number_of (rating b)) data).
Proof.
  intros H. unfold total.
  apply (reduce_add_drift _ (fun b => Spec.number_of (rating b))).
  rewrite Forall_forall. intros b Hin. specialize (H b Hin).
  split; [exact H|].
  pose proof (or0_eq (rating b)) as E. fold (Spec.number_of (rating b)) in E.
  rewrite E.
  assert (0 <= Spec.u * Spec.number_of (rating b))
    by (apply Qmult_le_0_compat; [unfold Spec.u|]; lra).
  split; lra.
Qed.

Lemma rating_sum_nonneg (data : list Business) :
  (forall b, In b data -> 0 <= Spec.number_of (rating b)) ->
  0 <= Spec.Qsum (map (fun b => Spec.number_of (rating b)) data).
Proof.
  intros H. apply Qsum_nonneg, Forall_map, Forall_forall. exact H.
Qed.

(** The average shown has two decimals and lies within 0.005 and
    [n + 2] roundings of the exact simple mean. *)
Lemma averageRating_drift (data : list Business) :
  data <> [] ->
  (forall b, In b data -> 0 <= Spec.number_of (rating b)) ->
  exists q,
    averageRating data = Js.Fin q /\
    Spec.two_decimals q /\
    Spec.power (1 - Spec.u) (List.length data + 2) * Spec.simple_mean data
      - (1 # 200) <= q /\
    q <= Spec.power (1 + Spec.u) (List.length data + 2) * Spec.simple_mean data
         + (1 # 200).
Proof.
  intros Hne H. eexists. split; [apply averageRating_value, Hne|]. split.
  - apply toFixed2_grid.
  - destruct (total_drift data H) as [Tl Th].
    pose proof (rating_sum_nonneg data H) as Hs.
    replace (List.length data + 2)%nat with (S (S (List.length data))) by lia.
    destruct (quotient_drift (total data) _ _ _ (length_pos data Hne) Hs Tl Th)
      as [Ql Qh].
    fold (Spec.simple_mean data) in Ql, Qh.
    destruct (toFixed2_bounds
                (Js.round (total data / inject_Z (Z.of_nat (List.length data)))))
      as [Fl Fh].
    split; lra.
Qed.

(** The sum of ratings and the average depend on the ratings only. *)
Lemma total_ratings_only (data data' : list Business) :
  map rating data' = map rating data -> total data' = total data.
Proof.
  unfold total, Js.reduce_add. generalize 0.
  revert data'. induction data as [|b data IH]; intros [|b' data'] acc H;
    try discriminate H; [reflexivity|].
  cbn [map] in H. injection H as Hb Hrest.
  cbn [fold_left]. rewrite Hb. apply IH, Hrest.
Qed.

Lemma averageRating_ratings_only (data data' : list Business) :
  map rating data' = map rating data -> averageRating data' = averageRating data.
Proof.
  intros H. unfold averageRating.
  assert (L : List.length data' = List.length data).
  { rewrite <- (length_map rating data'), H. apply length_map. }
  rewrite L, (total_ratings_only data data' H). reflexivity.
Qed.

Ltac compare_ratings :=
  repeat match goal with
    | H : Qle_bool _ _ = true |- _ => apply Qle_bool_iff in H
    | H : Qle_bool ?a ?b = false |- _ =>
        assert (b < a)
          by (apply Qnot_le_lt; intros L; apply Qle_bool_iff in L; congruence);
        clear H
    end.

Lemma tally_counts (b : Business) (n5 n4 n3 n2 n1 : string) (c5 c4 c3 c2 c1 : nat) :
  tally [(n5, c5); (n4, c4); (n3, c3); (n2, c2); (n1, c1)] b =
  [ (n5, (one_if (Spec.rated_at_least 5 b) + c5)%nat);
    (n4, (one_if (Spec.rated_in 4 5 b) + c4)%nat);
    (n3, (one_if (Spec.rated_in 3 4 b) + c3)%nat);
    (n2, (one_if (Spec.rated_in 2 3 b) + c2)%nat);
    (n1, (one_if (Spec.rated_in 1 2 b) + c1)%nat) ].
Proof.
  unfold tally, Spec.rated_at_least, Spec.rated_in, Js.ge.
  destruct (rating b) as [x|]; [|reflexivity].
  destruct (Qle_bool 5 x) eqn:E5; destruct (Qle_bool 4 x) eqn:E4;
    destruct (Qle_bool 3 x) eqn:E3; destruct (Qle_bool 2 x) eqn:E2;
    destruct (Qle_bool 1 x) eqn:E1;
    try reflexivity; exfalso; compare_ratings; lra.
Qed.

(** The five ranges are disjoint and cover the ratings from 1 up. *)
Lemma one_bucket (b : Business) :
  (one_if (Spec.rated_at_least 5 b) + one_if (Spec.rated_in 4 5 b) +
   one_if (Spec.rated_in 3 4 b) + one_if (Spec.rated_in 2 3 b) +
   one_if (Spec.rated_in 1 2 b))%nat = one_if (Spec.rated_at_least 1 b).
Proof.
  unfold Spec.rated_at_least, Spec.rated_in.
  destruct (rating b) as [x|]; [|reflexivity].
  destruct (Qle_bool 5 x) eqn:E5; destruct (Qle_bool 4 x) eqn:E4;
    destruct (Qle_bool 3 x) eqn:E3; destruct (Qle_bool 2 x) eqn:E2;
    destruct (Qle_bool 1 x) eqn:E1;
    try reflexivity; exfalso; compare_ratings; lra.
Qed.

Lemma count_where_cons {A : Type} (p : A -> bool) (x : A) (xs : list A) :
  Spec.count_where p (x :: xs) = (one_if (p x) + Spec.count_where p xs)%nat.
Proof.
  unfold Spec.count_where. cbn [List.filter]. destruct (p x); reflexivity.
Qed.

Lemma count_where_le {A : Type} (p : A -> bool) (xs : list A) :
  (Spec.count_where p xs <= List.length xs)%nat.
Proof.
  induction xs as [|x xs IH]; [apply Nat.le_refl|].
  rewrite count_where_cons. cbn [List.length]. destruct (p x); cbn [one_if]; lia.
Qed.

Lemma five_buckets_eq (n5 n4 n3 n2 n1 : string) (a5 a4 a3 a2 a1 b5 b4 b3 b2 b1 : nat) :
  a5 = b5 -> a4 = b4 -> a3 = b3 -> a2 = b2 -> a1 = b1 ->
  [(n5, a5); (n4, a4); (n3, a3); (n2, a2); (n1, a1)] =
  [(n5, b5); (n4, b4); (n3, b3); (n2, b2); (n1, b1)].
Proof. intros -> -> -> -> ->. reflexivity. Qed.

Lemma fold_tally (data : list Business) (n5 n4 n3 n2 n1 : string)
      (c5 c4 c3 c2 c1 : nat) :
  fold_left tally data [(n5, c5); (n4, c4); (n3, c3); (n2, c2); (n1, c1)] =
  [ (n5, (Spec.count_where (Spec.rated_at_least 5) data + c5)%nat);
    (n4, (Spec.count_where (Spec.rated_in 4 5) data + c4)%nat);
    (n3, (Spec.count_where (Spec.rated_in 3 4) data + c3)%nat);
    (n2, (Spec.count_where (Spec.rated_in 2 3) data + c2)%nat);
    (n1, (Spec.count_where (Spec.rated_in 1 2) data + c1)%nat) ].
Proof.
  revert c5 c4 c3 c2 c1.
  induction data as [|b data IH]; intros c5 c4 c3 c2 c1; cbn [fold_left].
  - reflexivity.
  - rewrite tally_counts, IH, !count_where_cons.
    apply five_buckets_eq; lia.
Qed.

Lemma bucket_total (data : list Business) :
  (Spec.count_where (Spec.rated_at_least 5) data +
   Spec.count_where (Spec.rated_in 4 5) data +
   Spec.count_where (Spec.rated_in 3 4) data +
   Spec.count_where (Spec.rated_in 2 3) data +
   Spec.count_where (Spec.rated_in 1 2) data)%nat =
  Spec.count_where (Spec.rated_at_least 1) data.
Proof.
  induction data as [|b data IH]; [reflexivity|].
  rewrite !count_where_cons, <- IH, <- (one_bucket b). lia.
Qed.

End ListingFacts.

(** ** The specification's scenarios, run on the code *)

Section Scenarios.

Import Reviews Examples.

Example scenario_summary :
  sourceCount (summary scenario) = 3%nat /\
  totalReviews (summary scenario) == 150 /\
  avgRating (summary scenario) = Js.Fin (433 # 100).
Proof. repeat split. Qed.

Example scenario_distribution :
  Spec.same_histogram (ratingDistributionData scenario)
                      [(5%Z, 110); (4%Z, 40); (3%Z, 0); (2%Z, 0); (1%Z, 0)].
Proof.
  unfold Spec.same_histogram.
  repeat (constructor; [split; reflexivity|]). constructor.
Qed.

(** The exact mean of ratings 1 and 2 with 7 and 33 reviews is 1.825; the
    double nearest to it is below it, and the summary shows 1.82 . *)
Example halfway_summary :
  Spec.weighted_mean halfway == 1825 # 1000 /\
  quotient halfway < 1825 # 1000 /\
  avgRating (summary halfway) = Js.Fin (182 # 100).
Proof. repeat split. Qed.

(** The order of the additions shows: the same three sources give 1.07 in
    one order and 1.08 in another. *)
Example uneven_summary :
  avgRating (summary uneven) = Js.Fin (107 # 100) /\
  avgRating (summary uneven') = Js.Fin (108 # 100).
Proof. split; vm_compute; reflexivity. Qed.

Example stalls_average :
  Listing.averageRating stalls = Js.Fin (107 # 100) /\
  Listing.averageRating stalls' = Js.Fin (108 # 100).
Proof. split; vm_compute; reflexivity. Qed.

Example sites_query_a :
  filteredReviews (E := Js.ascii_engine) "a" sites =
  Js.Normal [named "Agoda"; named "TripAdvisor"].
Proof. reflexivity. Qed.

Example shops_query_category :
  Listing.filteredData (E := Js.ascii_engine) "CAF" shops =
  Js.Normal [business "Murugan" "Cafe" 5 50].
Proof. reflexivity. Qed.

(** Queries with the same lower-case form select the same records. *)
Lemma filteredReviews_case_insensitive {E : Js.Engine} (q q' : string)
      (data : list ReviewData) :
  Js.toLowerCase q = Js.toLowerCase q' ->
  filteredReviews q data = filteredReviews q' data.
Proof.
  intros H. destruct q as [|c q], q' as [|c' q'].
  - reflexivity.
  - symmetry in H. rewrite toLowerCase_nil in H.
    discriminate (proj1 (Js.toLowerCase_empty _) H).
  - rewrite toLowerCase_nil in H.
    discriminate (proj1 (Js.toLowerCase_empty _) H).
  - unfold filteredReviews. cbn [Js.not_]. rewrite H. reflexivity.
Qed.

Lemma scenario_counts_nonneg : Spec.counts_nonneg scenario.
Proof.
  unfold Spec.counts_nonneg, scenario.
  repeat (apply Forall_cons; [vm_compute; intro E; discriminate E|]).
  apply Forall_nil.
Defined.

Lemma scenario_ratings_nonneg : Spec.ratings_nonneg scenario.
Proof.
  unfold Spec.ratings_nonneg, scenario.
  repeat (apply Forall_cons; [intros _; vm_compute; intro E; discriminate E|]).
  apply Forall_nil.
Defined.

Lemma scenario_reviewed : Exists (fun r => 0 < Spec.count_of r) scenario.
Proof. apply Exists_cons_hd. reflexivity. Defined.

Lemma scenario_sources_present : Spec.sources_present scenario.
Proof.
  unfold Spec.sources_present, scenario.
  repeat (apply Forall_cons; [discriminate|]). apply Forall_nil.
Defined.

Lemma sites_sources_present : Spec.sources_present sites.
Proof.
  unfold Spec.sources_present, sites.
  repeat (apply Forall_cons; [discriminate|]). apply Forall_nil.
Defined.

Lemma shops_names_present : Spec.names_present shops.
Proof.
  unfold Spec.names_present, shops.
  repeat (apply Forall_cons; [split; discriminate|]). apply Forall_nil.
Defined.

Lemma shops_ratings_nonneg :
  forall b, In b shops -> 0 <= Spec.number_of (Listing.rating b).
Proof.
  intros b [<-|[<-|[]]]; vm_compute; intro E; discriminate E.
Defined.

End Scenarios.

(** ** The properties of the aggregation engine *)

Section Claims.

Import Reviews Examples.

(** C1, as the specification states it, fails on three sources rated 1,
    1.1 and 1.2 with 2, 1 and 1 reviews: the exact weighted mean of these
    doubles is above 1.075, and the summary shows 1.07, which is farther
    than 0.005 from it and so is no rounding of it to two decimals. *)
Lemma avgRating_off_exact_mean :
  ~ (exists q, avgRating (summary uneven) = Js.Fin q /\
               Qabs (q - Spec.weighted_mean uneven) <= 1 # 200).
Proof.
  intros [q [E H]]. vm_compute in E. injection E as <-.
  vm_compute in H. apply H. reflexivity.
Qed.

(** C1, amended.  For a batch whose counts and ratings are non-negative,
    the summary's average rating is a number with two decimals, obtained
    by rounding once, at the end, the weighted mean
    [Sum (rating_i * count_i) / Sum (count_i)] (absent rating or count
    taken as 0, the mean as 0 when the counts sum to 0) computed in
    doubles: each product, each sum and the quotient is rounded to the
    nearest double.  With [n] records it lies within 0.005 and a relative
    drift of [n + 2] roundings of [2^-53] of the exact weighted mean. *)
Theorem summary_weighted_average (data : list ReviewData) :
  Spec.counts_nonneg data ->
  Spec.ratings_nonneg data ->
  exists q,
    avgRating (summary data) = Js.Fin q /\
    Spec.two_decimals q /\
    Spec.power (1 - Spec.u) (List.length data + 2) * Spec.weighted_mean data
      - (1 # 200) <= q /\
    q <= Spec.power (1 + Spec.u) (List.length data + 2) * Spec.weighted_mean data
         + (1 # 200).
Proof.
  intros Hc Hr. destruct (summary_avgRating data) as [q [Eq Hq]].
  exists q. split; [exact Eq|]. split.
  - destruct (toFixed2_grid (quotient data)) as [n Hn].
    exists n. rewrite Hq. exact Hn.
  - destruct (quotient_bounds data Hc Hr) as [Ql Qh].
    destruct (toFixed2_bounds (quotient data)) as [Tl Th].
    rewrite Hq. split; lra.
Qed.

Lemma summary_weighted_average_scenario :
  Spec.counts_nonneg scenario /\
  Spec.ratings_nonneg scenario /\
  exists q,
    avgRating (summary scenario) = Js.Fin q /\
    Spec.two_decimals q /\
    Spec.power (1 - Spec.u) (List.length scenario + 2) * Spec.weighted_mean scenario
      - (1 # 200) <= q /\
    q <= Spec.power (1 + Spec.u) (List.length scenario + 2)
         * Spec.weighted_mean scenario + (1 # 200).
Proof.
  split; [exact scenario_counts_nonneg|]. split; [exact scenario_ratings_nonneg|].
  apply (summary_weighted_average scenario
           scenario_counts_nonneg scenario_ratings_nonneg).
Defined.

(** C4.  When the counts of a batch sum to 0, the empty batch included,
    the summary's average rating is the number 0, although the division
    of the weighted total by the total of reviews gives no number. *)
Theorem summary_zero_total (data : list ReviewData) :
  Spec.total_count data == 0 ->
  (exists q, avgRating (summary data) = Js.Fin q /\ q == 0) /\
  (forall q, Js.div (weightedTotalRating data) (totalReviews (summary data))
             <> Js.Fin q).
Proof.
  intros Hz. split.
  - destruct (summary_avgRating data) as [q [Eq Hq]].
    exists q. split; [exact Eq|]. rewrite Hq. apply toFixed2_zero.
    unfold quotient.
    destruct (Js.gt (Spec.total_count data) 0) eqn:G; [|reflexivity].
    apply gt_iff in G. lra.
  - intros q. apply div_zero. rewrite summary_totalReviews. exact Hz.
Qed.

Lemma summary_zero_total_unreviewed :
  Spec.total_count unreviewed == 0 /\
  (exists q, avgRating (summary unreviewed) = Js.Fin q /\ q == 0) /\
  (forall q, Js.div (weightedTotalRating unreviewed)
                    (totalReviews (summary unreviewed)) <> Js.Fin q).
Proof.
  split; [reflexivity|].
  apply (summary_zero_total unreviewed). reflexivity.
Defined.

(** C6, as the specification states it, fails on one source rated 4.333
    with one review: the minimum and the maximum are that rating, the
    summary shows 4.33 . *)
Lemma avgRating_below_minimum :
  ~ (exists lo hi q,
       Spec.min_rating lone = Some lo /\ Spec.max_rating lone = Some hi /\
       avgRating (summary lone) = Js.Fin q /\ lo <= q <= hi).
Proof.
  intros [lo [hi [q [Hmin [_ [E [Hlo _]]]]]]].
  vm_compute in Hmin. injection Hmin as <-.
  vm_compute in E. injection E as <-.
  vm_compute in Hlo. apply Hlo. reflexivity.
Qed.

(** C6, amended.  For a batch with non-negative counts and ratings and at
    least one record with [count > 0], the exact weighted mean lies
    within [[min(rating_i), max(rating_i)]] over the records with
    [count_i > 0]; the summary's average rating, computed in doubles and
    rounded to two decimals, lies within 0.005 and a relative drift of
    [n + 2] roundings of that interval. *)
Theorem avgRating_near_rating_range (data : list ReviewData) :
  Spec.counts_nonneg data ->
  Spec.ratings_nonneg data ->
  Exists (fun r => 0 < Spec.count_of r) data ->
  exists lo hi q,
    Spec.min_rating data = Some lo /\ Spec.max_rating data = Some hi /\
    lo <= Spec.weighted_mean data <= hi /\
    avgRating (summary data) = Js.Fin q /\
    Spec.power (1 - Spec.u) (List.length data + 2) * lo - (1 # 200) <= q /\
    q <= Spec.power (1 + Spec.u) (List.length data + 2) * hi + (1 # 200).
Proof.
  intros Hnn Hrn Hex.
  destruct (weighted_nonempty data Hex) as [lo [hi [Hmin Hmax]]].
  destruct (avgRating_drift data Hnn Hrn) as [q [Eq [_ [Ql Qh]]]].
  exists lo, hi, q. split; [exact Hmin|]. split; [exact Hmax|].
  assert (Hb : lo <= Spec.weighted_mean data <= hi).
  { apply weighted_mean_bounds; [exact Hnn|exact Hex|].
    intros r Hin Hpos. split.
    - apply (min_rating_le data lo r Hmin Hin Hpos).
    - apply (max_rating_ge data hi r Hmax Hin Hpos). }
  split; [exact Hb|]. split; [exact Eq|].
  pose proof (power_up (List.length data + 2)) as HP.
  pose proof (power_down (List.length data + 2)) as [Hp _].
  assert (M1 : Spec.power (1 - Spec.u) (List.length data + 2) * lo <=
               Spec.power (1 - Spec.u) (List.length data + 2) * Spec.weighted_mean data)
    by (apply Qmult_le_l; [exact Hp|apply Hb]).
  assert (M2 : Spec.power (1 + Spec.u) (List.length data + 2) * Spec.weighted_mean data <=
               Spec.power (1 + Spec.u) (List.length data + 2) * hi)
    by (apply Qmult_le_l; [lra|apply Hb]).
  split; lra.
Qed.

Lemma avgRating_near_rating_range_scenario :
  Spec.counts_nonneg scenario /\
  Spec.ratings_nonneg scenario /\
  Exists (fun r => 0 < Spec.count_of r) scenario /\
  exists lo hi q,
    Spec.min_rating scenario = Some lo /\ Spec.max_rating scenario = Some hi /\
    lo <= Spec.weighted_mean scenario <= hi /\
    avgRating (summary scenario) = Js.Fin q /\
    Spec.power (1 - Spec.u) (List.length scenario + 2) * lo - (1 # 200) <= q /\
    q <= Spec.power (1 + Spec.u) (List.length scenario + 2) * hi + (1 # 200).
Proof.
  split; [exact scenario_counts_nonneg|]. split; [exact scenario_ratings_nonneg|].
  split; [exact scenario_reviewed|].
  apply (avgRating_near_rating_range scenario scenario_counts_nonneg
           scenario_ratings_nonneg scenario_reviewed).
Defined.

(** C2, as the specification states it (a pair counts only when its key
    is one of "1".."5"), fails on a map with the key "10": the code adds
    its count to star 1. *)
Lemma combiner_counts_key_10 :
  ~ Spec.same_histogram
      (ratingDistributionData odd_keys)
      (Spec.five_entries (fun star => Spec.sum_where (Spec.key_is star) odd_keys)).
Proof.
  intros H. apply same_histogram_Qsum in H.
  vm_compute in H. discriminate H.
Qed.

(** C2, amended.  The combiner starts five accumulators (stars 5..1) at 0
    and, for each (star, count) pair of each record's distribution map,
    adds the count to the accumulator of the star whose character is the
    FIRST CHARACTER of the key; a pair whose key starts with none of
    '1'..'5' (the empty key included) is ignored.  The output is the fixed
    five-entry sequence, star 5 first, down to star 1. *)
Theorem combiner_by_first_character (data : list ReviewData) :
  ratingDistributionData [] = Spec.five_entries (fun _ => 0) /\
  map fst (ratingDistributionData data) = [5; 4; 3; 2; 1]%Z /\
  Spec.same_histogram
    (ratingDistributionData data)
    (Spec.five_entries
       (fun star => Spec.sum_where (Spec.key_starts_with star) data)).
Proof.
  split; [reflexivity|]. split; [reflexivity|].
  apply ratingDistributionData_counts.
Qed.

(** C7, as the specification states it, fails on a map with the keys "10"
    and "x": the five combined counts sum to 7, the values under the
    buckets "1".."5" sum to 0, and all the values of the map sum to 10. *)
Lemma combiner_total_odd_keys :
  ~ (Spec.Qsum (map snd (ratingDistributionData odd_keys)) ==
     Spec.sum_where Spec.key_is_bucket odd_keys) /\
  ~ (Spec.Qsum (map snd (ratingDistributionData odd_keys)) ==
     Spec.sum_where (fun _ => true) odd_keys).
Proof.
  split; intros H; vm_compute in H; discriminate H.
Qed.

Lemma key_is_bucket_starts (e : string * Q) :
  Spec.key_is_bucket e = true -> Spec.key_starts_with_bucket e = true.
Proof.
  unfold Spec.key_is_bucket, Spec.key_starts_with_bucket,
    Spec.key_is, Spec.key_starts_with.
  cbn [existsb]. rewrite !orb_true_iff, !String.eqb_eq.
  intros [E|[E|[E|[E|[E|E]]]]]; try discriminate E; rewrite E; cbn; tauto.
Qed.

Lemma sum_where_ext (p q : string * Q -> bool) (data : list ReviewData) :
  Forall (fun r => Forall (fun e => p e = q e) (Spec.entries_of r)) data ->
  Spec.sum_where p data == Spec.sum_where q data.
Proof.
  unfold Spec.sum_where.
  induction 1 as [|r data Hr _ IH]; cbn [map Spec.Qsum]; [reflexivity|].
  rewrite IH.
  assert (E : List.filter p (Spec.entries_of r) = List.filter q (Spec.entries_of r)).
  { induction Hr as [|e es He _ IHe]; cbn [List.filter]; [reflexivity|].
    rewrite He, IHe. reflexivity. }
  rewrite E. reflexivity.
Qed.

(** C7, amended.  The five combined counts sum to the sum, over the
    records, of the counts of the pairs whose key starts with one of
    '1'..'5'; when every key is one of "1".."5" that is the sum of all the
    values of all the maps.  Permuting the records of the batch leaves
    every combined count the same. *)
Theorem combiner_total_and_order (data data' : list ReviewData) :
  Permutation data data' ->
  Spec.Qsum (map snd (ratingDistributionData data)) ==
    Spec.sum_where Spec.key_starts_with_bucket data /\
  (Forall (fun r => Forall (fun e => Spec.key_is_bucket e = true)
                           (Spec.entries_of r)) data ->
   Spec.Qsum (map snd (ratingDistributionData data)) ==
     Spec.sum_where (fun _ => true) data) /\
  Spec.same_histogram (ratingDistributionData data) (ratingDistributionData data').
Proof.
  intros Hperm.
  assert (Htotal : Spec.Qsum (map snd (ratingDistributionData data)) ==
                   Spec.sum_where Spec.key_starts_with_bucket data).
  { rewrite (same_histogram_Qsum _ _ (ratingDistributionData_counts data)).
    apply sum_where_split. }
  split; [exact Htotal|]. split.
  - intros Hkeys. rewrite Htotal. apply sum_where_ext.
    eapply Forall_impl; [|exact Hkeys]. intros r Hr. cbv beta in Hr.
    eapply Forall_impl; [|exact Hr]. intros e He. cbv beta in He.
    apply key_is_bucket_starts, He.
  - eapply same_histogram_trans; [apply ratingDistributionData_counts|].
    apply same_histogram_sym.
    eapply same_histogram_trans; [apply ratingDistributionData_counts|].
    unfold Spec.five_entries, Spec.same_histogram.
    repeat (constructor; [split; [reflexivity|]; cbn [snd];
                          apply sum_where_perm, Permutation_sym, Hperm|]).
    constructor.
Qed.

Lemma combiner_total_and_order_scenario :
  Permutation scenario [hotelC; hotelA; hotelB] /\
  Spec.Qsum (map snd (ratingDistributionData scenario)) ==
    Spec.sum_where Spec.key_starts_with_bucket scenario /\
  (Forall (fun r => Forall (fun e => Spec.key_is_bucket e = true)
                           (Spec.entries_of r)) scenario ->
   Spec.Qsum (map snd (ratingDistributionData scenario)) ==
     Spec.sum_where (fun _ => true) scenario) /\
  Spec.same_histogram (ratingDistributionData scenario)
                      (ratingDistributionData [hotelC; hotelA; hotelB]).
Proof.
  assert (Hperm : Permutation scenario [hotelC; hotelA; hotelB]).
  { unfold scenario.
    apply Permutation_sym, (Permutation_cons_app [hotelA; hotelB] []).
    apply Permutation_refl. }
  split; [exact Hperm|].
  apply (combiner_total_and_order scenario [hotelC; hotelA; hotelB] Hperm).
Defined.

(** C3, as the specification states it, fails on a query of one space:
    the filter keeps the sources that contain a space, here none, and
    does not return the batch. *)
Lemma filter_whitespace_query :
  ~ (filteredReviews (E := Js.ascii_engine) " " sites = Js.Normal sites).
Proof.
  intros H. vm_compute in H. discriminate H.
Qed.

(** C3, amended.  For a batch with the schema's required text fields and
    any query, the filter returns the subsequence, in the original order,
    of the records whose searchable text (the source; for a business the
    name or the category) contains the query, letter case ignored: the
    lower-cased query is a substring of the lower-cased text, with the
    lower-casing of the JavaScript engine, whichever it is.  For the EMPTY
    query it returns the batch unchanged; a query of white space is
    matched like any other query. *)
Theorem filter_projector {E : Js.Engine} (query : string)
        (data : list ReviewData) (listing : list Listing.Business) :
  Spec.sources_present data ->
  Spec.names_present listing ->
  (exists keep : ReviewData -> bool,
      (forall r, keep r = true <-> Spec.selects_review query r) /\
      filteredReviews query data = Js.Normal (List.filter keep data) /\
      Spec.subsequence (List.filter keep data) data) /\
  (exists keep : Listing.Business -> bool,
      (forall b, keep b = true <-> Spec.selects_business query b) /\
      Listing.filteredData query listing = Js.Normal (List.filter keep listing) /\
      Spec.subsequence (List.filter keep listing) listing) /\
  (query = ""%string ->
   filteredReviews query data = Js.Normal data /\
   Listing.filteredData query listing = Js.Normal listing).
Proof.
  intros Hs Hn. split; [|split].
  - exists (Spec.keeps_review query). split; [|split].
    + apply keeps_review_iff.
    + apply filteredReviews_filter, Hs.
    + apply filter_subsequence.
  - exists (Spec.keeps_business query). split; [|split].
    + apply keeps_business_iff.
    + apply filteredData_filter, Hn.
    + apply filter_subsequence.
  - intros ->. split; reflexivity.
Qed.

Lemma filter_projector_sites :
  Spec.sources_present sites /\ Spec.names_present shops /\
  (exists keep : ReviewData -> bool,
      (forall r, keep r = true <->
                 Spec.selects_review (E := Js.ascii_engine) "a" r) /\
      filteredReviews (E := Js.ascii_engine) "a" sites =
        Js.Normal (List.filter keep sites) /\
      Spec.subsequence (List.filter keep sites) sites) /\
  (exists keep : Listing.Business -> bool,
      (forall b, keep b = true <->
                 Spec.selects_business (E := Js.ascii_engine) "a" b) /\
      Listing.filteredData (E := Js.ascii_engine) "a" shops =
        Js.Normal (List.filter keep shops) /\
      Spec.subsequence (List.filter keep shops) shops) /\
  ("a"%string = ""%string ->
   filteredReviews (E := Js.ascii_engine) "a" sites = Js.Normal sites /\
   Listing.filteredData (E := Js.ascii_engine) "a" shops = Js.Normal shops).
Proof.
  split; [exact sites_sources_present|]. split; [exact shops_names_present|].
  apply (filter_projector (E := Js.ascii_engine) "a" sites shops
           sites_sources_present shops_names_present).
Defined.

(** C8.  On a batch that conforms to the schema (the source present; the
    rating, the count, the distribution and the reviews present or not)
    the three operations return a result and throw nothing: the filter
    returns normally for every query, the summary holds an average that
    is a number with two decimals (never [NaN]) and the count of the
    records, and the combiner returns its five entries. *)
Theorem aggregation_total {E : Js.Engine} (query : string)
        (data : list ReviewData) :
  Spec.sources_present data ->
  (exists out, filteredReviews query data = Js.Normal out) /\
  (exists q, avgRating (summary data) = Js.Fin q /\ Spec.two_decimals q) /\
  sourceCount (summary data) = List.length data /\
  List.length (ratingDistributionData data) = 5%nat.
Proof.
  intros Hs. split; [|split; [|split]].
  - eexists. apply filteredReviews_filter, Hs.
  - destruct (summary_avgRating data) as [q [Eq Hq]].
    exists q. split; [exact Eq|].
    destruct (toFixed2_grid (quotient data)) as [n Hn].
    exists n. rewrite Hq. exact Hn.
  - apply summary_sourceCount.
  - reflexivity.
Qed.

Lemma aggregation_total_scenario :
  Spec.sources_present scenario /\
  (exists out, filteredReviews (E := Js.ascii_engine) "b" scenario = Js.Normal out) /\
  (exists q, avgRating (summary scenario) = Js.Fin q /\ Spec.two_decimals q) /\
  sourceCount (summary scenario) = List.length scenario /\
  List.length (ratingDistributionData scenario) = 5%nat.
Proof.
  split; [exact scenario_sources_present|].
  apply (aggregation_total (E := Js.ascii_engine) "b" scenario
           scenario_sources_present).
Defined.

(** The hypothesis of C8 is needed: a record without a source makes the
    filter throw on a query that is not empty, whatever the engine. *)
Lemma filteredReviews_throws_without_source {E : Js.Engine} :
  filteredReviews "a"
    [ {| source := None; rating := Some 4; count := Some 2;
         distribution := None; reviews := None |} ] = Js.Throw Js.TypeError.
Proof. reflexivity. Qed.

(** C9.  Filtering with the empty query returns the batch itself, and
    filtering the result of a filter again with the same query returns
    that result: running the filter on its own output is the filter.
    Both hold for the review filter and for the business filter. *)
Theorem filter_identity_idempotent {E : Js.Engine} (query : string)
        (data : list ReviewData) (listing : list Listing.Business) :
  filteredReviews "" data = Js.Normal data /\
  Listing.filteredData "" listing = Js.Normal listing /\
  (out <- filteredReviews query data ;; filteredReviews query out) =
    filteredReviews query data /\
  (out <- Listing.filteredData query listing ;; Listing.filteredData query out) =
    Listing.filteredData query listing.
Proof.
  split; [reflexivity|]. split; [reflexivity|]. split.
  - destruct (filteredReviews query data) as [out|e] eqn:E'; cbn [Js.bind].
    + apply (filteredReviews_idempotent query data out E').
    + reflexivity.
  - destruct (Listing.filteredData query listing) as [out|e] eqn:E'; cbn [Js.bind].
    + apply (filteredData_idempotent query listing out E').
    + reflexivity.
Qed.

(** C5, as the specification states it, fails on two businesses rated 4
    with 100 reviews and 5 with 50 reviews: the page shows 4.50, the
    mean weighted by the review counts is 4.333..., more than 0.005
    away. *)
Lemma averageRating_not_weighted :
  ~ (exists q, Listing.averageRating shops = Js.Fin q /\
               Qabs (q - Spec.review_weighted_mean shops) <= 1 # 200).
Proof.
  intros [q [E H]]. vm_compute in E. injection E as <-.
  vm_compute in H. apply H. reflexivity.
Qed.

(** C5, amended.  In the business listing, for every non-empty batch
    with non-negative ratings, the displayed overall rating is the SIMPLE
    arithmetic mean of the per-record ratings (an absent rating taken as
    0), computed in doubles and rounded to two decimals: with [n]
    businesses it lies within 0.005 and a relative drift of [n + 2]
    roundings of the exact simple mean.  The review counts play no part
    in it: batches with the same ratings show the same value. *)
Theorem averageRating_is_simple_mean (data : list Listing.Business) :
  data <> [] ->
  (forall b, In b data -> 0 <= Spec.number_of (Listing.rating b)) ->
  (exists q,
     Listing.averageRating data = Js.Fin q /\
     Spec.two_decimals q /\
     Spec.power (1 - Spec.u) (List.length data + 2) * Spec.simple_mean data
       - (1 # 200) <= q /\
     q <= Spec.power (1 + Spec.u) (List.length data + 2) * Spec.simple_mean data
          + (1 # 200)) /\
  (forall data',
     map Listing.rating data' = map Listing.rating data ->
     Listing.averageRating data' = Listing.averageRating data).
Proof.
  intros Hne Hr. split.
  - apply averageRating_drift; assumption.
  - apply averageRating_ratings_only.
Qed.

Lemma shops_not_nil : shops <> [].
Proof. discriminate. Defined.

Lemma averageRating_is_simple_mean_shops :
  shops <> [] /\
  (forall b, In b shops -> 0 <= Spec.number_of (Listing.rating b)) /\
  (exists q,
     Listing.averageRating shops = Js.Fin q /\
     Spec.two_decimals q /\
     Spec.power (1 - Spec.u) (List.length shops + 2) * Spec.simple_mean shops
       - (1 # 200) <= q /\
     q <= Spec.power (1 + Spec.u) (List.length shops + 2) * Spec.simple_mean shops
          + (1 # 200)) /\
  (forall data',
     map Listing.rating data' = map Listing.rating shops ->
     Listing.averageRating data' = Listing.averageRating shops).
Proof.
  split; [exact shops_not_nil|]. split; [exact shops_ratings_nonneg|].
  apply (averageRating_is_simple_mean shops shops_not_nil shops_ratings_nonneg).
Defined.

(** C10.  In the business histogram the buckets hold, in order, the
    numbers of businesses with rating at least 5 (values above 5
    included), in [4,5), in [3,4), in [2,3) and in [1,2) .  Every business
    is counted in at most one bucket, and in none when its rating is
    below 1 .  So the five counts sum to the number of businesses rated at
    least 1, which is at most the size of the batch and can be strictly
    less. *)
Theorem ratingDistribution_buckets (data : list Listing.Business) :
  Listing.ratingDistribution data =
    [ ("5 Stars", Spec.count_where (Spec.rated_at_least 5) data);
      ("4-4.9 Stars", Spec.count_where (Spec.rated_in 4 5) data);
      ("3-3.9 Stars", Spec.count_where (Spec.rated_in 3 4) data);
      ("2-2.9 Stars", Spec.count_where (Spec.rated_in 2 3) data);
      ("1-1.9 Stars", Spec.count_where (Spec.rated_in 1 2) data) ]%string /\
  (forall b,
      (one_if (Spec.rated_at_least 5 b) + one_if (Spec.rated_in 4 5 b) +
       one_if (Spec.rated_in 3 4 b) + one_if (Spec.rated_in 2 3 b) +
       one_if (Spec.rated_in 1 2 b))%nat = one_if (Spec.rated_at_least 1 b)) /\
  list_sum (map snd (Listing.ratingDistribution data)) =
    Spec.count_where (Spec.rated_at_least 1) data /\
  (list_sum (map snd (Listing.ratingDistribution data)) <= List.length data)%nat /\
  (exists batch,
      (list_sum (map snd (Listing.ratingDistribution batch)) < List.length batch)%nat).
Proof.
  assert (E : Listing.ratingDistribution data =
    [ ("5 Stars", Spec.count_where (Spec.rated_at_least 5) data);
      ("4-4.9 Stars", Spec.count_where (Spec.rated_in 4 5) data);
      ("3-3.9 Stars", Spec.count_where (Spec.rated_in 3 4) data);
      ("2-2.9 Stars", Spec.count_where (Spec.rated_in 2 3) data);
      ("1-1.9 Stars", Spec.count_where (Spec.rated_in 1 2) data) ]%string).
  { unfold Listing.ratingDistribution, Listing.distribution0.
    rewrite fold_tally. apply five_buckets_eq; lia. }
  assert (T : list_sum (map snd (Listing.ratingDistribution data)) =
              Spec.count_where (Spec.rated_at_least 1) data).
  { rewrite E. unfold list_sum. cbn [map snd fold_right].
    rewrite <- bucket_total. lia. }
  split; [exact E|]. split; [exact one_bucket|]. split; [exact T|]. split.
  - rewrite T. apply count_where_le.
  - exists mixed. vm_compute. lia.
Qed.

End Claims.


(** ** More on the summary aggregator *)

Section SummaryMore.

Import Reviews Examples.

Lemma total_count_app (a b : list ReviewData) :
  Spec.total_count (a ++ b) == Spec.total_count a + Spec.total_count b.
Proof.
  unfold Spec.total_count.
  induction a as [|r a IH]; cbn [app map Spec.Qsum]; [lra|]. rewrite IH. lra.
Qed.

Lemma weighted_mean_ext (data data' : list ReviewData) :
  Spec.total_count data == Spec.total_count data' ->
  Spec.total_weighted data == Spec.total_weighted data' ->
  Spec.weighted_mean data == Spec.weighted_mean data'.
Proof.
  intros Hc Hw. unfold Spec.weighted_mean.
  assert (E : Qeq_bool (Spec.total_count data) 0 =
              Qeq_bool (Spec.total_count data') 0) by (rewrite Hc; reflexivity).
  rewrite E. destruct (Qeq_bool (Spec.total_count data') 0); [reflexivity|].
  rewrite Hc, Hw. reflexivity.
Qed.

Lemma quotient_ext (data data' : list ReviewData) :
  Spec.total_count data == Spec.total_count data' ->
  weightedTotalRating data == weightedTotalRating data' ->
  quotient data == quotient data'.
Proof.
  intros Hc Hw. unfold quotient.
  rewrite (gt_comp _ _ 0 0 Hc (Qeq_refl 0)).
  destruct (Js.gt (Spec.total_count data') 0); [|reflexivity].
  apply round_comp. rewrite Hc, Hw. reflexivity.
Qed.

(** [sourceCount] is the number of records, with or without reviews, and
    [totalReviews] the sum of the counts, an absent count as 0; both add up
    when two batches are put together. *)
Theorem summary_counts (a b : list ReviewData) :
  sourceCount (summary a) = List.length a /\
  totalReviews (summary a) == Spec.total_count a /\
  sourceCount (summary (a ++ b)) =
    (sourceCount (summary a) + sourceCount (summary b))%nat /\
  totalReviews (summary (a ++ b)) ==
    totalReviews (summary a) + totalReviews (summary b).
Proof.
  split; [apply summary_sourceCount|]. split; [apply summary_totalReviews|]. split.
  - rewrite !summary_sourceCount. apply length_app.
  - rewrite !summary_totalReviews. apply total_count_app.
Qed.

Lemma uneven_reordered : Permutation uneven uneven'.
Proof. unfold uneven, uneven'. apply perm_skip, perm_swap. Defined.

(** The order of the records matters neither to the number of sources,
    nor to the total of reviews, nor to the exact weighted mean; it does
    matter to the average shown, whose additions are rounded in the order
    of the batch: three sources rated 1, 1.1 and 1.2 with 2, 1 and 1
    reviews show 1.07 in this order and 1.08 with the last two
    exchanged. *)
Theorem summary_permutation (data data' : list ReviewData) :
  Permutation data data' ->
  totalReviews (summary data) == totalReviews (summary data') /\
  sourceCount (summary data) = sourceCount (summary data') /\
  Spec.weighted_mean data == Spec.weighted_mean data' /\
  (exists batch batch',
      Permutation batch batch' /\
      avgRating (summary batch) = Js.Fin (107 # 100) /\
      avgRating (summary batch') = Js.Fin (108 # 100)).
Proof.
  intros Hp.
  assert (Hc : Spec.total_count data == Spec.total_count data')
    by (apply Qsum_perm, Permutation_map, Hp).
  assert (Hw : Spec.total_weighted data == Spec.total_weighted data')
    by (apply Qsum_perm, Permutation_map, Hp).
  split; [|split; [|split]].
  - rewrite !summary_totalReviews. exact Hc.
  - rewrite !summary_sourceCount. apply Permutation_length, Hp.
  - apply weighted_mean_ext; assumption.
  - exists uneven, uneven'. split; [exact uneven_reordered|].
    split; vm_compute; reflexivity.
Qed.

Lemma scenario_reversed : Permutation scenario [hotelC; hotelB; hotelA].
Proof.
  unfold scenario. change [hotelC; hotelB; hotelA] with (rev [hotelA; hotelB; hotelC]).
  apply Permutation_rev.
Defined.

Lemma summary_permutation_scenario :
  Permutation scenario [hotelC; hotelB; hotelA] /\
  totalReviews (summary scenario) == totalReviews (summary [hotelC; hotelB; hotelA]) /\
  sourceCount (summary scenario) = sourceCount (summary [hotelC; hotelB; hotelA]) /\
  Spec.weighted_mean scenario == Spec.weighted_mean [hotelC; hotelB; hotelA] /\
  (exists batch batch',
      Permutation batch batch' /\
      avgRating (summary batch) = Js.Fin (107 # 100) /\
      avgRating (summary batch') = Js.Fin (108 # 100)).
Proof.
  split; [exact scenario_reversed|].
  apply (summary_permutation scenario [hotelC; hotelB; hotelA] scenario_reversed).
Defined.

Lemma unweighted_product (r : ReviewData) :
  Spec.count_of r == 0 ->
  Js.mul (Js.or0 (rating r)) (Js.or0 (count r)) == 0.
Proof.
  intros Hz. unfold Js.mul.
  rewrite (round_zero (Js.or0 (rating r) * Js.or0 (count r))); [reflexivity|].
  rewrite count_or0, Hz. ring.
Qed.

(** A record whose count is absent or 0 carries no weight: put anywhere
    into a batch it changes neither the average rating nor the total of
    reviews, whatever its rating; only the number of sources grows by one. *)
Theorem summary_ignores_unweighted (r : ReviewData) (a b : list ReviewData) :
  Spec.count_of r == 0 ->
  Js.same_value (avgRating (summary (a ++ r :: b))) (avgRating (summary (a ++ b))) /\
  totalReviews (summary (a ++ r :: b)) == totalReviews (summary (a ++ b)) /\
  sourceCount (summary (a ++ r :: b)) = S (sourceCount (summary (a ++ b))).
Proof.
  intros Hz.
  assert (Hc : Spec.total_count (a ++ r :: b) == Spec.total_count (a ++ b)).
  { rewrite !total_count_app. unfold Spec.total_count at 2.
    cbn [map Spec.Qsum]. fold (Spec.total_count b). rewrite Hz. lra. }
  assert (Hw : weightedTotalRating (a ++ r :: b) == weightedTotalRating (a ++ b)).
  { unfold weightedTotalRating. apply reduce_add_skip, unweighted_product, Hz. }
  split; [|split].
  - destruct (summary_avgRating (a ++ r :: b)) as [q [Eq Hq]].
    destruct (summary_avgRating (a ++ b)) as [q' [Eq' Hq']].
    rewrite Eq, Eq'. cbn [Js.same_value]. rewrite Hq, Hq'.
    apply toFixed2_comp, quotient_ext; assumption.
  - rewrite !summary_totalReviews. exact Hc.
  - rewrite !summary_sourceCount, !length_app. cbn [List.length]. lia.
Qed.

Lemma summary_ignores_unweighted_scenario :
  Spec.count_of hotelC == 0 /\
  Js.same_value (avgRating (summary ([hotelA] ++ hotelC :: [hotelB])))
                (avgRating (summary ([hotelA] ++ [hotelB]))) /\
  totalReviews (summary ([hotelA] ++ hotelC :: [hotelB])) ==
    totalReviews (summary ([hotelA] ++ [hotelB])) /\
  sourceCount (summary ([hotelA] ++ hotelC :: [hotelB])) =
    S (sourceCount (summary ([hotelA] ++ [hotelB]))).
Proof.
  split; [reflexivity|].
  apply (summary_ignores_unweighted hotelC [hotelA] [hotelB]). reflexivity.
Defined.

Lemma ratings_in_range_nonneg (data : list ReviewData) :
  (forall r, In r data -> 0 < Spec.count_of r -> 0 <= Spec.rating_of r <= 5) ->
  Spec.ratings_nonneg data.
Proof.
  intros H. apply Forall_forall. intros r Hin Hpos. apply (H r Hin Hpos).
Qed.

Lemma weighted_mean_range (data : list ReviewData) :
  Spec.counts_nonneg data ->
  (forall r, In r data -> 0 < Spec.count_of r -> 0 <= Spec.rating_of r <= 5) ->
  0 <= Spec.weighted_mean data <= 5.
Proof.
  intros Hnn Hb. unfold Spec.weighted_mean.
  destruct (Qeq_bool (Spec.total_count data) 0) eqn:E; [lra|].
  apply Qeq_bool_neq in E. pose proof (total_count_nonneg data Hnn) as H0.
  assert (G : 0 < Spec.total_count data) by lra.
  split.
  - apply Qle_shift_div_l; [exact G|].
    apply total_weighted_lower; [exact Hnn|]. intros r Hin Hr. apply Hb; assumption.
  - apply Qle_shift_div_r; [exact G|].
    apply total_weighted_upper; [exact Hnn|]. intros r Hin Hr. apply Hb; assumption.
Qed.

(** With non-negative counts and the ratings of the records that have
    reviews between 0 and 5, the average rating shown is a number between
    0 and 5, also when no record has any review.  (The batch is an array:
    it has fewer than [2^32] records.) *)
Theorem avgRating_display_range (data : list ReviewData) :
  Spec.counts_nonneg data ->
  (forall r, In r data -> 0 < Spec.count_of r -> 0 <= Spec.rating_of r <= 5) ->
  Spec.array_length (List.length data) ->
  exists q, avgRating (summary data) = Js.Fin q /\ 0 <= q <= 5.
Proof.
  intros Hnn Hb Hlen.
  pose proof (ratings_in_range_nonneg data Hb) as Hrn.
  destruct (summary_avgRating data) as [q [Eq Hq]].
  exists q. split; [exact Eq|]. rewrite Hq.
  destruct (quotient_bounds data Hnn Hrn) as [_ Qh].
  pose proof (quotient_nonneg data Hnn Hrn) as Q0.
  pose proof (power_up_five (List.length data) _ Hlen (weighted_mean_range data Hnn Hb))
    as H5.
  split.
  - apply toFixed2_nonneg, Q0.
  - apply toFixed2_five. lra.
Qed.

Lemma scenario_ratings_in_range :
  forall r, In r scenario -> 0 < Spec.count_of r -> 0 <= Spec.rating_of r <= 5.
Proof.
  intros r [<-|[<-|[<-|[]]]] _; split; vm_compute; intro E; discriminate E.
Defined.

Lemma scenario_array : Spec.array_length (List.length scenario).
Proof. reflexivity. Defined.

Lemma avgRating_display_range_scenario :
  Spec.counts_nonneg scenario /\
  (forall r, In r scenario -> 0 < Spec.count_of r -> 0 <= Spec.rating_of r <= 5) /\
  Spec.array_length (List.length scenario) /\
  exists q, avgRating (summary scenario) = Js.Fin q /\ 0 <= q <= 5.
Proof.
  split; [exact scenario_counts_nonneg|]. split; [exact scenario_ratings_in_range|].
  split; [exact scenario_array|].
  apply (avgRating_display_range scenario
           scenario_counts_nonneg scenario_ratings_in_range scenario_array).
Defined.

(** When all the records that have reviews carry the same non-negative
    rating, the average rating shown lies within 0.005 and [n + 2]
    roundings of that rating.  It need not be the rating rounded to two
    decimals: two sources rated 1.025, which as a double is below 1.025
    and is shown as 1.02, with 1 and 5 reviews show 1.03 . *)
Theorem summary_unanimous (data : list ReviewData) (x : Q) :
  Spec.counts_nonneg data ->
  Exists (fun r => 0 < Spec.count_of r) data ->
  (forall r, In r data -> 0 < Spec.count_of r -> Spec.rating_of r == x) ->
  0 <= x ->
  (exists q,
     avgRating (summary data) = Js.Fin q /\
     Spec.power (1 - Spec.u) (List.length data + 2) * x - (1 # 200) <= q /\
     q <= Spec.power (1 + Spec.u) (List.length data + 2) * x + (1 # 200)) /\
  (exists batch y,
     (forall r, In r batch -> Spec.rating_of r == y) /\
     Js.toFixed2 y == 102 # 100 /\
     avgRating (summary batch) = Js.Fin (103 # 100)).
Proof.
  intros Hnn Hex Hx H0. split.
  - assert (Hrn : Spec.ratings_nonneg data).
    { apply Forall_forall. intros r Hin Hpos. rewrite (Hx r Hin Hpos). exact H0. }
    destruct (avgRating_drift data Hnn Hrn) as [q [Eq [_ [Ql Qh]]]].
    exists q. split; [exact Eq|].
    assert (Hb : x <= Spec.weighted_mean data <= x).
    { apply weighted_mean_bounds; [exact Hnn|exact Hex|].
      intros r Hin Hr. specialize (Hx r Hin Hr). lra. }
    assert (Em : Spec.weighted_mean data == x) by lra.
    rewrite Em in Ql, Qh. split; assumption.
  - exists twins, (Js.literal (1025 # 1000)). split; [|split].
    + intros r [<-|[<-|[]]]; reflexivity.
    + reflexivity.
    + vm_compute. reflexivity.
Qed.

Lemma lone_counts_nonneg : Spec.counts_nonneg lone.
Proof.
  unfold Spec.counts_nonneg, lone.
  apply Forall_cons; [vm_compute; intro E; discriminate E|apply Forall_nil].
Defined.

Lemma lone_reviewed : Exists (fun r => 0 < Spec.count_of r) lone.
Proof. apply Exists_cons_hd. reflexivity. Defined.

Lemma lone_unanimous :
  forall r, In r lone -> 0 < Spec.count_of r ->
            Spec.rating_of r == Js.literal (4333 # 1000).
Proof. intros r [<-|[]] _. reflexivity. Defined.

Lemma lone_rating_nonneg : 0 <= Js.literal (4333 # 1000).
Proof. vm_compute. intro E. discriminate E. Defined.

Lemma summary_unanimous_lone :
  Spec.counts_nonneg lone /\
  Exists (fun r => 0 < Spec.count_of r) lone /\
  (forall r, In r lone -> 0 < Spec.count_of r ->
             Spec.rating_of r == Js.literal (4333 # 1000)) /\
  0 <= Js.literal (4333 # 1000) /\
  (exists q,
     avgRating (summary lone) = Js.Fin q /\
     Spec.power (1 - Spec.u) (List.length lone + 2) * Js.literal (4333 # 1000)
       - (1 # 200) <= q /\
     q <= Spec.power (1 + Spec.u) (List.length lone + 2) * Js.literal (4333 # 1000)
          + (1 # 200)) /\
  (exists batch y,
     (forall r, In r batch -> Spec.rating_of r == y) /\
     Js.toFixed2 y == 102 # 100 /\
     avgRating (summary batch) = Js.Fin (103 # 100)).
Proof.
  split; [exact lone_counts_nonneg|]. split; [exact lone_reviewed|].
  split; [exact lone_unanimous|]. split; [exact lone_rating_nonneg|].
  apply (summary_unanimous lone (Js.literal (4333 # 1000)) lone_counts_nonneg
           lone_reviewed lone_unanimous lone_rating_nonneg).
Defined.

Lemma count_of_scale (k : positive) (r : ReviewData) :
  Spec.count_of (scale_count k r) == inject_Z (Z.pos k) * Spec.count_of r.
Proof.
  unfold Spec.count_of, scale_count. cbn [count].
  destruct (count r); cbn [option_map]; [reflexivity|ring].
Qed.

Lemma total_count_scale (k : positive) (data : list ReviewData) :
  Spec.total_count (map (scale_count k) data) ==
  inject_Z (Z.pos k) * Spec.total_count data.
Proof.
  unfold Spec.total_count.
  induction data as [|r data IH]; cbn [map Spec.Qsum]; [ring|].
  rewrite IH, count_of_scale. ring.
Qed.

Lemma total_weighted_scale (k : positive) (data : list ReviewData) :
  Spec.total_weighted (map (scale_count k) data) ==
  inject_Z (Z.pos k) * Spec.total_weighted data.
Proof.
  unfold Spec.total_weighted.
  induction data as [|r data IH]; cbn [map Spec.Qsum]; [ring|].
  rewrite IH, count_of_scale.
  change (Spec.rating_of (scale_count k r)) with (Spec.rating_of r). ring.
Qed.

(** Multiplying every count by the same whole number [k >= 1] multiplies
    the total of reviews by [k] and leaves the exact weighted mean as it
    is; the average shown, computed in doubles, can change: sources rated
    1 and 1.1 with 1 and 3 reviews show 1.08, with 3 and 9 reviews
    1.07 . *)
Theorem summary_scale_counts (k : positive) (data : list ReviewData) :
  totalReviews (summary (map (scale_count k) data)) ==
    inject_Z (Z.pos k) * totalReviews (summary data) /\
  Spec.weighted_mean (map (scale_count k) data) == Spec.weighted_mean data /\
  (exists batch,
     avgRating (summary batch) = Js.Fin (108 # 100) /\
     avgRating (summary (map (scale_count 3) batch)) = Js.Fin (107 # 100)).
Proof.
  assert (Hk : 0 < inject_Z (Z.pos k)) by reflexivity.
  split; [|split].
  - rewrite !summary_totalReviews. apply total_count_scale.
  - pose proof (total_count_scale k data) as Hc.
    pose proof (total_weighted_scale k data) as Hw.
    set (K := inject_Z (Z.pos k)) in *.
    unfold Spec.weighted_mean.
    destruct (Qeq_bool (Spec.total_count data) 0) eqn:E.
    + apply Qeq_bool_iff in E.
      assert (E' : Spec.total_count (map (scale_count k) data) == 0)
        by (rewrite Hc, E; ring).
      apply Qeq_bool_iff in E'. rewrite E'. reflexivity.
    + apply Qeq_bool_neq in E.
      assert (E' : ~ Spec.total_count (map (scale_count k) data) == 0).
      { rewrite Hc. intros H. apply Qmult_integral in H. destruct H; [lra|contradiction]. }
      destruct (Qeq_bool (Spec.total_count (map (scale_count k) data)) 0) eqn:B.
      * apply Qeq_bool_iff in B. contradiction.
      * rewrite Hc, Hw. field. split; [exact E|lra].
  - exists pair. split; vm_compute; reflexivity.
Qed.

End SummaryMore.

(** ** More on the distribution combiner *)

Section CombinerMore.

Import Reviews Examples.

Lemma sum_where_app (p : string * Q -> bool) (a b : list ReviewData) :
  Spec.sum_where p (a ++ b) == Spec.sum_where p a + Spec.sum_where p b.
Proof.
  unfold Spec.sum_where.
  induction a as [|r a IH]; cbn [app map Spec.Qsum]; [lra|]. rewrite IH. lra.
Qed.

Lemma sum_where_cons (p : string * Q -> bool) (r : ReviewData) (b : list ReviewData) :
  Spec.sum_where p (r :: b) ==
  Spec.Qsum (map snd (List.filter p (Spec.entries_of r))) + Spec.sum_where p b.
Proof. reflexivity. Qed.

Lemma sum_where_nonneg (p : string * Q -> bool) (data : list ReviewData) :
  Forall (fun r => Forall (fun e => 0 <= snd e) (Spec.entries_of r)) data ->
  0 <= Spec.sum_where p data.
Proof.
  unfold Spec.sum_where. intros H. apply Qsum_nonneg, Forall_map.
  eapply Forall_impl; [|exact H]. intros r Hr. cbv beta in Hr.
  apply Qsum_nonneg, Forall_map.
  induction Hr as [|e es He _ IH]; cbn [List.filter]; [constructor|].
  destruct (p e); [constructor; assumption|exact IH].
Qed.

(** A histogram of the combiner, entry by entry. *)
Lemma histogram_of_totals (data : list ReviewData) (P : Z * Q -> Prop) :
  (forall star n x, x == Spec.sum_where (Spec.key_starts_with star) data -> P (n, x)) ->
  Forall P (ratingDistributionData data).
Proof.
  intros H. unfold ratingDistributionData.
  assert (Hget : forall star, hasOwnProperty combined0 star = true ->
                              get combined0 star == 0 ->
                              forall n, P (n, get (fold_left add_source data combined0) star)).
  { intros star Hown Hzero n. apply (H star).
    rewrite (get_sources data combined0 star Hown), Hzero. lra. }
  repeat (constructor; [apply Hget; reflexivity|]).
  constructor.
Qed.

(** When no distribution map holds a negative value, no combined count is
    negative. *)
Theorem combiner_nonneg (data : list ReviewData) :
  Forall (fun r => Forall (fun e => 0 <= snd e) (Spec.entries_of r)) data ->
  Forall (fun entry => 0 <= snd entry) (ratingDistributionData data).
Proof.
  intros H. apply histogram_of_totals. intros star n x Hx. cbn [snd].
  rewrite Hx. apply sum_where_nonneg, H.
Qed.

Lemma scenario_values_nonneg :
  Forall (fun r => Forall (fun e => 0 <= snd e) (Spec.entries_of r)) scenario.
Proof.
  unfold scenario.
  repeat (apply Forall_cons;
          [repeat (apply Forall_cons; [vm_compute; intro E; discriminate E|]);
           apply Forall_nil|]).
  apply Forall_nil.
Defined.

Lemma combiner_nonneg_scenario :
  Forall (fun r => Forall (fun e => 0 <= snd e) (Spec.entries_of r)) scenario /\
  Forall (fun entry => 0 <= snd entry) (ratingDistributionData scenario).
Proof.
  split; [exact scenario_values_nonneg|].
  apply (combiner_nonneg scenario scenario_values_nonneg).
Defined.

(** The histogram of two batches put together is, star by star, the sum
    of their histograms. *)
Theorem combiner_append (a b : list ReviewData) :
  Spec.same_histogram
    (ratingDistributionData (a ++ b))
    (add_histograms (ratingDistributionData a) (ratingDistributionData b)).
Proof.
  unfold ratingDistributionData, add_histograms, Spec.same_histogram.
  cbn [combine map fst snd].
  repeat (constructor; [split; [reflexivity|]; cbn [snd];
                        rewrite !get_sources by reflexivity;
                        rewrite sum_where_app;
                        cbn [combined0 get String.eqb Ascii.eqb Bool.eqb]; lra|]).
  constructor.
Qed.

Lemma same_totals_same_histogram (data data' : list ReviewData) :
  (forall star, hasOwnProperty combined0 star = true ->
                Spec.sum_where (Spec.key_starts_with star) data ==
                Spec.sum_where (Spec.key_starts_with star) data') ->
  Spec.same_histogram (ratingDistributionData data) (ratingDistributionData data').
Proof.
  intros H. unfold ratingDistributionData, Spec.same_histogram.
  repeat (constructor; [split; [reflexivity|]; cbn [snd];
                        rewrite !get_sources by reflexivity;
                        rewrite H by reflexivity; reflexivity|]).
  constructor.
Qed.

Lemma unrecognised_filtered (star : string) (es : list (string * Q)) :
  hasOwnProperty combined0 star = true ->
  Forall (fun e => Spec.key_starts_with_bucket e = false) es ->
  List.filter (Spec.key_starts_with star) es = [].
Proof.
  intros Hstar. induction 1 as [|e es He _ IH]; cbn [List.filter]; [reflexivity|].
  assert (E : Spec.key_starts_with star e = false).
  { destruct (Spec.key_starts_with star e) eqn:K; [|reflexivity].
    unfold Spec.key_starts_with_bucket in He. cbn [existsb] in He.
    unfold Spec.key_starts_with in *. apply String.eqb_eq in K. rewrite K in He.
    cbn [combined0 hasOwnProperty] in Hstar.
    rewrite !orb_false_iff in He. rewrite !orb_true_iff in Hstar.
    destruct He as [H5 [H4 [H3 [H2 [H1 _]]]]].
    rewrite String.eqb_sym in H5, H4, H3, H2, H1.
    destruct Hstar as [E|[E|[E|[E|[E|E]]]]]; congruence. }
  rewrite E. exact IH.
Qed.

(** A record without a distribution map, with an empty one, or with one
    whose keys all start with something else than '1'..'5', can be taken
    out of the batch without changing the histogram. *)
Theorem combiner_ignores_unrecognised (r : ReviewData) (a b : list ReviewData) :
  Forall (fun e => Spec.key_starts_with_bucket e = false) (Spec.entries_of r) ->
  Spec.same_histogram (ratingDistributionData (a ++ r :: b))
                      (ratingDistributionData (a ++ b)).
Proof.
  intros Hr. apply same_totals_same_histogram. intros star Hstar.
  rewrite !sum_where_app, sum_where_cons.
  rewrite (unrecognised_filtered star _ Hstar Hr).
  cbn [map Spec.Qsum]. lra.
Qed.

Lemma combiner_ignores_unrecognised_scenario :
  Forall (fun e => Spec.key_starts_with_bucket e = false) (Spec.entries_of hotelC) /\
  Spec.same_histogram (ratingDistributionData ([hotelA] ++ hotelC :: [hotelB]))
                      (ratingDistributionData ([hotelA] ++ [hotelB])).
Proof.
  assert (H : Forall (fun e => Spec.key_starts_with_bucket e = false)
                     (Spec.entries_of hotelC)) by apply Forall_nil.
  split; [exact H|].
  apply (combiner_ignores_unrecognised hotelC [hotelA] [hotelB] H).
Defined.

Lemma filtered_sum_perm (p : string * Q -> bool) (es es' : list (string * Q)) :
  Permutation es es' ->
  Spec.Qsum (map snd (List.filter p es)) == Spec.Qsum (map snd (List.filter p es')).
Proof.
  induction 1 as [|e es es' _ IH|e e' es|es es' es'' _ IH1 _ IH2];
    cbn [List.filter].
  - reflexivity.
  - destruct (p e); cbn [map Spec.Qsum]; rewrite IH; reflexivity.
  - destruct (p e), (p e'); cbn [map Spec.Qsum]; lra.
  - rewrite IH1. exact IH2.
Qed.

(** The order in which the pairs of a distribution map are visited does
    not matter: two batches whose records hold the same pairs, in whatever
    order inside each map, have the same histogram. *)
Theorem combiner_entry_order (data data' : list ReviewData) :
  Forall2 (fun r r' => Permutation (Spec.entries_of r) (Spec.entries_of r'))
          data data' ->
  Spec.same_histogram (ratingDistributionData data) (ratingDistributionData data').
Proof.
  intros H. apply same_totals_same_histogram. intros star _.
  unfold Spec.sum_where.
  induction H as [|r r' data data' Hr _ IH]; cbn [map Spec.Qsum]; [reflexivity|].
  rewrite IH, (filtered_sum_perm _ _ _ Hr). reflexivity.
Qed.

Lemma hotelA_swapped :
  Forall2 (fun r r' => Permutation (Spec.entries_of r) (Spec.entries_of r'))
          [hotelA]
          [ {| source := Some "A"%string; rating := Some 4; count := Some 100;
               distribution := Some [("4", 40); ("5", 60)]%string;
               reviews := None |} ].
Proof.
  apply Forall2_cons; [|apply Forall2_nil]. apply perm_swap.
Defined.

Lemma combiner_entry_order_hotelA :
  Forall2 (fun r r' => Permutation (Spec.entries_of r) (Spec.entries_of r'))
          [hotelA]
          [ {| source := Some "A"%string; rating := Some 4; count := Some 100;
               distribution := Some [("4", 40); ("5", 60)]%string;
               reviews := None |} ] /\
  Spec.same_histogram
    (ratingDistributionData [hotelA])
    (ratingDistributionData
       [ {| source := Some "A"%string; rating := Some 4; count := Some 100;
            distribution := Some [("4", 40); ("5", 60)]%string;
            reviews := None |} ]).
Proof.
  split; [exact hotelA_swapped|].
  apply (combiner_entry_order _ _ hotelA_swapped).
Defined.

(** Every cell of the pie gets a colour: the index is reduced modulo the
    number of colours, so the lookup never leaves the table and repeats
    with period five; the five cells of the histogram get the five
    colours, each once, in the order of the table. *)
Theorem pie_cells_coloured (index : nat) (data : list ReviewData) :
  (exists colour, Dashboard.fill index = Some colour /\ In colour Dashboard.COLORS) /\
  Dashboard.fill (index + 5) = Dashboard.fill index /\
  Dashboard.cellFills data = map Some Dashboard.COLORS /\
  NoDup Dashboard.COLORS.
Proof.
  split; [|split; [|split]].
  - unfold Dashboard.fill.
    assert (Hlt : (index mod List.length Dashboard.COLORS < List.length Dashboard.COLORS)%nat)
      by (apply Nat.mod_upper_bound; discriminate).
    destruct (nth_error Dashboard.COLORS (index mod List.length Dashboard.COLORS))
      as [colour|] eqn:E.
    + exists colour. split; [reflexivity|]. eapply nth_error_In, E.
    + apply nth_error_None in E. lia.
  - unfold Dashboard.fill. f_equal. cbn [Dashboard.COLORS List.length].
    replace (index + 5)%nat with (index + 1 * 5)%nat by lia.
    apply Nat.Div0.mod_add.
  - reflexivity.
  - unfold Dashboard.COLORS.
    repeat (constructor; [cbn [In]; intros H;
                          repeat (destruct H as [H|H]; [discriminate H|]); exact H|]).
    constructor.
Qed.

End CombinerMore.

(** ** More on the filters *)

Section FilterMore.

Import Reviews Examples.

Lemma filteredData_case_insensitive {E : Js.Engine} (q q' : string)
      (listing : list Listing.Business) :
  Js.toLowerCase q = Js.toLowerCase q' ->
  Listing.filteredData q listing = Listing.filteredData q' listing.
Proof.
  intros H. destruct q as [|c q], q' as [|c' q'].
  - reflexivity.
  - symmetry in H. rewrite toLowerCase_nil in H.
    discriminate (proj1 (Js.toLowerCase_empty _) H).
  - rewrite toLowerCase_nil in H.
    discriminate (proj1 (Js.toLowerCase_empty _) H).
  - unfold Listing.filteredData. cbn [Js.not_]. rewrite H. reflexivity.
Qed.

(** Two queries that differ in letter case only (they have the same
    lower-case form) give the same result, in both filters. *)
Theorem filter_case_insensitive {E : Js.Engine} (q q' : string)
        (data : list ReviewData) (listing : list Listing.Business) :
  Js.toLowerCase q = Js.toLowerCase q' ->
  filteredReviews q data = filteredReviews q' data /\
  Listing.filteredData q listing = Listing.filteredData q' listing.
Proof.
  intros H. split.
  - apply filteredReviews_case_insensitive, H.
  - apply filteredData_case_insensitive, H.
Qed.

Lemma filter_case_insensitive_hotel :
  @Js.toLowerCase Js.ascii_engine "HOTEL" =
    @Js.toLowerCase Js.ascii_engine "hotel" /\
  filteredReviews (E := Js.ascii_engine) "HOTEL" sites =
    filteredReviews (E := Js.ascii_engine) "hotel" sites /\
  Listing.filteredData (E := Js.ascii_engine) "HOTEL" shops =
    Listing.filteredData (E := Js.ascii_engine) "hotel" shops.
Proof.
  split; [reflexivity|].
  apply (filter_case_insensitive (E := Js.ascii_engine) "HOTEL" "hotel" sites shops).
  reflexivity.
Defined.

Lemma filter_throws_iff {A : Type} (p : A -> Js.completion bool) (xs : list A) :
  Js.filter p xs = Js.Throw Js.TypeError <->
  Exists (fun x => p x = Js.Throw Js.TypeError) xs.
Proof.
  induction xs as [|x xs IH]; cbn [Js.filter].
  - split; [discriminate|]. intros H. inversion H.
  - destruct (p x) as [keep|[]] eqn:Hp; cbn [Js.bind].
    + destruct (Js.filter p xs) as [rest|[]] eqn:Hf; cbn [Js.bind].
      * split; [discriminate|]. intros H.
        inversion H as [? ? Hx|? ? Hxs]; subst; [congruence|].
        apply IH in Hxs. discriminate Hxs.
      * split; [|reflexivity]. intros _. apply Exists_cons_tl, IH. reflexivity.
    + split; [|reflexivity]. intros _. apply Exists_cons_hd, Hp.
Qed.

Lemma filteredReviews_throw_cases {E : Js.Engine} (query : string)
      (data : list ReviewData) :
  filteredReviews query data = Js.Throw Js.TypeError <->
  query <> ""%string /\ Exists (fun r => source r = None) data.
Proof.
  unfold filteredReviews. destruct query as [|c q]; cbn [Js.not_].
  - split; [discriminate|]. intros [H _]. congruence.
  - rewrite filter_throws_iff. split.
    + intros H. split; [discriminate|].
      eapply Exists_impl; [|exact H]. intros r Hr. cbv beta in Hr.
      destruct (source r); [discriminate Hr|reflexivity].
    + intros [_ H]. eapply Exists_impl; [|exact H]. intros r Hr. cbv beta in Hr.
      rewrite Hr. reflexivity.
Qed.

(** The review filter throws exactly when the query is not empty and some
    record of the batch has no source; the error is a [TypeError]. *)
Theorem filteredReviews_throws_iff {E : Js.Engine} (query : string)
        (data : list ReviewData) :
  filteredReviews query data = Js.Throw Js.TypeError <->
  query <> ""%string /\ Exists (fun r => source r = None) data.
Proof. apply filteredReviews_throw_cases. Qed.

(** The business filter throws exactly when the query is not empty and
    some business has no name, or has a name that does not match (under
    the engine's lower-casing) and no category: the category is read only
    when the name does not match. *)
Theorem filteredData_throws_iff {E : Js.Engine} (query : string)
        (listing : list Listing.Business) :
  Listing.filteredData query listing = Js.Throw Js.TypeError <->
  query <> ""%string /\
  Exists (fun b => Listing.name b = None \/
                   (Spec.field_matches query (Listing.name b) = false /\
                    Listing.category b = None)) listing.
Proof.
  unfold Listing.filteredData. destruct query as [|c q]; cbn [Js.not_].
  - split; [discriminate|]. intros [H _]. congruence.
  - rewrite filter_throws_iff. split.
    + intros H. split; [discriminate|].
      eapply Exists_impl; [|exact H]. intros b Hb. cbv beta in Hb.
      unfold Spec.field_matches.
      destruct (Listing.name b) as [n|]; [|left; reflexivity].
      cbn [Js.receiver Js.bind] in Hb. right.
      destruct (Js.includes (Js.toLowerCase n) _); [discriminate Hb|].
      split; [reflexivity|].
      destruct (Listing.category b); [discriminate Hb|reflexivity].
    + intros [_ H]. eapply Exists_impl; [|exact H]. intros b Hb. cbv beta in Hb.
      unfold Spec.field_matches in Hb.
      destruct (Listing.name b) as [n|]; [|reflexivity].
      cbn [Js.receiver Js.bind].
      destruct Hb as [Hb|[Hm Hc]]; [discriminate Hb|].
      rewrite Hm, Hc. reflexivity.
Qed.

Lemma list_filter_comm {A : Type} (f g : A -> bool) (xs : list A) :
  List.filter f (List.filter g xs) = List.filter g (List.filter f xs).
Proof.
  induction xs as [|x xs IH]; cbn [List.filter]; [reflexivity|].
  destruct (f x) eqn:F, (g x) eqn:G; cbn [List.filter];
    rewrite ?F, ?G, IH; reflexivity.
Qed.

Lemma sources_present_filter (f : ReviewData -> bool) (data : list ReviewData) :
  Spec.sources_present data -> Spec.sources_present (List.filter f data).
Proof.
  unfold Spec.sources_present. rewrite !Forall_forall.
  intros H r Hin. apply filter_In in Hin. apply H, Hin.
Qed.

Lemma sources_present_or_not (data : list ReviewData) :
  Spec.sources_present data \/ Exists (fun r => source r = None) data.
Proof.
  induction data as [|r data [IH|IH]].
  - left. constructor.
  - destruct (source r) eqn:E.
    + left. constructor; [congruence|exact IH].
    + right. apply Exists_cons_hd, E.
  - right. apply Exists_cons_tl, IH.
Qed.

Lemma bind_Normal {A : Type} (c : Js.completion A) :
  (x <- c ;; Js.Normal x) = c.
Proof. destruct c; reflexivity. Qed.

(** Two review filters applied one after the other give the same result
    in either order, exceptions included. *)
Theorem filteredReviews_commute {E : Js.Engine} (q1 q2 : string)
        (data : list ReviewData) :
  (out <- filteredReviews q1 data ;; filteredReviews q2 out) =
  (out <- filteredReviews q2 data ;; filteredReviews q1 out).
Proof.
  destruct q1 as [|c1 s1].
  { cbn [filteredReviews Js.not_ Js.bind].
    change (fun out => filteredReviews "" out)
      with (fun out : list ReviewData => Js.Normal out).
    rewrite bind_Normal. reflexivity. }
  destruct q2 as [|c2 s2].
  { cbn [filteredReviews Js.not_ Js.bind].
    change (fun out => filteredReviews "" out)
      with (fun out : list ReviewData => Js.Normal out).
    rewrite bind_Normal. reflexivity. }
  destruct (sources_present_or_not data) as [Hs|Hm].
  - rewrite (filteredReviews_filter _ data Hs).
    rewrite (filteredReviews_filter (String c2 s2) data Hs). cbn [Js.bind].
    rewrite !filteredReviews_filter by (apply sources_present_filter, Hs).
    rewrite list_filter_comm. reflexivity.
  - assert (H1 : filteredReviews (String c1 s1) data = Js.Throw Js.TypeError)
      by (apply filteredReviews_throw_cases; split; [discriminate|exact Hm]).
    assert (H2 : filteredReviews (String c2 s2) data = Js.Throw Js.TypeError)
      by (apply filteredReviews_throw_cases; split; [discriminate|exact Hm]).
    rewrite H1, H2. reflexivity.
Qed.

End FilterMore.

(** ** The chart of [part_001] and the snippet table of [page.tsx] *)

Section Views.

Import Reviews Examples.

(** The chart has one bar for each record the filter selects, in the
    order of the batch: never more bars than records, every bar named by a
    source that contains the query, letter case ignored as the engine's
    lower-casing does, and a bar for every record when the query is
    empty. *)
Theorem chartData_bars {E : Js.Engine} (query : string) (data : list ReviewData) :
  Spec.sources_present data ->
  exists bars,
    SourcePage.chartData query data = Js.Normal bars /\
    bars = map (fun r => (source r, rating r))
               (List.filter (Spec.keeps_review query) data) /\
    (List.length bars <= List.length data)%nat /\
    (forall bar, In bar bars ->
                 exists s, fst bar = Some s /\ Spec.contains_ignoring_case s query) /\
    (query = ""%string -> bars = map (fun r => (source r, rating r)) data).
Proof.
  intros Hs. unfold SourcePage.chartData.
  rewrite (filteredReviews_filter query data Hs). cbn [Js.bind].
  eexists. split; [reflexivity|]. split; [reflexivity|]. split; [|split].
  - rewrite length_map. apply filter_length_le.
  - intros bar Hin. apply in_map_iff in Hin. destruct Hin as [r [<- Hr]].
    apply filter_In in Hr. destruct Hr as [_ Hk].
    apply keeps_review_iff in Hk. exact Hk.
  - intros ->. pose proof (filteredReviews_filter "" data Hs) as E'.
    rewrite filteredReviews_empty in E'. injection E' as <-. reflexivity.
Qed.

Lemma chartData_bars_sites :
  Spec.sources_present sites /\
  exists bars,
    SourcePage.chartData (E := Js.ascii_engine) "a" sites = Js.Normal bars /\
    bars = map (fun r => (source r, rating r))
               (List.filter (Spec.keeps_review (E := Js.ascii_engine) "a") sites) /\
    (List.length bars <= List.length sites)%nat /\
    (forall bar, In bar bars ->
                 exists s, fst bar = Some s /\
                           Spec.contains_ignoring_case (E := Js.ascii_engine) s "a") /\
    ("a"%string = ""%string -> bars = map (fun r => (source r, rating r)) sites).
Proof.
  split; [exact sites_sources_present|].
  apply (chartData_bars (E := Js.ascii_engine) "a" sites sites_sources_present).
Defined.

(** The snippet column shows one text for each review of the source, none
    when the source has no list of reviews; no text shown is empty: an
    absent or empty snippet is replaced by the fixed notice, any other
    snippet is shown as it is. *)
Theorem snippetTexts_shown (item : ReviewData) :
  List.length (Dashboard.snippetTexts item) =
    match reviews item with Some rs => List.length rs | None => 0%nat end /\
  Forall (fun text => text <> ""%string) (Dashboard.snippetTexts item) /\
  (forall rs, reviews item = Some rs ->
     Forall2 (fun review text =>
                match Snippet.snippet review with
                | Some (String c s) => text = String c s
                | _ => text = "No snippet available."%string
                end) rs (Dashboard.snippetTexts item)).
Proof.
  unfold Dashboard.snippetTexts. destruct (reviews item) as [rs|].
  - split; [apply length_map|]. split.
    + apply Forall_map, Forall_forall. intros review _.
      destruct (Snippet.snippet review) as [[|c t]|]; cbn [Js.truthy]; discriminate.
    + intros rs' E. injection E as <-.
      induction rs as [|review rs IH]; cbn [map]; constructor; [|exact IH].
      destruct (Snippet.snippet review) as [[|c t]|]; reflexivity.
  - split; [reflexivity|]. split; [constructor|]. intros rs E. discriminate E.
Qed.

End Views.


(** ** More on the business listing *)

Section ListingMore.

Import Listing Examples.

Lemma rating_sum_bounds (data : list Business) :
  (forall b, In b data -> 0 <= Spec.number_of (rating b) <= 5) ->
  0 <= Spec.Qsum (map (fun b => Spec.number_of (rating b)) data) <=
  5 * inject_Z (Z.of_nat (List.length data)).
Proof.
  induction data as [|b data IH]; intros H.
  - cbn [map Spec.Qsum List.length]. change (inject_Z (Z.of_nat 0)) with 0. lra.
  - cbn [map Spec.Qsum List.length]. rewrite Nat2Z.inj_succ, <- Z.add_1_r.
    rewrite inject_Z_plus. change (inject_Z 1) with 1.
    pose proof (H b (or_introl eq_refl)) as Hb.
    pose proof (IH (fun b' Hin => H b' (or_intror Hin))) as Hrest. lra.
Qed.

Lemma simple_mean_range (data : list Business) :
  data <> [] ->
  (forall b, In b data -> 0 <= Spec.number_of (rating b) <= 5) ->
  0 <= Spec.simple_mean data <= 5.
Proof.
  intros Hne H. unfold Spec.simple_mean.
  pose proof (rating_sum_bounds data H) as Hsum.
  pose proof (length_pos data Hne) as Hn.
  split.
  - apply Qle_shift_div_l; [exact Hn|]. lra.
  - apply Qle_shift_div_r; [exact Hn|]. lra.
Qed.

(** The average of the business page is 0 on the empty batch, and is a
    number between 0 and 5 when every rating (an absent one as 0) is.
    (The batch is an array: it has fewer than [2^32] businesses.) *)
Theorem averageRating_range (data : list Business) :
  (forall b, In b data -> 0 <= Spec.number_of (rating b) <= 5) ->
  Spec.array_length (List.length data) ->
  averageRating [] = Js.Fin 0 /\
  exists q, averageRating data = Js.Fin q /\ 0 <= q <= 5.
Proof.
  intros H Hlen. split; [reflexivity|].
  destruct data as [|b data]; [exists 0; split; [reflexivity|lra]|].
  assert (Hne : b :: data <> []) by discriminate.
  assert (H0 : forall x, In x (b :: data) -> 0 <= Spec.number_of (rating x))
    by (intros x Hin; apply (H x Hin)).
  eexists. split; [apply averageRating_value, Hne|].
  destruct (total_drift (b :: data) H0) as [Tl Th].
  pose proof (rating_sum_nonneg (b :: data) H0) as Hs.
  destruct (quotient_drift (total (b :: data)) _ _ _ (length_pos _ Hne) Hs Tl Th)
    as [_ Qh].
  fold (Spec.simple_mean (b :: data)) in Qh.
  replace (S (S (List.length (b :: data))))
    with (List.length (b :: data) + 2)%nat in Qh by lia.
  pose proof (power_up_five _ _ Hlen (simple_mean_range _ Hne H)) as H5.
  split.
  - apply toFixed2_nonneg, round_nonneg.
    pose proof (power_down (S (List.length (b :: data)))) as [p0 _].
    assert (0 <= Spec.power (1 - Spec.u) (S (List.length (b :: data)))
                 * Spec.Qsum (map (fun x => Spec.number_of (rating x)) (b :: data)))
      by (apply Qmult_le_0_compat; lra).
    apply Qle_shift_div_l; [apply length_pos, Hne|]. lra.
  - apply toFixed2_five. lra.
Qed.

Lemma shops_ratings_in_range :
  forall b, In b shops -> 0 <= Spec.number_of (rating b) <= 5.
Proof.
  intros b [<-|[<-|[]]]; split; vm_compute; intro E; discriminate E.
Defined.

Lemma shops_array : Spec.array_length (List.length shops).
Proof. reflexivity. Defined.

Lemma averageRating_range_shops :
  (forall b, In b shops -> 0 <= Spec.number_of (rating b) <= 5) /\
  Spec.array_length (List.length shops) /\
  averageRating [] = Js.Fin 0 /\
  exists q, averageRating shops = Js.Fin q /\ 0 <= q <= 5.
Proof.
  split; [exact shops_ratings_in_range|]. split; [exact shops_array|].
  apply (averageRating_range shops shops_ratings_in_range shops_array).
Defined.

Lemma count_where_app {A : Type} (p : A -> bool) (xs ys : list A) :
  Spec.count_where p (xs ++ ys) =
  (Spec.count_where p xs + Spec.count_where p ys)%nat.
Proof.
  unfold Spec.count_where. rewrite filter_app, length_app. reflexivity.
Qed.

Lemma count_where_perm {A : Type} (p : A -> bool) (xs ys : list A) :
  Permutation xs ys -> Spec.count_where p xs = Spec.count_where p ys.
Proof.
  induction 1 as [|x xs ys _ IH|x y xs|xs ys zs _ IH1 _ IH2].
  - reflexivity.
  - rewrite !count_where_cons, IH. reflexivity.
  - rewrite !count_where_cons. lia.
  - congruence.
Qed.

Lemma ratingDistribution_counts (data : list Business) :
  ratingDistribution data =
    [ ("5 Stars", Spec.count_where (Spec.rated_at_least 5) data);
      ("4-4.9 Stars", Spec.count_where (Spec.rated_in 4 5) data);
      ("3-3.9 Stars", Spec.count_where (Spec.rated_in 3 4) data);
      ("2-2.9 Stars", Spec.count_where (Spec.rated_in 2 3) data);
      ("1-1.9 Stars", Spec.count_where (Spec.rated_in 1 2) data) ]%string.
Proof.
  unfold ratingDistribution, distribution0.
  rewrite fold_tally. apply five_buckets_eq; lia.
Qed.

Lemma stalls_reordered : Permutation stalls stalls'.
Proof. unfold stalls, stalls'. apply perm_skip, perm_skip, perm_swap. Defined.

(** The order of the businesses matters neither to the histogram nor to
    the exact mean of the ratings; it does matter to the average shown,
    whose additions are rounded in the order of the batch: ratings 1, 1,
    1.1 and 1.2 show 1.07 in this order and 1.08 with the last two
    exchanged. *)
Theorem listing_permutation (data data' : list Business) :
  Permutation data data' ->
  ratingDistribution data = ratingDistribution data' /\
  Spec.simple_mean data == Spec.simple_mean data' /\
  (exists batch batch',
      Permutation batch batch' /\
      averageRating batch = Js.Fin (107 # 100) /\
      averageRating batch' = Js.Fin (108 # 100)).
Proof.
  intros Hp. split; [|split].
  - rewrite !ratingDistribution_counts.
    apply five_buckets_eq; apply count_where_perm, Hp.
  - unfold Spec.simple_mean. rewrite (Permutation_length Hp).
    rewrite (Qsum_perm _ _ (Permutation_map _ Hp)). reflexivity.
  - exists stalls, stalls'. split; [exact stalls_reordered|].
    split; vm_compute; reflexivity.
Qed.

Lemma mixed_reversed : Permutation mixed (rev mixed).
Proof. apply Permutation_rev. Defined.

Lemma listing_permutation_mixed :
  Permutation mixed (rev mixed) /\
  ratingDistribution mixed = ratingDistribution (rev mixed) /\
  Spec.simple_mean mixed == Spec.simple_mean (rev mixed) /\
  (exists batch batch',
      Permutation batch batch' /\
      averageRating batch = Js.Fin (107 # 100) /\
      averageRating batch' = Js.Fin (108 # 100)).
Proof.
  split; [exact mixed_reversed|].
  apply (listing_permutation mixed (rev mixed) mixed_reversed).
Defined.

(** The histogram of two batches put together has the same five names
    and, bucket by bucket, the sum of the two counts. *)
Theorem ratingDistribution_append (a b : list Business) :
  map fst (ratingDistribution (a ++ b)) = map fst (ratingDistribution a) /\
  map snd (ratingDistribution (a ++ b)) =
    map (fun xy => (fst xy + snd xy)%nat)
        (combine (map snd (ratingDistribution a)) (map snd (ratingDistribution b))).
Proof.
  rewrite !ratingDistribution_counts. cbn [map fst snd combine].
  rewrite !count_where_app. split; reflexivity.
Qed.

(** A business whose rating is absent or 0 is in no bucket of the
    histogram, yet it counts in the average, as a rating of 0: put into a
    batch it leaves the histogram and the double sum of the ratings as
    they are, and the average divides that same sum by one more. *)
Theorem unrated_business (u : Business) (a b : list Business) :
  Spec.number_of (rating u) == 0 ->
  ratingDistribution (a ++ u :: b) = ratingDistribution (a ++ b) /\
  total (a ++ u :: b) == total (a ++ b) /\
  Js.same_value
    (averageRating (a ++ u :: b))
    (Js.toFixed2_number
       (Js.div (total (a ++ b)) (inject_Z (Z.of_nat (S (List.length (a ++ b))))))).
Proof.
  intros Hu.
  assert (Ht : total (a ++ u :: b) == total (a ++ b)).
  { unfold total. apply reduce_add_skip.
    pose proof (or0_eq (rating u)) as E. fold (Spec.number_of (rating u)) in E.
    rewrite E. exact Hu. }
  split; [|split; [exact Ht|]].
  - rewrite !ratingDistribution_counts.
    assert (Hnone : forall lo, 0 < lo -> Spec.rated_at_least lo u = false).
    { intros lo Hlo. unfold Spec.rated_at_least.
      unfold Spec.number_of in Hu. destruct (rating u) as [x|]; [|reflexivity].
      destruct (Qle_bool lo x) eqn:E; [|reflexivity].
      apply Qle_bool_iff in E. lra. }
    assert (Hin : forall lo hi, 0 < lo -> Spec.rated_in lo hi u = false).
    { intros lo hi Hlo. unfold Spec.rated_in.
      unfold Spec.number_of in Hu. destruct (rating u) as [x|]; [|reflexivity].
      destruct (Qle_bool lo x) eqn:E; [|reflexivity].
      apply Qle_bool_iff in E. lra. }
    apply five_buckets_eq; rewrite !count_where_app, count_where_cons;
      rewrite ?Hnone, ?Hin by reflexivity; reflexivity.
  - assert (Hl : List.length (a ++ u :: b) = S (List.length (a ++ b)))
      by (rewrite !length_app; cbn [List.length]; lia).
    unfold averageRating at 1. rewrite Hl. cbn [Nat.eqb].
    apply toFixed2_number_comp, div_comp; [exact Ht|reflexivity].
Qed.

Lemma unrated_business_mixed :
  Spec.number_of (rating (business "New" "Cafe" 0 0)) == 0 /\
  ratingDistribution ([] ++ business "New" "Cafe" 0 0 :: mixed) =
    ratingDistribution ([] ++ mixed) /\
  total ([] ++ business "New" "Cafe" 0 0 :: mixed) == total ([] ++ mixed) /\
  Js.same_value
    (averageRating ([] ++ business "New" "Cafe" 0 0 :: mixed))
    (Js.toFixed2_number
       (Js.div (total ([] ++ mixed))
               (inject_Z (Z.of_nat (S (List.length ([] ++ mixed))))))).
Proof.
  split; [reflexivity|].
  apply (unrated_business (business "New" "Cafe" 0 0) [] mixed). reflexivity.
Defined.

End ListingMore.

(** ** The submit handlers *)

Section Forms.

Open Scope string_scope.

Lemma split_not_nil (sep : ascii) (s : string) : Js.split sep s <> [].
Proof.
  destruct s as [|c s]; cbn [Js.split]; [discriminate|].
  destruct (Ascii.eqb c sep); [discriminate|].
  destruct (Js.split sep s); discriminate.
Qed.

Lemma join_cons (sep : ascii) (piece : string) (pieces : list string) :
  pieces <> [] ->
  Js.join sep (piece :: pieces) = piece ++ String sep (Js.join sep pieces).
Proof. destruct pieces; [congruence|reflexivity]. Qed.

Lemma join_split (sep : ascii) (s : string) : Js.join sep (Js.split sep s) = s.
Proof.
  induction s as [|c s IH]; cbn [Js.split]; [reflexivity|].
  destruct (Ascii.eqb_spec c sep) as [->|Hc].
  - rewrite join_cons by apply split_not_nil. rewrite IH. reflexivity.
  - pose proof (split_not_nil sep s) as Hne.
    destruct (Js.split sep s) as [|piece pieces]; [congruence|].
    destruct pieces as [|piece' pieces].
    + cbn [Js.join] in *. rewrite IH. reflexivity.
    + rewrite join_cons by discriminate. rewrite join_cons in IH by discriminate.
      cbn [String.append]. rewrite IH. reflexivity.
Qed.

Lemma split_no_separator (sep : ascii) (s : string) :
  Forall (fun piece => has_char sep piece = false) (Js.split sep s).
Proof.
  induction s as [|c s IH]; cbn [Js.split].
  - constructor; [reflexivity|constructor].
  - destruct (Ascii.eqb c sep) eqn:E.
    + constructor; [reflexivity|exact IH].
    + destruct (Js.split sep s) as [|piece pieces]; [repeat constructor; cbn; now rewrite E|].
      inversion IH as [|? ? Hp Hps]; subst.
      constructor; [|exact Hps]. cbn [has_char]. rewrite E, Hp. reflexivity.
Qed.

Lemma kept_iff {E : Js.Engine} (url : string) :
  negb (String.eqb (Js.trim url) "") = true <-> ~ Spec.blank url.
Proof.
  unfold Spec.blank. rewrite negb_true_iff.
  destruct (String.eqb_spec (Js.trim url) ""); split; congruence.
Qed.

Lemma urlList_nil_iff {E : Js.Engine} (urls : string) :
  Dashboard.urlList urls = [] <-> Forall Spec.blank (Js.split newline urls).
Proof.
  unfold Dashboard.urlList. fold newline.
  induction (Js.split newline urls) as [|line lines IH]; cbn [List.filter].
  - split; [constructor|reflexivity].
  - destruct (negb (String.eqb (Js.trim line) "")) eqn:K.
    + split; [discriminate|]. intros H. inversion H as [|? ? Hb _]; subst.
      apply kept_iff in K. contradiction.
    + rewrite IH. split.
      * intros H. constructor; [|exact H].
        unfold Spec.blank. apply negb_false_iff in K.
        apply String.eqb_eq, K.
      * intros H. inversion H; assumption.
Qed.

(** The list of URLs sent: the lines of the box are its text cut at the
    line feeds (joining them gives the text back); the list keeps, in
    their order, exactly the lines that are not blank, that is, of which
    the engine's [trim] leaves something; so no URL sent is blank and none
    holds a line feed. *)
Theorem urlList_lines {E : Js.Engine} (urls : string) :
  Js.join newline (Js.split newline urls) = urls /\
  Spec.subsequence (Dashboard.urlList urls) (Js.split newline urls) /\
  (forall url, In url (Dashboard.urlList urls) <->
               In url (Js.split newline urls) /\ ~ Spec.blank url) /\
  Forall (fun url => Js.trim url <> "" /\ has_char newline url = false)
         (Dashboard.urlList urls).
Proof.
  split; [apply join_split|]. split; [|split].
  - apply filter_subsequence.
  - intros url. unfold Dashboard.urlList. rewrite filter_In, kept_iff. reflexivity.
  - apply Forall_forall. intros url Hin.
    unfold Dashboard.urlList in Hin. apply filter_In in Hin.
    destruct Hin as [Hin Hb]. apply kept_iff in Hb. split.
    + exact Hb.
    + pose proof (split_no_separator newline urls) as Hs.
      rewrite Forall_forall in Hs. apply Hs, Hin.
Qed.

(** No request is sent exactly when every line of the box is blank; the
    page then shows "Please enter at least one URL." with no data,
    whatever the provider would have answered; the empty box is such a
    box.  Otherwise the request carries the list of URLs, which is not
    empty. *)
Theorem blank_input {E : Js.Engine} (st : Dashboard.State)
        (f : Backend.Fetched Reviews.ReviewData) :
  (Dashboard.request st = None <->
   Forall Spec.blank (Js.split newline (Dashboard.urls st))) /\
  (Forall Spec.blank (Js.split newline (Dashboard.urls st)) ->
   Dashboard.error (Dashboard.handleSubmit st f) =
     Some "Please enter at least one URL." /\
   Dashboard.data (Dashboard.handleSubmit st f) = [] /\
   Dashboard.loading (Dashboard.handleSubmit st f) = false) /\
  (forall sent, Dashboard.request st = Some sent ->
                sent = Dashboard.urlList (Dashboard.urls st) /\ sent <> []) /\
  (Dashboard.urls st = "" -> Dashboard.request st = None).
Proof.
  split; [|split; [|split]].
  - unfold Dashboard.request. rewrite <- urlList_nil_iff.
    destruct (Dashboard.urlList (Dashboard.urls st)); split; congruence.
  - intros Hw. apply urlList_nil_iff in Hw.
    unfold Dashboard.handleSubmit. cbn [Dashboard.started Dashboard.urls].
    rewrite Hw. repeat split.
  - unfold Dashboard.request. intros sent.
    destruct (Dashboard.urlList (Dashboard.urls st)); [discriminate|].
    intros E'. injection E' as <-. split; [reflexivity|discriminate].
  - intros Hu. unfold Dashboard.request, Dashboard.urlList. rewrite Hu.
    cbn [Js.split List.filter]. rewrite Js.trim_empty. reflexivity.
Qed.

(** However the request ends, the handler leaves the page settled: it is
    no longer loading, the text of the box and the active cell are as they
    were, an error message and data never show together, and nothing of
    the earlier data or error survives: the outcome depends on the box and
    on the answer only. *)
Theorem handleSubmit_settles {E : Js.Engine} (st st' : Dashboard.State)
        (f : Backend.Fetched Reviews.ReviewData) :
  Dashboard.loading (Dashboard.handleSubmit st f) = false /\
  Dashboard.urls (Dashboard.handleSubmit st f) = Dashboard.urls st /\
  Dashboard.activeIndex (Dashboard.handleSubmit st f) = Dashboard.activeIndex st /\
  (Dashboard.error (Dashboard.handleSubmit st f) = None \/
   Dashboard.data (Dashboard.handleSubmit st f) = []) /\
  (Dashboard.urls st' = Dashboard.urls st ->
   Dashboard.activeIndex st' = Dashboard.activeIndex st ->
   Dashboard.handleSubmit st' f = Dashboard.handleSubmit st f).
Proof.
  unfold Dashboard.handleSubmit. cbn [Dashboard.started Dashboard.urls
    Dashboard.data Dashboard.error Dashboard.activeIndex].
  split; [|split; [|split; [|split]]].
  - destruct (Dashboard.urlList (Dashboard.urls st)); [reflexivity|].
    destruct (Dashboard.attempt f); reflexivity.
  - destruct (Dashboard.urlList (Dashboard.urls st)); [reflexivity|].
    destruct (Dashboard.attempt f); reflexivity.
  - destruct (Dashboard.urlList (Dashboard.urls st)); [reflexivity|].
    destruct (Dashboard.attempt f); reflexivity.
  - destruct (Dashboard.urlList (Dashboard.urls st)); [right; reflexivity|].
    destruct (Dashboard.attempt f); [right|left]; reflexivity.
  - intros -> ->. reflexivity.
Qed.

Lemma request_sent {E : Js.Engine} (st : Dashboard.State) (sent : list string) :
  Dashboard.request st = Some sent ->
  exists url rest, Dashboard.urlList (Dashboard.urls st) = url :: rest.
Proof.
  unfold Dashboard.request.
  destruct (Dashboard.urlList (Dashboard.urls st)) as [|url rest]; [discriminate|].
  intros _. exists url, rest. reflexivity.
Qed.

(** The two review pages treat every answer alike, except two.  On a
    well-formed answer that carries an [error], [page.tsx] shows that
    error and no data, while [part_001] does not look at it and shows the
    data of the answer, or nothing, without any message.  On an answer
    whose body is [null], each page fails on the first property it reads:
    [page.tsx] shows the engine's message for reading [error] of [null],
    [part_001] the one for reading [data]; neither shows data. *)
Theorem handlers_agree {E : Js.Engine} (st : Dashboard.State)
        (st' : SourcePage.State) (f : Backend.Fetched Reviews.ReviewData) :
  SourcePage.urls st' = Dashboard.urls st ->
  ((forall result, f = Backend.Responded true (Backend.Parsed result) ->
                   Js.truthy (Backend.error result) = false) ->
   f <> Backend.Responded true Backend.Null ->
   SourcePage.data (SourcePage.handleSubmit st' f) =
     Dashboard.data (Dashboard.handleSubmit st f) /\
   SourcePage.error (SourcePage.handleSubmit st' f) =
     Dashboard.error (Dashboard.handleSubmit st f) /\
   SourcePage.loading (SourcePage.handleSubmit st' f) =
     Dashboard.loading (Dashboard.handleSubmit st f)) /\
  (forall result sent,
     f = Backend.Responded true (Backend.Parsed result) ->
     Js.truthy (Backend.error result) = true ->
     Dashboard.request st = Some sent ->
     Dashboard.error (Dashboard.handleSubmit st f) = Backend.error result /\
     Dashboard.data (Dashboard.handleSubmit st f) = [] /\
     SourcePage.error (SourcePage.handleSubmit st' f) = None /\
     SourcePage.data (SourcePage.handleSubmit st' f) =
       match Backend.data result with Some d => d | None => [] end) /\
  (forall sent,
     f = Backend.Responded true Backend.Null ->
     Dashboard.request st = Some sent ->
     Dashboard.error (Dashboard.handleSubmit st f) = Some (Js.readNull "error") /\
     Dashboard.data (Dashboard.handleSubmit st f) = [] /\
     SourcePage.error (SourcePage.handleSubmit st' f) = Some (Js.readNull "data") /\
     SourcePage.data (SourcePage.handleSubmit st' f) = []).
Proof.
  intros Hu. split; [|split].
  - intros Hok Hnull.
    unfold SourcePage.handleSubmit, Dashboard.handleSubmit.
    cbn [SourcePage.started Dashboard.started SourcePage.urls Dashboard.urls
         SourcePage.data Dashboard.data SourcePage.error Dashboard.error].
    rewrite Hu. change SourcePage.urlList with Dashboard.urlList.
    destruct (Dashboard.urlList (Dashboard.urls st)); [repeat split|].
    destruct f as [e|ok body]; [repeat split|].
    destruct ok; [|repeat split].
    destruct body as [e| |result]; [repeat split|congruence|].
    cbn [SourcePage.attempt Dashboard.attempt negb].
    rewrite (Hok result eq_refl). repeat split.
  - intros result sent -> Ht Hsent.
    destruct (request_sent st sent Hsent) as [url [rest Hl]].
    unfold SourcePage.handleSubmit, Dashboard.handleSubmit.
    cbn [SourcePage.started Dashboard.started SourcePage.urls Dashboard.urls
         SourcePage.data Dashboard.data SourcePage.error Dashboard.error].
    rewrite Hu. change SourcePage.urlList with Dashboard.urlList. rewrite Hl.
    cbn [SourcePage.attempt Dashboard.attempt negb]. rewrite Ht.
    cbn [Dashboard.error Dashboard.data SourcePage.error SourcePage.data
         Dashboard.shown_error].
    destruct (Backend.error result) as [[|c m]|]; try discriminate Ht.
    repeat split.
  - intros sent -> Hsent.
    destruct (request_sent st sent Hsent) as [url [rest Hl]].
    unfold SourcePage.handleSubmit, Dashboard.handleSubmit.
    cbn [SourcePage.started Dashboard.started SourcePage.urls Dashboard.urls
         SourcePage.data Dashboard.data SourcePage.error Dashboard.error].
    rewrite Hu. change SourcePage.urlList with Dashboard.urlList. rewrite Hl.
    repeat split.
Qed.

Lemma handlers_agree_blocked :
  SourcePage.urls Examples.typed' = Dashboard.urls Examples.typed /\
  ((forall result,
      Examples.blocked = Backend.Responded true (Backend.Parsed result) ->
      Js.truthy (Backend.error result) = false) ->
   Examples.blocked <> Backend.Responded true Backend.Null ->
   SourcePage.data (SourcePage.handleSubmit (E := Js.ascii_engine)
                      Examples.typed' Examples.blocked) =
     Dashboard.data (Dashboard.handleSubmit (E := Js.ascii_engine)
                       Examples.typed Examples.blocked) /\
   SourcePage.error (SourcePage.handleSubmit (E := Js.ascii_engine)
                       Examples.typed' Examples.blocked) =
     Dashboard.error (Dashboard.handleSubmit (E := Js.ascii_engine)
                        Examples.typed Examples.blocked) /\
   SourcePage.loading (SourcePage.handleSubmit (E := Js.ascii_engine)
                         Examples.typed' Examples.blocked) =
     Dashboard.loading (Dashboard.handleSubmit (E := Js.ascii_engine)
                          Examples.typed Examples.blocked)) /\
  (forall result sent,
     Examples.blocked = Backend.Responded true (Backend.Parsed result) ->
     Js.truthy (Backend.error result) = true ->
     Dashboard.request (E := Js.ascii_engine) Examples.typed = Some sent ->
     Dashboard.error (Dashboard.handleSubmit (E := Js.ascii_engine)
                        Examples.typed Examples.blocked) = Backend.error result /\
     Dashboard.data (Dashboard.handleSubmit (E := Js.ascii_engine)
                       Examples.typed Examples.blocked) = [] /\
     SourcePage.error (SourcePage.handleSubmit (E := Js.ascii_engine)
                         Examples.typed' Examples.blocked) = None /\
     SourcePage.data (SourcePage.handleSubmit (E := Js.ascii_engine)
                        Examples.typed' Examples.blocked) =
       match Backend.data result with Some d => d | None => [] end) /\
  (forall sent,
     Examples.blocked = Backend.Responded true Backend.Null ->
     Dashboard.request (E := Js.ascii_engine) Examples.typed = Some sent ->
     Dashboard.error (Dashboard.handleSubmit (E := Js.ascii_engine)
                        Examples.typed Examples.blocked) =
       Some (@Js.readNull Js.ascii_engine "error") /\
     Dashboard.data (Dashboard.handleSubmit (E := Js.ascii_engine)
                       Examples.typed Examples.blocked) = [] /\
     SourcePage.error (SourcePage.handleSubmit (E := Js.ascii_engine)
                         Examples.typed' Examples.blocked) =
       Some (@Js.readNull Js.ascii_engine "data") /\
     SourcePage.data (SourcePage.handleSubmit (E := Js.ascii_engine)
                        Examples.typed' Examples.blocked) = []).
Proof.
  split; [reflexivity|].
  apply (handlers_agree (E := Js.ascii_engine)
           Examples.typed Examples.typed' Examples.blocked).
  reflexivity.
Defined.

(** The answer whose body is [null], on a filled box: the messages of V8. *)
Example void_answer :
  Dashboard.error (Dashboard.handleSubmit (E := Js.ascii_engine)
                     Examples.typed Examples.void) =
    Some "Cannot read properties of null (reading 'error')" /\
  SourcePage.error (SourcePage.handleSubmit (E := Js.ascii_engine)
                      Examples.typed' Examples.void) =
    Some "Cannot read properties of null (reading 'data')".
Proof. split; reflexivity. Qed.

(** The business page never fills its table: after a submit the data is
    empty whatever the provider answers, and the page is not loading.
    Without an API URL the message is the fixed configuration error.  A
    refused, unreadable or failed request with an [Error] gives a message
    that starts with "Error", which the box shows in red; an answer that is
    [ok] gives the answer's own message, absent if it has none; a thrown
    value that is no [Error] gives a message that does not start with
    "Error". *)
Theorem scraper_handleSubmit {E : Js.Engine} (apiUrl : option string)
        (st : Scraper.State) (f : Backend.Fetched Listing.Business) :
  Scraper.data (Scraper.handleSubmit apiUrl st f) = [] /\
  Scraper.loading (Scraper.handleSubmit apiUrl st f) = false /\
  (Js.truthy apiUrl = false ->
   Scraper.message (Scraper.handleSubmit apiUrl st f) =
     Some "Error: API URL is not configured.") /\
  ((exists m, f = Backend.Rejected (Js.ErrorObject m)) \/
   (exists ok m, f = Backend.Responded ok (Backend.Unparsable (Js.ErrorObject m))) \/
   (exists result, f = Backend.Responded false (Backend.Parsed result)) ->
   exists shown,
     Scraper.message (Scraper.handleSubmit apiUrl st f) = Some shown /\
     Scraper.styled_as_error shown = true) /\
  (Js.truthy apiUrl = true ->
   (forall result, f = Backend.Responded true (Backend.Parsed result) ->
      Scraper.message (Scraper.handleSubmit apiUrl st f) = Backend.message result) /\
   (forall shown, f = Backend.Rejected (Js.OtherValue shown) ->
      Scraper.message (Scraper.handleSubmit apiUrl st f) =
        Some ("An unexpected error occurred: " ++ shown) /\
      Scraper.styled_as_error ("An unexpected error occurred: " ++ shown) = false)).
Proof.
  unfold Scraper.handleSubmit. cbn [Scraper.started Scraper.data Scraper.query
    Scraper.searchTerm].
  split; [|split; [|split; [|split]]].
  - destruct (Js.truthy apiUrl); cbn [negb]; [|reflexivity].
    destruct (Scraper.attempt f); reflexivity.
  - destruct (Js.truthy apiUrl); cbn [negb]; [|reflexivity].
    destruct (Scraper.attempt f); reflexivity.
  - intros ->. reflexivity.
  - intros Hf. destruct (Js.truthy apiUrl); cbn [negb].
    + destruct Hf as [[m ->]|[[ok [m ->]]|[result ->]]];
        cbn [Scraper.attempt negb Scraper.message Scraper.shown_error];
        eexists; split; reflexivity.
    + eexists. split; reflexivity.
  - intros ->. cbn [negb]. split.
    + intros result ->. reflexivity.
    + intros shown ->. split; reflexivity.
Qed.

Lemma totalReviewsScraped_sum (data : list Listing.Business) :
  Scraper.totalReviewsScraped data ==
  Spec.Qsum (map (fun b => Spec.number_of (Listing.reviews b)) data).
Proof.
  unfold Scraper.totalReviewsScraped. apply reduce_sum_Qsum.
  intros b. apply or0_eq.
Qed.

(** The total of reviews on the business page is the sum of the review
    numbers, an absent one as 0: it is 0 for no business, adds up over two
    batches put together, and does not depend on the order. *)
Theorem totalReviewsScraped_additive (a b : list Listing.Business) :
  Scraper.totalReviewsScraped [] == 0 /\
  Scraper.totalReviewsScraped (a ++ b) ==
    Scraper.totalReviewsScraped a + Scraper.totalReviewsScraped b /\
  Scraper.totalReviewsScraped (b ++ a) == Scraper.totalReviewsScraped (a ++ b).
Proof.
  assert (Happ : forall x y : list Listing.Business,
             Scraper.totalReviewsScraped (x ++ y) ==
             Scraper.totalReviewsScraped x + Scraper.totalReviewsScraped y).
  { intros x y. rewrite !totalReviewsScraped_sum.
    induction x as [|u x IH]; cbn [app map Spec.Qsum]; [lra|]. rewrite IH. lra. }
  split; [reflexivity|]. split; [apply Happ|]. rewrite !Happ. lra.
Qed.

End Forms.
